(** * corpfinder: normalizers, extractors, scraping pipeline and profile matcher

    A shallow embedding of the parts of [company_matcher.py] and
    [web_scraper.py] that carry the specified behaviour, followed by the
    properties established about them.

    Conventions of the embedding.
    - A Python [str] is a [string]; its characters are the code points below
      256, so that [\d] is exactly [0-9] and [\s] is the white space of that
      range.  An optional argument ([None] or a string) is an [option string];
      Python truthiness of such a value is [truthy].
    - The numbers of the matcher live in an arithmetic ([Numbers.arith]):
      [Numbers.binary64] is the one of the code, IEEE 754 doubles with
      their rounding; [Numbers.exact] is the one of the rationals.
    - The search index, [Levenshtein.distance], [tldextract] and
      [ast.literal_eval] are collaborators outside the repository: they are
      parameters of the functions that call them.
    - A [dict] whose iteration order matters is an association list in
      insertion order; [set(...)] is a [gset]. *)

From stdpp Require Import base gmap sets strings.
From Stdlib Require Import QArith Lqa Lia List Ascii String Permutation ZArith Bool.
From Stdlib Require Floats Uint63.
Import ListNotations.
Local Close Scope Q_scope.
Local Open Scope string_scope.
Local Set Warnings "-register-all".

(* ===================================================================== *)
(** * Part I: the embedding *)
(* ===================================================================== *)

(** ** Python string primitives *)
Module PyStr.

(** [if x:] for an optional string: [None] and [''] are falsy. *)
Definition truthy (x : option string) : bool :=
  match x with
  | None => false
  | Some EmptyString => false
  | Some _ => true
  end.

Definition between (lo hi : nat) (c : ascii) : bool :=
  (lo <=? nat_of_ascii c)%nat && (nat_of_ascii c <=? hi)%nat.

(** [\d] on code points below 256. *)
Definition is_digit (c : ascii) : bool := between 48 57 c.

(** [\s] on code points below 256. *)
Definition is_space (c : ascii) : bool :=
  between 9 13 c || between 28 32 c
  || (nat_of_ascii c =? 133)%nat || (nat_of_ascii c =? 160)%nat.

Definition is_upper (c : ascii) : bool :=
  between 65 90 c
  || (between 192 222 c && negb (nat_of_ascii c =? 215)%nat).

Definition lower_char (c : ascii) : ascii :=
  if is_upper c then ascii_of_nat (nat_of_ascii c + 32) else c.

(** [s.lower()] *)
Fixpoint lower (s : string) : string :=
  match s with
  | EmptyString => EmptyString
  | String c s' => String (lower_char c) (lower s')
  end.

(** [s.startswith(p)] *)
Fixpoint startswith (p s : string) : bool :=
  match p, s with
  | EmptyString, _ => true
  | String a p', String b s' => Ascii.eqb a b && startswith p' s'
  | String _ _, EmptyString => false
  end.

(** [s[n:]] for [n >= 0] *)
Fixpoint drop (n : nat) (s : string) : string :=
  match n, s with
  | O, _ => s
  | S _, EmptyString => EmptyString
  | S n', String _ s' => drop n' s'
  end.

(** [s[:n]] for [n >= 0] *)
Fixpoint take (n : nat) (s : string) : string :=
  match n, s with
  | O, _ => EmptyString
  | S _, EmptyString => EmptyString
  | S n', String c s' => String c (take n' s')
  end.

(** [s[-n:]] for [n > 0] *)
Definition last_n (n : nat) (s : string) : string :=
  drop (String.length s - n) s.

(** The characters of [s] that satisfy [keep], in order. *)
Fixpoint filter_chars (keep : ascii -> bool) (s : string) : string :=
  match s with
  | EmptyString => EmptyString
  | String c s' =>
      if keep c then String c (filter_chars keep s') else filter_chars keep s'
  end.

(** [sep.join(parts)] *)
Fixpoint join (sep : string) (parts : list string) : string :=
  match parts with
  | [] => EmptyString
  | [p] => p
  | p :: rest => p ++ sep ++ join sep rest
  end.

Definition all_chars (p : ascii -> bool) (s : string) : bool :=
  forallb p (list_ascii_of_string s).

Definition count_chars (p : ascii -> bool) (s : string) : nat :=
  String.length (filter_chars p s).

End PyStr.

(** ** The fragment of Python's [re] the sources use

    A backtracking matcher with greedy quantifiers and one capture group,
    which is how [re] resolves the patterns below. *)
Module Re.
Import PyStr.

Inductive regex : Type :=
| Lit (c : ascii)                                   (* a literal character *)
| Cls (p : ascii -> bool)                           (* a character class   *)
| Cat (r1 r2 : regex)                               (* r1 r2               *)
| Opt (r : regex)                                   (* r?   (greedy)       *)
| Rep (p : ascii -> bool) (lo : nat) (hi : option nat)
                                                    (* [p]{lo,hi}, [p]+, [p]* (greedy) *)
| Grp (r : regex).                                  (* ( r ), group 1      *)

(** The literal string [w] as a pattern. *)
Fixpoint word (w : string) (k : regex) : regex :=
  match w with
  | EmptyString => k
  | String c w' => Cat (Lit c) (word w' k)
  end.

Definition Eps : regex := Rep (fun _ => false) 0 (Some 0).
Definition plus (p : ascii -> bool) : regex := Rep p 1 None.
Definition star (p : ascii -> bool) : regex := Rep p 0 None.
(** [.] without DOTALL: any character but a newline. *)
Definition dot (c : ascii) : bool := negb (nat_of_ascii c =? 10)%nat.

Definition may_repeat (hi : option nat) : bool :=
  match hi with None => true | Some h => (0 <? h)%nat end.

(** Greedy bounded repetition of a class: the longest run first, then
    shorter ones while at least [lo] characters are taken. *)
Fixpoint rep {R : Type} (p : ascii -> bool) (lo : nat) (hi : option nat)
         (s : string) (k : string -> option R) : option R :=
  let stop := if (lo =? 0)%nat then k s else None in
  match s with
  | String c s' =>
      if p c && may_repeat hi then
        match rep p (Nat.pred lo) (option_map Nat.pred hi) s' k with
        | Some r => Some r
        | None => stop
        end
      else stop
  | EmptyString => stop
  end.

(** [run r s g k]: match [r] at the head of [s]; [g] is the text captured
    by group 1 so far; [k] continues with the rest of the input. *)
Fixpoint run {R : Type} (r : regex) (s : string) (g : option string)
         (k : string -> option string -> option R) : option R :=
  match r with
  | Lit c =>
      match s with
      | String c' s' => if Ascii.eqb c c' then k s' g else None
      | EmptyString => None
      end
  | Cls p =>
      match s with
      | String c' s' => if p c' then k s' g else None
      | EmptyString => None
      end
  | Cat r1 r2 => run r1 s g (fun s' g' => run r2 s' g' k)
  | Opt r1 =>
      match run r1 s g k with
      | Some x => Some x
      | None => k s g
      end
  | Rep p lo hi => rep p lo hi s (fun s' => k s' g)
  | Grp r1 =>
      run r1 s g
          (fun s' _ => k s' (Some (take (String.length s - String.length s') s)))
  end.

Record match_object : Type := MatchObject {
  whole : string;            (* m.group(0) *)
  group1 : option string;    (* m.group(1) *)
  rest : string              (* the input after m.end() *)
}.

(** [re.match(r, s)]: a match anchored at the start of [s]. *)
Definition re_match (r : regex) (s : string) : option match_object :=
  run r s None
      (fun s' g =>
         Some (MatchObject (take (String.length s - String.length s') s) g s')).

(** [re.sub('^' r, '', s)]: with the anchor the only match is at offset 0. *)
Definition sub_at_start (r : regex) (s : string) : string :=
  match re_match r s with
  | Some m => rest m
  | None => s
  end.

(** [re.sub('[...]', '', s)] for a one-character class: every matching
    character is deleted. *)
Definition sub_class (p : ascii -> bool) (s : string) : string :=
  filter_chars (fun c => negb (p c)) s.

(** [s] is empty or starts with a character outside the class [p]. *)
Definition stops (p : ascii -> bool) (s : string) : bool :=
  match s with
  | EmptyString => true
  | String c _ => negb (p c)
  end.

Definition captured (m : match_object) : string :=
  match group1 m with Some g => g | None => EmptyString end.

(** [pattern.findall(s)] for a pattern with one group: the group-1 texts
    of the successive non-overlapping matches, scanning left to right. *)
Fixpoint findall_from (fuel : nat) (r : regex) (s : string) : list string :=
  match fuel with
  | O => []
  | S fuel' =>
      match re_match r s with
      | Some m =>
          match whole m, s with
          | EmptyString, String _ s' => captured m :: findall_from fuel' r s'
          | EmptyString, EmptyString => [captured m]
          | _, _ => captured m :: findall_from fuel' r (rest m)
          end
      | None =>
          match s with
          | String _ s' => findall_from fuel' r s'
          | EmptyString => []
          end
      end
  end.

Definition findall (r : regex) (s : string) : list string :=
  findall_from (S (String.length s)) r s.

End Re.

(** ** Normalizers ([company_matcher.py]) *)
Module Normalizers.
Import PyStr Re.

(** [[^\d+]]: everything but a digit or a plus sign. *)
Definition not_digit_plus (c : ascii) : bool :=
  negb (is_digit c || Ascii.eqb c "+").

(** [CompanyProfileMatcher._normalize_phone] *)
Definition _normalize_phone (phone : option string) : option string :=
  if negb (truthy phone) then None
  else
    match phone with
    | None => None
    | Some phone =>
        let normalized := sub_class not_digit_plus phone in
        let normalized :=
          if startswith "+" normalized then drop 1 normalized else normalized in
        let normalized :=
          if (10 <? String.length normalized)%nat
          then last_n 10 normalized else normalized in
        Some normalized
    end.

(** The characters of [s] the substitution leaves in place. *)
Definition kept (s : string) : string := sub_class not_digit_plus s.

(** The decimal digits of [s], in order. *)
Definition digits (s : string) : string := filter_chars is_digit s.

Definition digit_or_plus (c : ascii) : bool := is_digit c || Ascii.eqb c "+".

(** [s] has at most one plus sign, and no digit before it. *)
Definition plus_only_leading (s : string) : bool :=
  all_chars is_digit (drop 1 (kept s)).

Definition without_plus (s : string) : string :=
  if startswith "+" s then drop 1 s else s.

(** [s] itself, or its last [n] characters when it is longer. *)
Definition up_to_last (n : nat) (s : string) : string :=
  if (n <? String.length s)%nat then last_n n s else s.

(** [[a-zA-Z0-9\.\-\_]] *)
Definition handle_char (c : ascii) : bool :=
  between 97 122 c || between 65 90 c || is_digit c
  || Ascii.eqb c "." || Ascii.eqb c "-" || Ascii.eqb c "_".

(** [^https?://(www\.)?] (the anchor is carried by [sub_at_start]) *)
Definition scheme_www : regex :=
  word "http" (Cat (Opt (Lit "s")) (word "://" (Opt (word "www." Eps)))).

(** [/?.*], the tail shared by the three patterns *)
Definition tail : regex := Cat (Opt (Lit "/")) (star dot).

(** [facebook\.com/([a-zA-Z0-9\.\-\_]+)/?.*] *)
Definition pat_facebook : regex :=
  word "facebook.com/" (Cat (Grp (plus handle_char)) tail).

(** [fb\.com/([a-zA-Z0-9\.\-\_]+)/?.*] *)
Definition pat_fb : regex :=
  word "fb.com/" (Cat (Grp (plus handle_char)) tail).

(** [facebook\.com/profile\.php\?id=([0-9]+)/?.*] *)
Definition pat_profile : regex :=
  word "facebook.com/profile.php?id=" (Cat (Grp (plus (between 48 57))) tail).

Definition facebook_patterns : list regex :=
  [pat_facebook; pat_fb; pat_profile].

(** The [for pattern in facebook_patterns] loop: the first pattern that
    matches decides. *)
Fixpoint first_match (ps : list regex) (url : string) : option string :=
  match ps with
  | [] => None
  | p :: ps' =>
      match re_match p url with
      | Some m => Some (lower (captured m))
      | None => first_match ps' url
      end
  end.

(** [CompanyProfileMatcher._normalize_facebook_url] *)
Definition _normalize_facebook_url (url : option string) : option string :=
  if negb (truthy url) then None
  else
    match url with
    | None => None
    | Some url =>
        let url := sub_at_start scheme_www (lower url) in
        match first_match facebook_patterns url with
        | Some handle => Some handle
        | None => Some (lower url)
        end
    end.

End Normalizers.

(** ** Dataset builder ([company_matcher.py], [prepare_data]) *)
Module DatasetBuilder.
Import PyStr.

(** A cell of the merged table as [pandas.read_csv] delivers it: a missing
    value (NaN) or the text of the field. *)
Inductive cell : Type :=
| Missing
| Text (s : string).

(** Python values that a parsed cell can hold. *)
Inductive pyvalue : Type :=
| VStr (s : string)
| VInt (z : Z)
| VList (l : list pyvalue)
| VOther.

Inductive exn : Type :=
| ValueError
| SyntaxError
| OtherError.

(** The outcome of [ast.literal_eval]: a value or a raised exception. *)
Definition evaluation : Type := (pyvalue + exn)%type.

(** [pd.isna(value)] *)
Definition isna (value : cell) : bool :=
  match value with Missing => true | Text _ => false end.

(** [value == '[]'] *)
Definition is_brackets (value : cell) : bool :=
  match value with Missing => false | Text s => String.eqb s "[]" end.

Section CleanStringList.
(** [ast.literal_eval] on a string *)
Variable literal_eval : string -> evaluation.

(** [CompanyProfileMatcher._clean_string_list]; an exception other than
    [ValueError] and [SyntaxError] is not caught and propagates. *)
Definition _clean_string_list (value : cell) : evaluation :=
  if isna value || is_brackets value then inl (VList [])
  else
    match value with
    | Missing => inl (VList [])
    | Text s =>
        match literal_eval s with
        | inl v => inl v
        | inr ValueError => inl (VList [VStr s])
        | inr SyntaxError => inl (VList [VStr s])
        | inr e => inr e
        end
    end.
End CleanStringList.

(** *** A reference evaluator for the lists the scraper writes

    [save_results] stores a list field as [str(list)]: brackets around
    comma-separated quoted strings.  [eval_string_list] evaluates exactly
    that shape (either quote, no backslash, blanks allowed around tokens,
    an optional trailing comma); on any other text, the empty text
    included, it answers [SyntaxError]. *)
Inductive pstate : Type :=
| Start                                        (* before the opening bracket *)
| Item (first : bool) (acc : list string)      (* an item or the closing bracket *)
| Quoted (q : ascii) (cur : string) (acc : list string)   (* inside a literal *)
| After (acc : list string)                    (* after an item *)
| Closed (acc : list string)                   (* after the closing bracket *)
| Bad.

Definition blank (c : ascii) : bool := Ascii.eqb c " " || between 9 9 c.
Definition quote (c : ascii) : bool := Ascii.eqb c "'" || (nat_of_ascii c =? 34)%nat.

Definition pstep (st : pstate) (c : ascii) : pstate :=
  match st with
  | Start =>
      if blank c then Start
      else if Ascii.eqb c "[" then Item true [] else Bad
  | Item first acc =>
      if blank c then Item first acc
      else if Ascii.eqb c "]" then Closed acc
      else if quote c then Quoted c EmptyString acc
      else Bad
  | Quoted q cur acc =>
      if Ascii.eqb c q then After (acc ++ [cur])%list
      else if Ascii.eqb c "\" || (nat_of_ascii c =? 10)%nat then Bad
      else Quoted q (cur ++ String c EmptyString) acc
  | After acc =>
      if blank c then After acc
      else if Ascii.eqb c "," then Item false acc
      else if Ascii.eqb c "]" then Closed acc
      else Bad
  | Closed acc => if is_space c then Closed acc else Bad
  | Bad => Bad
  end.

Fixpoint prun (st : pstate) (s : string) : pstate :=
  match s with
  | EmptyString => st
  | String c s' => prun (pstep st c) s'
  end.

Definition eval_string_list (s : string) : evaluation :=
  match prun Start s with
  | Closed acc => inl (VList (map VStr acc))
  | _ => inr SyntaxError
  end.

End DatasetBuilder.

(** ** Extractors and pipeline ([web_scraper.py]) *)
Module Scraper.
Import PyStr Re.

(** [[\d\s\-\(\)]] *)
Definition phone_char (c : ascii) : bool :=
  is_digit c || is_space c
  || Ascii.eqb c "-" || Ascii.eqb c "(" || Ascii.eqb c ")".

(** [self.phone_pattern]: [(\+?[\d\s\-\(\)]{8,20})] *)
Definition phone_pattern : regex :=
  Grp (Cat (Opt (Lit "+")) (Rep phone_char 8 (Some 20))).

(** [re.sub(r'[^\d+]', '', phone)] *)
Definition clean_phone (phone : string) : string :=
  sub_class (fun c => negb (is_digit c || Ascii.eqb c "+")) phone.

(** The [for phone in phones] loop of [extract_phones]. *)
Definition cleaned_phones (phones : list string) : list string :=
  List.filter (fun cleaned => (8 <=? String.length cleaned)%nat)
              (map clean_phone phones).

(** [CompanyScraper.extract_phones]; the value is the set that the source
    turns into a list, whose order Python leaves unspecified. *)
Definition extract_phones (text : string) : gset string :=
  if negb (truthy (Some text)) then ∅
  else list_to_set (cleaned_phones (findall phone_pattern text)).

(** A set of phones after digit-only normalization, the form in which the
    specification reports the extracted set. *)
Definition digits_only (phones : gset string) : gset string :=
  set_map Normalizers.digits phones.

(** A result row, the dict that [scrape_website] and [batch_scrape] build. *)
Record ScrapedRow : Type := mkRow {
  website : string;
  domain : option string;
  status : string;
  phones : list string;
  addresses : list string;
  social_links : list (string * list string);
  error : option string;
  retries : Z
}.

(** What [future.result()] does for a finished task: it returns the row of
    [scrape_website], or raises again what the task raised: an instance of
    [Exception], which the handler of [batch_scrape] catches, or another
    [BaseException] ([SystemExit], [KeyboardInterrupt], [GeneratorExit]),
    which it does not.  The text is that of [str(e)]. *)
Inductive outcome : Type :=
| Returned (row : ScrapedRow)
| Raised (text : string)
| Escaped (text : string).

(** A future of the executor, with the url it was submitted for. *)
Record future : Type := mkFuture {
  fut_id : nat;
  fut_url : string;
  fut_outcome : outcome
}.

(** [{'website': url, 'status': 'failed', 'error': str(e), 'retries': -1}] *)
Definition failed_row (url e : string) : ScrapedRow :=
  {| website := url; domain := None; status := "failed";
     phones := []; addresses := []; social_links := [];
     error := Some e; retries := (-1)%Z |}.

(** The body of the loop for one completed future: the row to append, or
    the exception that leaves [batch_scrape]. *)
Definition collect (f : future) : ScrapedRow + string :=
  match fut_outcome f with
  | Returned result => inl result
  | Raised e => inl (failed_row (fut_url f) e)
  | Escaped e => inr e
  end.

(** The loop over the completed futures. *)
Fixpoint gather (completed : list future) (results : list ScrapedRow)
  : list ScrapedRow + string :=
  match completed with
  | [] => inl results
  | f :: completed' =>
      match collect f with
      | inl row => gather completed' (results ++ [row])
      | inr e => inr e
      end
  end.

Section BatchScrape.
(** The task run for the [i]-th submitted url (it reaches the network). *)
Variable scrape_website : nat -> string -> outcome.
(** The order in which [as_completed] hands the futures back. *)
Variable as_completed : list future -> list future.

(** [{executor.submit(self.scrape_website, url): url for url in urls}];
    the keys are distinct future objects, one per submitted url. *)
Fixpoint submit_all (i : nat) (urls : list string) : list future :=
  match urls with
  | [] => []
  | url :: urls' =>
      mkFuture i url (scrape_website i url) :: submit_all (S i) urls'
  end.

(** [CompanyScraper.batch_scrape]: the list of rows it returns, or the
    exception that it lets through. *)
Definition batch_scrape (urls : list string) : list ScrapedRow + string :=
  let future_to_url := submit_all 0 urls in
  gather (as_completed future_to_url) [].
End BatchScrape.

(** The row that the loop appends for the [i]-th url when its task does
    not escape. *)
Definition row_for (scrape_website : nat -> string -> outcome)
           (i : nat) (url : string) : ScrapedRow :=
  match scrape_website i url with
  | Returned row => row
  | Raised e | Escaped e =>
      {| website := url; domain := None; status := "failed";
         phones := []; addresses := []; social_links := [];
         error := Some e; retries := (-1)%Z |}
  end.

(** The task of [f] raised outside [Exception]. *)
Definition escapes (f : future) : bool :=
  match fut_outcome f with Escaped _ => true | _ => false end.

(** The row of a future that does not escape. *)
Definition row_of (f : future) : ScrapedRow :=
  row_for (fun _ _ => fut_outcome f) (fut_id f) (fut_url f).

(** The urls with their positions, from position [i] on. *)
Fixpoint numbered (i : nat) (urls : list string) : list (nat * string) :=
  match urls with
  | [] => []
  | url :: urls' => (i, url) :: numbered (S i) urls'
  end.

End Scraper.

(** ** The numbers of the matcher *)
Module Numbers.

(** The scores of [match_company] are Python numbers: the ints 0, 1, 5, 6,
    8, 10, the lengths and the edit distances, and the floats that come out
    of the divisions and of the store.  An arithmetic gives the type of
    the numbers and the operations the code applies to them; an int and the
    float of the same value are one number. *)
Record arith : Type := mkArith {
  num : Type;
  (** an int, as a number *)
  num_of_nat : nat -> num;
  (** [a + b], [a - b], [a * b], [a / b] *)
  num_add : num -> num -> num;
  num_sub : num -> num -> num;
  num_mul : num -> num -> num;
  num_div : num -> num -> num;
  (** [a < b] and [a <= b] *)
  num_ltb : num -> num -> bool;
  num_leb : num -> num -> bool
}.

Definition Qlt_bool (a b : Q) : bool := negb (Qle_bool b a).

(** The arithmetic of the specification: rationals, every operation
    without rounding. *)
Definition exact : arith :=
  mkArith Q (fun n => inject_Z (Z.of_nat n))
          Qplus Qminus Qmult Qdiv Qlt_bool Qle_bool.

(** The arithmetic of the code: IEEE 754 binary64, every operation rounded
    to nearest, ties to even, as CPython computes on floats.  The ints of
    the matcher are far below [2^53], where the conversion is the
    identity on values and sums of ints are the same in both types. *)
Definition binary64 : arith :=
  mkArith PrimFloat.float
          (fun n => PrimFloat.of_uint63 (Uint63.of_Z (Z.of_nat n)))
          PrimFloat.add PrimFloat.sub PrimFloat.mul PrimFloat.div
          PrimFloat.ltb PrimFloat.leb.

(** A rational is a number of [exact], a float one of [binary64]. *)
Canonical Structure exact.
Canonical Structure binary64.

(** [x] can be compared: it is not the float NaN. *)
Definition comparable {A : arith} (x : num A) : Prop :=
  num_leb A x x = true.

(** What the selection needs of the comparisons, on numbers that can be
    compared. *)
Record ordered (A : arith) : Prop := mkOrdered {
  order_total :
    forall x y : num A, comparable x -> comparable y ->
                        num_ltb A x y = false -> num_leb A y x = true;
  order_lt_trans :
    forall x y z : num A, num_ltb A x y = true -> num_ltb A y z = true ->
                          num_ltb A x z = true;
  order_le_lt_trans :
    forall x y z : num A, num_leb A x y = true -> num_ltb A y z = true ->
                          num_ltb A x z = true;
  order_lt_le :
    forall x y : num A, num_ltb A x y = true -> num_leb A x y = true
}.

End Numbers.

(** ** The matcher ([company_matcher.py], [match_company]) *)
Module Matcher.
Import PyStr Normalizers Numbers.

(** The query bodies [match_company] sends. *)
Inductive es_query : Type :=
| Term (field value : string)                (* {"term": {field: value}} *)
| Match (field value : string)               (* {"match": {field: value}} *)
| MatchFuzzy (field value : string)          (* match with fuzziness AUTO *)
| BoolShould (clauses : list es_query)       (* {"bool": {"should": [...]}} *)
| MultiMatch (value : string) (fields : list string).
                                             (* best_fields, fuzziness AUTO *)

Section Arithmetic.
Context {A : arith}.

(** An indexed document, the [_source] of a hit.  [index_company_data]
    always writes [company_id], [website] and [domain]; its one-by-one
    fallback writes nothing else, so the names may be absent. *)
Record CompanyRecord : Type := mkRecord {
  company_id : string;
  website : string;
  domain : string;
  company_commercial_name : option string;
  company_legal_name : option string;
  other_fields : list (string * list string);
  match_score : option (num A)
}.

Record hit : Type := mkHit {
  _source : CompanyRecord;
  _score : num A
}.

(** The collaborators of the matcher.  A search that raises ends the call
    with that exception; the embedding follows the calls whose searches
    answer. *)
Record backend : Type := mkBackend {
  (** [self.es.search(index, query, size)['hits']['hits']] *)
  es_search : es_query -> nat -> list hit;
  (** [Levenshtein.distance] *)
  distance : string -> string -> nat;
  (** [tldextract.extract(url)]: its [domain] and [suffix], or [None] when
      it raises *)
  tld_extract : string -> option (string * string);
  (** [urlparse(url).netloc], or [None] when it raises *)
  urlparse_netloc : string -> option string
}.

(** [match_scores]: a dict from company id to score, in insertion order. *)
Definition dict : Type := list (string * num A).

(** [d[k]], [None] standing for [KeyError] *)
Fixpoint dict_index (d : dict) (k : string) : option (num A) :=
  match d with
  | [] => None
  | (k', v) :: d' => if String.eqb k' k then Some v else dict_index d' k
  end.

(** [d.get(k, default)] *)
Definition dict_get (d : dict) (k : string) (default : num A) : num A :=
  match dict_index d k with Some v => v | None => default end.

(** [d[k] = v]: an existing key keeps its place, a new one goes last. *)
Fixpoint dict_set (d : dict) (k : string) (v : num A) : dict :=
  match d with
  | [] => [(k, v)]
  | (k', v') :: d' =>
      if String.eqb k' k then (k', v) :: d' else (k', v') :: dict_set d' k v
  end.

(** [max(a, b)]: the first argument unless the second is greater. *)
Definition py_max (a b : num A) : num A :=
  if num_ltb A a b then b else a.

(** [max(items, key=lambda x: x[1])]: the running best is replaced by an
    item of greater value only, so the first item of greatest value is
    kept. *)
Fixpoint max_by_value (best : string * num A) (items : list (string * num A))
  : string * num A :=
  match items with
  | [] => best
  | item :: items' =>
      max_by_value (if num_ltb A (snd best) (snd item) then item else best)
                   items'
  end.

(** The mutable state of one call, with the log of the queries issued. *)
Record mstate : Type := mkState {
  match_scores : dict;
  results : list CompanyRecord;
  issued : list (es_query * nat)
}.

Definition initial : mstate := mkState [] [] [].

(** [best_match['match_score'] = total] *)
Definition with_score (r : CompanyRecord) (total : num A) : CompanyRecord :=
  mkRecord (company_id r) (website r) (domain r)
           (company_commercial_name r) (company_legal_name r)
           (other_fields r) (Some total).

Section WithBackend.
Variable B : backend.

(** [CompanyProfileMatcher._extract_domain] *)
Definition _extract_domain (url : option string) : option string :=
  if negb (truthy url) then None
  else
    match url with
    | None => None
    | Some url =>
        let url :=
          if startswith "http://" url || startswith "https://" url
          then url else "http://" ++ url in
        match tld_extract B url with
        | Some (d, suffix) => Some (lower (d ++ "." ++ suffix))
        | None =>
            match urlparse_netloc B url with
            | Some netloc => Some (lower netloc)
            | None => Some (lower url)
            end
        end
    end.

(** The body of each [for hit in ...] loop:
    [match_scores[id] = match_scores.get(id, 0) + c; results.append(src)] *)
Definition add_hit (st : mstate) (src : CompanyRecord) (c : num A)
  : mstate :=
  mkState (dict_set (match_scores st) (company_id src)
                    (num_add A (dict_get (match_scores st) (company_id src)
                                         (num_of_nat A 0))
                             c))
          (results st ++ [src])
          (issued st).

(** One probe: a search, then the loop over its hits. *)
Definition probe (q : es_query) (size : nat) (contribution : hit -> num A)
           (st : mstate) : mstate :=
  let response := es_search B q size in
  let st := mkState (match_scores st) (results st)
                    (issued st ++ [(q, size)]) in
  fold_left (fun st h => add_hit st (_source h) (contribution h))
            response st.

Definition domain_probe (website : option string) (st : mstate) : mstate :=
  if truthy website then
    let domain := _extract_domain website in
    if truthy domain then
      match domain with
      | Some domain =>
          probe (Term "domain" domain) 5 (fun _ => num_of_nat A 10) st
      | None => st
      end
    else st
  else st.

Definition phone_probe (phone : option string) (st : mstate) : mstate :=
  if truthy phone then
    let normalized_phone := _normalize_phone phone in
    if truthy normalized_phone then
      match normalized_phone with
      | Some p =>
          probe (Match "phones_normalized" p) 5 (fun _ => num_of_nat A 8) st
      | None => st
      end
    else st
  else st.

Definition facebook_probe (facebook : option string) (st : mstate)
  : mstate :=
  if truthy facebook then
    let normalized_fb := _normalize_facebook_url facebook in
    if truthy normalized_fb then
      match normalized_fb with
      | Some f =>
          probe (Match "facebook_links_normalized" f) 5
                (fun _ => num_of_nat A 6) st
      | None => st
      end
    else st
  else st.

(** [1 - distance(name.lower(), field.lower()) / max(len(name), len(field))];
    the name is not empty where this is evaluated, so the divisor is not 0. *)
Definition similarity (name field : string) : num A :=
  num_sub A (num_of_nat A 1)
          (num_div A
             (num_of_nat A (distance B (lower name) (lower field)))
             (num_of_nat A (Nat.max (String.length name)
                                    (String.length field)))).

(** One round of the loop over the two name fields. *)
Definition best_with (name : string) (best_name_match : num A)
           (field : option string) : num A :=
  if truthy field then
    match field with
    | Some f => py_max best_name_match (similarity name f)
    | None => best_name_match
    end
  else best_name_match.

Definition name_score (name : string) (h : hit) : num A :=
  let source := _source h in
  let best_name_match :=
    fold_left (best_with name)
              [company_commercial_name source; company_legal_name source]
              (num_of_nat A 0) in
  num_mul A best_name_match (num_of_nat A 5).

Definition name_query (name : string) : es_query :=
  BoolShould [MatchFuzzy "company_commercial_name" name;
              MatchFuzzy "company_legal_name" name;
              MatchFuzzy "company_all_names" name].

Definition name_probe (name : option string) (st : mstate) : mstate :=
  if truthy name then
    match name with
    | Some n => probe (name_query n) 10 (name_score n) st
    | None => st
    end
  else st.

(** The four field probes, in source order. *)
Definition primary (name website phone facebook : option string)
  : mstate :=
  name_probe name
    (facebook_probe facebook
       (phone_probe phone
          (domain_probe website initial))).

Definition given (key : string) (x : option string)
  : list (string * string) :=
  if truthy x then
    match x with Some v => [(key, v)] | None => [] end
  else [].

Definition fallback_fields (name website phone facebook : option string)
  : list string :=
  ((if truthy name
    then ["company_commercial_name^3"; "company_legal_name^2";
          "company_all_names"]
    else [])
   ++ (if truthy website then ["website"] else [])
   ++ (if truthy phone then ["phones"] else [])
   ++ (if truthy facebook then ["facebook_links"] else []))%list.

Definition query_parts (name website phone facebook : option string)
  : list (string * string) :=
  (given "name" name ++ given "website" website
   ++ given "phone" phone ++ given "facebook" facebook)%list.

Definition nonempty {T : Type} (l : list T) : bool :=
  match l with [] => false | _ :: _ => true end.

Definition fallback_query (name website phone facebook : option string)
  : es_query :=
  MultiMatch (join " " (map snd (query_parts name website phone facebook)))
             (fallback_fields name website phone facebook).

(** [if not match_scores: ... if fields and query_parts: ...] *)
Definition fallback (name website phone facebook : option string)
           (st : mstate) : mstate :=
  if negb (nonempty (match_scores st)) then
    if nonempty (fallback_fields name website phone facebook)
       && nonempty (query_parts name website phone facebook)
    then probe (fallback_query name website phone facebook) 10
               (fun h => num_div A (_score h) (num_of_nat A 10)) st
    else st
  else st.

(** The state when the selection starts. *)
Definition gathered (name website phone facebook : option string)
  : mstate :=
  fallback name website phone facebook
           (primary name website phone facebook).

(** [# Get best match] to the end of the function.  The index
    [match_scores[best_match_id]] cannot raise, [best_match_id] being a
    key of the dict. *)
Definition select (st : mstate) : option CompanyRecord :=
  match match_scores st with
  | [] => None
  | first :: others =>
      let best_match_id := fst (max_by_value first others) in
      match
        find (fun result => String.eqb (company_id result) best_match_id)
             (results st)
      with
      | Some best_match =>
          match dict_index (match_scores st) best_match_id with
          | Some total => Some (with_score best_match total)
          | None => None
          end
      | None => None
      end
  end.

(** [CompanyProfileMatcher.match_company]: the value returned and the
    queries sent to the index, in order. *)
Definition match_company (name website phone facebook : option string)
  : option CompanyRecord * list (es_query * nat) :=
  let st := gathered name website phone facebook in
  (select st, issued st).

End WithBackend.
End Arithmetic.

Arguments CompanyRecord : clear implicits.
Arguments hit : clear implicits.
Arguments backend : clear implicits.
Arguments dict : clear implicits.
Arguments mstate : clear implicits.

End Matcher.

(** ** The selection rule in the words of the specification

    The candidates are the scored hits of the probes that run, earlier
    probes first; the score of a company is the sum of the contributions of
    its hits; companies are ordered by the first hit that names them. *)
Module Selection.
Import PyStr Normalizers Numbers Matcher.

Section Arithmetic.
Context {A : arith}.

Definition scored : Type := list (CompanyRecord A * num A).

(** The sum, in candidate order, of the contributions made to [id]. *)
Definition total_from (start : num A) (cands : scored) (id : string)
  : num A :=
  fold_left
    (fun acc sc =>
       if String.eqb (company_id (fst sc)) id then num_add A acc (snd sc)
       else acc)
    cands start.

Definition total (cands : scored) (id : string) : num A :=
  total_from (num_of_nat A 0) cands id.

Definition mem (id : string) (ids : list string) : bool :=
  existsb (String.eqb id) ids.

(** The company ids of [cands] that are not in [seen], each once, in the
    order of their first hit. *)
Fixpoint first_seen (seen : list string) (cands : scored) : list string :=
  match cands with
  | [] => []
  | sc :: cands' =>
      let id := company_id (fst sc) in
      if mem id seen then first_seen seen cands'
      else id :: first_seen (seen ++ [id]) cands'
  end.

Definition candidate_ids (cands : scored) : list string :=
  first_seen [] cands.

(** The first candidate record that carries [id]. *)
Definition record_of (cands : scored) (id : string)
  : option (CompanyRecord A) :=
  find (fun r => String.eqb (company_id r) id) (map fst cands).

(** [best] is the company of greatest total, the earliest one among
    equals: every company before it has a smaller total, none after it a
    greater one. *)
Definition is_best (cands : scored) (best : string) : Prop :=
  exists before after,
    candidate_ids cands = (before ++ best :: after)%list
    /\ (forall id, In id before ->
                   num_ltb A (total cands id) (total cands best) = true)
    /\ (forall id, In id after ->
                   num_leb A (total cands id) (total cands best) = true).

(** [best] is the first item of greatest value in [items]. *)
Definition first_greatest (items : dict A) (best : string * num A) : Prop :=
  exists before after,
    items = (before ++ best :: after)%list
    /\ (forall x, In x before -> num_ltb A (snd x) (snd best) = true)
    /\ (forall x, In x after -> num_leb A (snd x) (snd best) = true).

(** The loop body of the probes, run over a list of scored hits. *)
Definition absorb (cands : scored) (st : mstate A) : mstate A :=
  fold_left (fun st sc => add_hit st (fst sc) (snd sc)) cands st.

(** Its effect on the dict alone. *)
Definition dict_absorb (d : dict A) (cands : scored) : dict A :=
  fold_left
    (fun d sc =>
       dict_set d (company_id (fst sc))
                (num_add A (dict_get d (company_id (fst sc)) (num_of_nat A 0))
                         (snd sc)))
    cands d.

Definition keys (d : dict A) : list string := map fst d.

(** The state with one more query in its log. *)
Definition logged (q : es_query) (size : nat) (st : mstate A) : mstate A :=
  mkState (match_scores st) (results st) (issued st ++ [(q, size)]).

(** [st'] is [st] after the loop body ran over [cands] and the queries
    [calls] were sent. *)
Definition extends (st st' : mstate A) (cands : scored)
           (calls : list (es_query * nat)) : Prop :=
  match_scores st' = dict_absorb (match_scores st) cands
  /\ results st' = (results st ++ map fst cands)%list
  /\ issued st' = (issued st ++ calls)%list.

Definition is_multi_match (call : es_query * nat) : bool :=
  match fst call with MultiMatch _ _ => true | _ => false end.

Section Candidates.
Variable B : backend A.

Definition hits_of (q : es_query) (size : nat) (contribution : hit A -> num A)
  : scored :=
  map (fun h => (_source h, contribution h)) (es_search B q size).

Definition domain_candidates (website : option string) : scored :=
  match _extract_domain B website with
  | Some d =>
      if truthy website && truthy (Some d)
      then hits_of (Term "domain" d) 5 (fun _ => num_of_nat A 10) else []
  | None => []
  end.

Definition phone_candidates (phone : option string) : scored :=
  match _normalize_phone phone with
  | Some p =>
      if truthy phone && truthy (Some p)
      then hits_of (Match "phones_normalized" p) 5 (fun _ => num_of_nat A 8)
      else []
  | None => []
  end.

Definition facebook_candidates (facebook : option string) : scored :=
  match _normalize_facebook_url facebook with
  | Some f =>
      if truthy facebook && truthy (Some f)
      then hits_of (Match "facebook_links_normalized" f) 5
                   (fun _ => num_of_nat A 6)
      else []
  | None => []
  end.

Definition name_candidates (name : option string) : scored :=
  match name with
  | Some n =>
      if truthy name then hits_of (name_query n) 10 (name_score B n) else []
  | None => []
  end.

Definition primary_candidates (name website phone facebook : option string)
  : scored :=
  (domain_candidates website ++ phone_candidates phone
   ++ facebook_candidates facebook ++ name_candidates name)%list.

Definition some_field (name website phone facebook : option string)
  : bool :=
  truthy name || truthy website || truthy phone || truthy facebook.

Definition fallback_candidates (name website phone facebook : option string)
  : scored :=
  if some_field name website phone facebook
  then hits_of (fallback_query name website phone facebook) 10
               (fun h => num_div A (_score h) (num_of_nat A 10))
  else [].

Definition candidates (name website phone facebook : option string)
  : scored :=
  match primary_candidates name website phone facebook with
  | [] => fallback_candidates name website phone facebook
  | c :: cs => c :: cs
  end.

(** The fallback probe ran: a multi-match query was sent. *)
Definition fallback_ran (name website phone facebook : option string)
  : bool :=
  existsb is_multi_match
          (snd (match_company B name website phone facebook)).

End Candidates.
End Arithmetic.

Arguments scored : clear implicits.

End Selection.

(** ** A small index and stand-ins for the libraries, for worked examples *)
Module Demo.
Import PyStr Numbers Matcher.

Definition min3 (a b c : nat) : nat := Nat.min a (Nat.min b c).

(** The edit distance of Levenshtein, by its recurrence. *)
Fixpoint levenshtein (s : string) : string -> nat :=
  match s with
  | EmptyString => fun t => String.length t
  | String a s' =>
      fix inner (t : string) : nat :=
        match t with
        | EmptyString => S (String.length s')
        | String b t' =>
            min3 (S (levenshtein s' t))
                 (S (inner t'))
                 (levenshtein s' t' + (if Ascii.eqb a b then 0 else 1))
        end
  end.

Fixpoint until_slash (s : string) : string :=
  match s with
  | EmptyString => EmptyString
  | String c s' => if Ascii.eqb c "/" then EmptyString
                   else String c (until_slash s')
  end.

Fixpoint split_dot (s : string) : string * string :=
  match s with
  | EmptyString => (EmptyString, EmptyString)
  | String c s' =>
      if Ascii.eqb c "." then (EmptyString, s')
      else let (a, b) := split_dot s' in (String c a, b)
  end.

Definition host (url : string) : string :=
  let h := until_slash (Re.sub_at_start Normalizers.scheme_www url) in
  if startswith "www." h then drop 4 h else h.

Definition acme : CompanyRecord exact :=
  mkRecord "0" "https://acme.com" "acme.com"
           (Some "Acme Inc.") (Some "Acme Incorporated")
           [("phones_normalized", ["4155550123"]);
            ("facebook_links_normalized", ["acmeco"])] None.

Definition apex : CompanyRecord exact :=
  mkRecord "1" "https://apex.io" "apex.io"
           (Some "Apex") (Some "Apex Ltd")
           [("phones_normalized", ["4155550123"; "6285559999"])] None.

(** A document whose searchable alias shares nothing with its names. *)
Definition qrst : CompanyRecord exact :=
  mkRecord "2" "https://qrst.org" "qrst.org"
           (Some "qrst") (Some "qrst")
           [("company_all_names", ["ab"])] None.

(** A document written by the one-by-one fallback of the indexer. *)
Definition bare : CompanyRecord exact :=
  mkRecord "3" "https://bare.net" "bare.net" None None [] None.

Definition documents : list (CompanyRecord exact) := [acme; apex; qrst; bare].

Definition values (field : string) (r : CompanyRecord exact)
  : list string :=
  if String.eqb field "domain" then [domain r]
  else if String.eqb field "company_commercial_name"
  then match company_commercial_name r with Some v => [v] | None => [] end
  else if String.eqb field "company_legal_name"
  then match company_legal_name r with Some v => [v] | None => [] end
  else flat_map (fun kv => if String.eqb (fst kv) field then snd kv else [])
                (other_fields r).

Definition exactly (field value : string) (r : CompanyRecord exact)
  : bool :=
  existsb (String.eqb value) (values field r).

Definition nearly (field value : string) (r : CompanyRecord exact)
  : bool :=
  existsb (fun v => (levenshtein (lower value) (lower v) <=? 1)%nat)
          (values field r).

Definition clause (q : es_query) (r : CompanyRecord exact) : bool :=
  match q with
  | Term f v => exactly f v r
  | Match f v => exactly f v r
  | MatchFuzzy f v => nearly f v r
  | _ => false
  end.

Definition satisfies (q : es_query) (r : CompanyRecord exact) : bool :=
  match q with
  | BoolShould clauses => existsb (fun c => clause c r) clauses
  | MultiMatch _ _ => false
  | _ => clause q r
  end.

Definition search (q : es_query) (size : nat) : list (hit exact) :=
  firstn size
         (map (fun r => mkHit (A:=exact) r 1%Q)
              (List.filter (satisfies q) documents)).

Definition index : backend exact :=
  mkBackend search levenshtein
            (fun url => Some (split_dot (host url)))
            (fun url => Some (host url)).

(** An index that answers every query with the same two hits. *)
Definition chatty : backend exact :=
  mkBackend (A:=exact)
            (fun _ _ => [mkHit (A:=exact) apex (7 # 2)%Q;
                         mkHit (A:=exact) acme 35%Q])
            levenshtein (fun _ => None) (fun _ => None).

(** The text of the pipeline scenario for phones. *)
Definition sample : string := "Call +1 415-555-0123 or (628) 555-9999".

(** As [reverse], a completion order for the executor. *)
Definition last_first (fs : list Scraper.future) : list Scraper.future :=
  rev fs.

Definition row_ok : Scraper.ScrapedRow :=
  Scraper.mkRow "http://acme.com" (Some "acme.com") "success"
                ["+14155550123"] [] [] None 0%Z.

(** A task that calls [sys.exit] on the second url it is given. *)
Definition exiting (i : nat) (url : string) : Scraper.outcome :=
  if (i =? 1)%nat then Scraper.Escaped "1" else Scraper.Returned row_ok.

(** A task that raises on the second url it is given. *)
Definition flaky (i : nat) (url : string) : Scraper.outcome :=
  if (i =? 1)%nat then Scraper.Raised "boom" else Scraper.Returned row_ok.

End Demo.

(** ** The queries [match_company] sends, probe by probe *)
Module QueryLog.
Import PyStr Normalizers Numbers Matcher Selection.

Section Calls.
Context {A : arith}.
Variable B : backend A.

Definition domain_calls (website : option string) : list (es_query * nat) :=
  match _extract_domain B website with
  | Some d =>
      if truthy website && truthy (Some d)
      then [(Term "domain" d, 5%nat)] else []
  | None => []
  end.

Definition phone_calls (phone : option string) : list (es_query * nat) :=
  match _normalize_phone phone with
  | Some p =>
      if truthy phone && truthy (Some p)
      then [(Match "phones_normalized" p, 5%nat)] else []
  | None => []
  end.

Definition facebook_calls (facebook : option string)
  : list (es_query * nat) :=
  match _normalize_facebook_url facebook with
  | Some f =>
      if truthy facebook && truthy (Some f)
      then [(Match "facebook_links_normalized" f, 5%nat)] else []
  | None => []
  end.

Definition name_calls (name : option string) : list (es_query * nat) :=
  match name with
  | Some n => if truthy name then [(name_query n, 10%nat)] else []
  | None => []
  end.

Definition fallback_calls (name website phone facebook : option string)
  : list (es_query * nat) :=
  match primary_candidates B name website phone facebook with
  | [] =>
      if some_field name website phone facebook
      then [(fallback_query name website phone facebook, 10%nat)] else []
  | _ :: _ => []
  end.

Definition expected_calls (name website phone facebook : option string)
  : list (es_query * nat) :=
  (domain_calls website ++ phone_calls phone ++ facebook_calls facebook
   ++ name_calls name ++ fallback_calls name website phone facebook)%list.

End Calls.
End QueryLog.

(** ** Patterns with alternatives

    [Re.regex] extended with the alternation and the grouping that the
    social-media and address patterns use; matching is the same
    backtracking search. *)
Module ReAlt.
Import PyStr Re.

Inductive xregex : Type :=
| Plain (r : regex)            (* a pattern without alternatives *)
| Seq (a b : xregex)           (* a b *)
| Alt (a b : xregex)           (* a|b, [a] tried first *)
| Group (a : xregex).          (* ( a ), group 1 *)

Fixpoint xrun {R : Type} (r : xregex) (s : string) (g : option string)
         (k : string -> option string -> option R) : option R :=
  match r with
  | Plain r0 => run r0 s g k
  | Seq a b => xrun a s g (fun s' g' => xrun b s' g' k)
  | Alt a b =>
      match xrun a s g k with
      | Some x => Some x
      | None => xrun b s g k
      end
  | Group a =>
      xrun a s g
           (fun s' _ => k s' (Some (take (String.length s - String.length s') s)))
  end.

(** A match of [r] at the head of [s]. *)
Definition xmatch (r : xregex) (s : string) : option match_object :=
  xrun r s None
       (fun s' g =>
          Some (MatchObject (take (String.length s - String.length s') s) g s')).

(** [pattern.findall(s)] for a pattern with one group. *)
Fixpoint xfindall_from (fuel : nat) (r : xregex) (s : string) : list string :=
  match fuel with
  | O => []
  | S fuel' =>
      match xmatch r s with
      | Some m =>
          match whole m, s with
          | EmptyString, String _ s' => captured m :: xfindall_from fuel' r s'
          | EmptyString, EmptyString => [captured m]
          | _, _ => captured m :: xfindall_from fuel' r (rest m)
          end
      | None =>
          match s with
          | String _ s' => xfindall_from fuel' r s'
          | EmptyString => []
          end
      end
  end.

Definition xfindall (r : xregex) (s : string) : list string :=
  xfindall_from (S (String.length s)) r s.

(** The literal word [w]. *)
Definition lit (w : string) : xregex := Plain (word w Eps).

(** [(?:w1|w2|...)] *)
Fixpoint any_of (w : string) (ws : list string) : xregex :=
  match ws with
  | [] => lit w
  | w' :: ws' => Alt (lit w) (any_of w' ws')
  end.

End ReAlt.

(** ** The other extractors of [web_scraper.py] *)
Module Extractors.
Import PyStr Re ReAlt.

(** [[A-Za-z0-9\.\_\-]], the class of the facebook, instagram, linkedin
    and youtube patterns; it is the class of the normalizer's patterns. *)
Definition link_char : ascii -> bool := Normalizers.handle_char.

(** [[A-Za-z0-9\_]] *)
Definition twitter_char (c : ascii) : bool :=
  between 65 90 c || between 97 122 c || is_digit c || Ascii.eqb c "_".

(** [(facebook\.com/[A-Za-z0-9\.\_\-]+)] *)
Definition facebook_pattern : xregex :=
  Group (Plain (word "facebook.com/" (plus link_char))).

(** [(twitter\.com/[A-Za-z0-9\_]+)] *)
Definition twitter_pattern : xregex :=
  Group (Plain (word "twitter.com/" (plus twitter_char))).

(** [(instagram\.com/[A-Za-z0-9\.\_\-]+)] *)
Definition instagram_pattern : xregex :=
  Group (Plain (word "instagram.com/" (plus link_char))).

(** [(linkedin\.com/(?:company|in)/[A-Za-z0-9\-\_\.]+)] *)
Definition linkedin_pattern : xregex :=
  Group (Seq (lit "linkedin.com/")
             (Seq (any_of "company" ["in"])
                  (Plain (Cat (Lit "/") (plus link_char))))).

(** [(youtube\.com/(?:user|channel)/[A-Za-z0-9\-\_\.]+)] *)
Definition youtube_pattern : xregex :=
  Group (Seq (lit "youtube.com/")
             (Seq (any_of "user" ["channel"])
                  (Plain (Cat (Lit "/") (plus link_char))))).

(** [self.social_media_patterns], in the order of the dict. *)
Definition social_media_patterns : list (string * xregex) :=
  [("facebook", facebook_pattern); ("twitter", twitter_pattern);
   ("instagram", instagram_pattern); ("linkedin", linkedin_pattern);
   ("youtube", youtube_pattern)].

(** The loop of [extract_social_media]: a platform gets an entry when its
    pattern matched at least once. *)
Fixpoint social_entries (patterns : list (string * xregex)) (text : string)
  : list (string * gset string) :=
  match patterns with
  | [] => []
  | (platform, pattern) :: patterns' =>
      let matches := xfindall pattern text in
      match matches with
      | [] => social_entries patterns' text
      | _ :: _ =>
          (platform, list_to_set matches) :: social_entries patterns' text
      end
  end.

(** [CompanyScraper.extract_social_media]; each value is the set that the
    source turns into a list. *)
Definition extract_social_media (text : string)
  : list (string * gset string) :=
  if negb (truthy (Some text)) then []
  else social_entries social_media_patterns text.

Definition is_letter (c : ascii) : bool :=
  between 65 90 c || between 97 122 c.

(** [[A-Za-z\s\,\.]] *)
Definition street_char (c : ascii) : bool :=
  is_letter c || is_space c || Ascii.eqb c "," || Ascii.eqb c ".".

(** [[\,\s\.]] *)
Definition gap_char (c : ascii) : bool :=
  Ascii.eqb c "," || is_space c || Ascii.eqb c ".".

(** [[A-Za-z\s]] *)
Definition city_char (c : ascii) : bool := is_letter c || is_space c.

(** [(\d+\s+[A-Za-z\s\,\.]+(?:Avenue|Lane|Road|Boulevard|Drive|Street|Ave|Ln|Rd|Blvd|Dr|St)[\,\s\.]+[A-Za-z\s]+\,\s*[A-Z]{2}\s*\d{5})] *)
Definition address_pattern : xregex :=
  Group
    (Seq (Plain (Cat (plus is_digit) (Cat (plus is_space) (plus street_char))))
         (Seq (any_of "Avenue"
                      ["Lane"; "Road"; "Boulevard"; "Drive"; "Street"; "Ave";
                       "Ln"; "Rd"; "Blvd"; "Dr"; "St"])
              (Plain
                 (Cat (plus gap_char)
                      (Cat (plus city_char)
                           (Cat (Lit ",")
                                (Cat (star is_space)
                                     (Cat (Rep (between 65 90) 2 (Some 2))
                                          (Cat (star is_space)
                                               (Rep is_digit 5 (Some 5))))))))))).

(** [CompanyScraper.extract_address] *)
Definition extract_address (text : string) : gset string :=
  if negb (truthy (Some text)) then ∅
  else list_to_set (xfindall address_pattern text).

End Extractors.

(** ** The fetcher of [web_scraper.py] *)
Module Fetcher.
Import PyStr Scraper Extractors.

(** What one scrape does besides computing: the fetches it starts and the
    pauses it takes. *)
Inductive event : Type :=
| Requests (attempt : nat) (url : string)   (* [_requests_strategy(url)] *)
| Chrome (attempt : nat) (url : string)     (* [_chrome_strategy(url)] *)
| Sleep (seconds : Z).                      (* [time.sleep(seconds)] *)
(** One call of [_requests_strategy] sends one to three requests: with the
    short timeout, with the full one after a timeout or a connection
    error, and without verification after an SSL error. *)

(** The world of one scrape.  Both strategies catch their own exceptions
    and answer [None] for them. *)
Record web : Type := mkWeb {
  (** what [_requests_strategy] returns at an attempt: the body or [None] *)
  requests_body : nat -> string -> option string;
  (** whether the browser starts at an attempt: [webdriver.Chrome(...)] and
      [set_page_load_timeout] do not raise, so that the pause is reached
      (an exception of [driver.get] is caught before it) *)
  chrome_starts : nat -> string -> bool;
  (** [driver.page_source] at an attempt, [None] when reading it raises *)
  chrome_source : nat -> string -> option string;
  (** [urlparse(url).netloc], or the text of the exception it raises *)
  netloc : string -> string + string;
  (** [BeautifulSoup(page, 'html.parser').get_text()], or the text of the
      exception raised while parsing *)
  get_text : string -> string + string;
  (** the order in which [list(set(...))] lists a set *)
  listing : gset string -> list string
}.

Section Scrape.
Variable W : web.
(** [self.retry_count] *)
Variable retry_count : Z.
(** [self.timeout], in whole seconds *)
Variable timeout : Z.

(** [min(2, self.timeout // 5)], the pause of the browser tier *)
Definition settle : Z := Z.min 2 (timeout / 5).

(** [CompanyScraper._chrome_strategy], with the pause it takes.  Every
    exception is caught and answered with [None]: the one of a browser
    that does not start, before the pause; the [ValueError] of
    [time.sleep] for a negative length; the one of [driver.page_source],
    after the pause.  The page source counts when it has more than 1000
    characters. *)
Definition _chrome_strategy (attempt : nat) (url : string)
  : option string * list event :=
  if chrome_starts W attempt url then
    if (settle <? 0)%Z then (None, [])
    else
      match chrome_source W attempt url with
      | Some page_source =>
          (if truthy (Some page_source)
              && (1000 <? String.length page_source)%nat
           then Some page_source else None,
           [Sleep settle])
      | None => (None, [Sleep settle])
      end
  else (None, []).

(** [CompanyScraper.get_page_content], with the fetches it starts and the
    pause of the browser tier. *)
Definition get_page_content (attempt : nat) (url : string)
  : option string * list event :=
  let content := requests_body W attempt url in
  let browser :=
    let (page_source, paused) := _chrome_strategy attempt url in
    (page_source,
     ([Requests attempt url; Chrome attempt url] ++ paused)%list) in
  match content with
  | Some body =>
      if truthy content && (700 <? String.length body)%nat
      then (content, [Requests attempt url])
      else browser
  | None => browser
  end.

(** [if not url.startswith(('http://', 'https://')): url = 'http://' + url] *)
Definition with_scheme (url : string) : string :=
  if startswith "http://" url || startswith "https://" url
  then url else "http://" ++ url.

(** The row of a successful attempt. *)
Definition success_row (url domain page_content text_content : string)
           (retries : nat) : ScrapedRow :=
  {| website := url;
     domain := Some domain;
     status := "success";
     phones := listing W (extract_phones text_content);
     addresses := listing W (extract_address text_content);
     social_links :=
       map (fun entry => (fst entry ++ "_links", listing W (snd entry)))
           (extract_social_media page_content);
     error := None;
     retries := Z.of_nat retries |}.

(** The row after the loop: [retries - 1] attempts were retries. *)
Definition gave_up (url : string) (last_error : option string) (retries : nat)
  : ScrapedRow :=
  {| website := url; domain := None; status := "failed";
     phones := []; addresses := []; social_links := [];
     error := last_error; retries := (Z.of_nat retries - 1)%Z |}.

(** The [except Exception as e] branch: the pause that follows. *)
Definition backoff (retries : nat) : list event :=
  if (Z.of_nat retries <=? retry_count)%Z
  then [Sleep (2 * Z.of_nat retries)] else [].

(** The [while retries <= self.retry_count] loop; [fuel] bounds the number
    of rounds. *)
Fixpoint attempts (fuel : nat) (url : string) (retries : nat)
         (last_error : option string) (log : list event)
  : ScrapedRow * list event :=
  if (Z.of_nat retries <=? retry_count)%Z then
    match fuel with
    | O => (gave_up url last_error retries, log)
    | S fuel' =>
        let url := with_scheme url in
        match netloc W url with
        | inr e =>
            attempts fuel' url (S retries) (Some e)
                     (log ++ backoff (S retries))
        | inl domain =>
            let (page_content, fetched) := get_page_content retries url in
            let no_content :=
              attempts fuel' url (S retries)
                       (Some "Failed to retrieve page content")
                       (log ++ fetched ++ [Sleep 2]) in
            match page_content with
            | None => no_content
            | Some content =>
                if negb (truthy page_content) then no_content
                else
                  match get_text W content with
                  | inr e =>
                      attempts fuel' url (S retries) (Some e)
                               (log ++ fetched ++ backoff (S retries))
                  | inl text_content =>
                      (success_row url domain content text_content retries,
                       (log ++ fetched)%list)
                  end
            end
        end
    end
  else (gave_up url last_error retries, log).

(** [CompanyScraper.scrape_website]: the row and what was done for it. *)
Definition scrape_website (url : string) : ScrapedRow * list event :=
  attempts (S (Z.to_nat (retry_count + 1))) url 0 None [].

Definition is_requests (e : event) : bool :=
  match e with Requests _ _ => true | _ => false end.

Definition is_chrome (e : event) : bool :=
  match e with Chrome _ _ => true | _ => false end.

(** The seconds slept in a log. *)
Definition slept (log : list event) : Z :=
  fold_right (fun e acc => match e with Sleep s => (s + acc)%Z | _ => acc end)
             0%Z log.

Definition has_scheme (url : string) : bool :=
  startswith "http://" url || startswith "https://" url.

Definition requests_in (log : list event) : nat :=
  List.length (List.filter is_requests log).

Definition chrome_in (log : list event) : nat :=
  List.length (List.filter is_chrome log).

(** The longest pause between two attempts; the browser tier adds at most
    2 seconds to each attempt. *)
Definition worst_pause : Z := Z.max 2 (2 * retry_count).

(** What the loop did from round [retries] on, when it ended with a
    success at round [k]. *)
Definition succeeded (url : string) (retries : nat) (row : ScrapedRow)
           (extra : list event) : Prop :=
  exists k domain content text,
    (retries <= k)%nat /\ (Z.of_nat k <= retry_count)%Z
    /\ row = success_row (with_scheme url) domain content text k
    /\ (requests_in extra <= k - retries + 1)%nat
    /\ (chrome_in extra <= requests_in extra)%nat
    /\ (0 <= slept extra
         <= Z.of_nat (k - retries) * worst_pause
            + Z.of_nat (k - retries + 1) * 2)%Z.

(** The same when it ran out of attempts. *)
Definition exhausted (url : string) (retries : nat)
           (last_error : option string) (row : ScrapedRow)
           (extra : list event) : Prop :=
  exists r_end err,
    Z.of_nat r_end = Z.max (Z.of_nat retries) (retry_count + 1)
    /\ row = gave_up (if (Z.of_nat retries <=? retry_count)%Z
                      then with_scheme url else url) err r_end
    /\ ((Z.of_nat retries <= retry_count)%Z -> err <> None)
    /\ ((retry_count < Z.of_nat retries)%Z -> err = last_error /\ extra = [])
    /\ (requests_in extra <= r_end - retries)%nat
    /\ (chrome_in extra <= requests_in extra)%nat
    /\ (0 <= slept extra
         <= Z.of_nat (r_end - retries) * (worst_pause + 2))%Z.

End Scrape.

(** A site that answers a short page twice and a full page the third
    time; the browser starts and shows nothing. *)
Definition slow_site : web :=
  mkWeb (fun attempt _ =>
           if (attempt <? 2)%nat then Some "<html></html>"
           else Some (String.concat "" (repeat "Call 628 555 9999. " 40)))
        (fun _ _ => true)
        (fun _ _ => None)
        (fun url => inl (drop 7 url))
        (fun page => inl page)
        (fun X => elements X).

End Fetcher.

(** ** The service adapter ([api.py]) *)
Module Api.
Import PyStr Numbers Matcher.

(** A JSON value as [request.get_json()] returns it.  A number carries
    only what the routes look at: whether it is zero. *)
Inductive json : Type :=
| JNull
| JBool (b : bool)
| JNumber (nonzero : bool)
| JString (s : string)
| JArray (items : list json)
| JObject (members : list (string * json)).

(** Python truthiness of the value parsed from a JSON text. *)
Definition json_truthy (v : json) : bool :=
  match v with
  | JNull => false
  | JBool b => b
  | JNumber nonzero => nonzero
  | JString s => truthy (Some s)
  | JArray items => match items with [] => false | _ :: _ => true end
  | JObject members => match members with [] => false | _ :: _ => true end
  end.

(** [data.get(key)] on the dict parsed from a JSON object, in which a
    later member replaces an earlier one of the same name; [None] is
    [JNull]. *)
Definition json_get (members : list (string * json)) (key : string) : json :=
  fold_left (fun found member =>
               if String.eqb (fst member) key then snd member else found)
            members JNull.

(** A value as an argument of [match_company]: the text of a string;
    [None] for [null] and for the other falsy values, which every test of
    [match_company] treats as it treats [None]; and nothing for a truthy
    value that is not a string. *)
Definition as_text (v : json) : option (option string) :=
  match v with
  | JString s => Some (Some s)
  | _ => if json_truthy v then None else Some None
  end.

(** The four values a request object holds when each is a string or
    [None], as [row.get(...)] returns them for a row of [csv.DictReader]. *)
Record fields : Type := mkFields {
  f_name : option string;
  f_website : option string;
  f_phone : option string;
  f_facebook : option string
}.

(** The four values of a JSON object, when each is a string or falsy. *)
Definition request_fields (members : list (string * json)) : option fields :=
  match as_text (json_get members "name"),
        as_text (json_get members "website"),
        as_text (json_get members "phone"),
        as_text (json_get members "facebook") with
  | Some name, Some website, Some phone, Some facebook =>
      Some (mkFields name website phone facebook)
  | _, _, _, _ => None
  end.

(** [any([name, website, phone, facebook])] on the values of an object *)
Definition any_truthy (members : list (string * json)) : bool :=
  json_truthy (json_get members "name")
  || json_truthy (json_get members "website")
  || json_truthy (json_get members "phone")
  || json_truthy (json_get members "facebook").

(** A truthy value that is not a string. *)
Definition odd (v : json) : bool :=
  match as_text v with None => true | Some _ => false end.

(** An item of the bulk route on which the loop raises whatever the index
    answers: it is not an object ([company_data.get] raises), or its
    website, phone or facebook value is a truthy value that is not a
    string (the normalizers raise on it). *)
Definition crashes (item : json) : bool :=
  match item with
  | JObject members =>
      odd (json_get members "website") || odd (json_get members "phone")
      || odd (json_get members "facebook")
  | _ => true
  end.

(** The items of a bulk request, when each is an object whose four values
    are strings or falsy. *)
Fixpoint typed_items (items : list json) : option (list fields) :=
  match items with
  | [] => Some []
  | JObject members :: items' =>
      match request_fields members, typed_items items' with
      | Some q, Some qs => Some (q :: qs)
      | _, _ => None
      end
  | _ :: _ => None
  end.

(** The upload of the csv route: the name of the file, the rows that
    [csv.DictReader] yields, and the text of the exception that ends the
    reading, if one does. *)
Record upload : Type := mkUpload {
  filename : string;
  rows : list fields;
  broken : option string
}.

Section Answers.
Context {A : arith}.

(** One line of the results of the csv route and of the bulk route. *)
Definition line : Type := (fields * option (CompanyRecord A))%type.
Definition bulk_line : Type := (json * option (CompanyRecord A))%type.

Inductive body : Type :=
| Failure (message : string)            (* status "error" *)
| NotFound (message : string)           (* status "not_found" *)
| Found (record : CompanyRecord A)      (* status "success", one match *)
| BulkReport (match_count total_count : nat) (results : list bulk_line)
| CsvReport (match_rate : string) (matched_count total_count : nat)
            (results : list line)
| ServerError.       (* the page of Flask for an exception of the view *)

Record response : Type := mkResponse {
  code : nat;
  payload : body
}.

(** How a call of [match_company] ends: it returns, a record or [None],
    or an exception leaves it. *)
Inductive ending : Type :=
| Answered (found : option (CompanyRecord A))
| Crashed.

End Answers.

Arguments line : clear implicits.
Arguments bulk_line : clear implicits.
Arguments body : clear implicits.
Arguments response : clear implicits.
Arguments ending : clear implicits.

(** [s.endswith(suffix)] *)
Definition endswith (suffix s : string) : bool :=
  (String.length suffix <=? String.length s)%nat
  && String.eqb (drop (String.length s - String.length suffix) s) suffix.

(** [any([name, website, phone, facebook])] *)
Definition any_field (q : fields) : bool :=
  truthy (f_name q) || truthy (f_website q)
  || truthy (f_phone q) || truthy (f_facebook q).

Section Routes.
Context {A : arith}.
Variable B : backend A.
(** [f"{(matched_count / len(results) * 100):.2f}%"] for a positive
    length *)
Variable format_rate : nat -> nat -> string.
(** [match_company] for a name that is a truthy value but not a string,
    the other three being strings or [None]: the name goes into the query
    as it is, and what follows depends on what the index makes of it.
    The embedding of [match_company] is for strings; this case is left
    open. *)
Variable untyped_name :
  json -> option string -> option string -> option string ->
  ending A * list (es_query * nat).

Definition ask (q : fields)
  : option (CompanyRecord A) * list (es_query * nat) :=
  match_company B (f_name q) (f_website q) (f_phone q) (f_facebook q).

(** [matcher.match_company(name, website, phone, facebook)] on values
    taken from JSON, with the queries sent before it ends.  A truthy
    website that is not a string raises in [_extract_domain]
    ([url.startswith]), before any query; such a phone raises in
    [_normalize_phone] ([re.sub]), after the domain probe; such a
    facebook value in [_normalize_facebook_url] ([url.lower]), after the
    phone probe. *)
Definition match_company_json (name website phone facebook : json)
  : ending A * list (es_query * nat) :=
  match as_text website with
  | None => (Crashed, [])
  | Some website' =>
      match as_text phone with
      | None => (Crashed, issued (domain_probe B website' initial))
      | Some phone' =>
          match as_text facebook with
          | None =>
              (Crashed,
               issued (phone_probe B phone'
                                   (domain_probe B website' initial)))
          | Some facebook' =>
              match as_text name with
              | None => untyped_name name website' phone' facebook'
              | Some name' =>
                  let (found, sent) :=
                    match_company B name' website' phone' facebook' in
                  (Answered found, sent)
              end
          end
      end
  end.

(** [match_company_api], with the queries sent to the index.  A body that
    is not an object has no [get]; an exception that leaves the view is
    answered by Flask with a 500. *)
Definition match_company_api (data : json)
  : response A * list (es_query * nat) :=
  match data with
  | JObject members =>
      if negb (any_truthy members) then
        (mkResponse 400
           (Failure "At least one of name, website, phone, or facebook must be provided"),
         [])
      else
        let (ended, sent) :=
          match_company_json (json_get members "name")
                             (json_get members "website")
                             (json_get members "phone")
                             (json_get members "facebook") in
        match ended with
        | Answered (Some record) => (mkResponse 200 (Found record), sent)
        | Answered None =>
            (mkResponse 404 (NotFound "No matching company profile found"),
             sent)
        | Crashed => (mkResponse 500 ServerError, sent)
        end
  | _ => (mkResponse 500 ServerError, [])
  end.

(** The loop of [process_csv_file]. *)
Fixpoint match_all (items : list fields)
  : list (line A) * list (es_query * nat) :=
  match items with
  | [] => ([], [])
  | q :: items' =>
      let (found, sent) := ask q in
      let (results, sent') := match_all items' in
      ((q, found) :: results, (sent ++ sent')%list)
  end.

(** The loop of [bulk_match_companies]: the results, or nothing when an
    exception ends it. *)
Fixpoint bulk_loop (items : list json)
  : option (list (bulk_line A)) * list (es_query * nat) :=
  match items with
  | [] => (Some [], [])
  | JObject members :: items' =>
      let (ended, sent) :=
        match_company_json (json_get members "name")
                           (json_get members "website")
                           (json_get members "phone")
                           (json_get members "facebook") in
      match ended with
      | Crashed => (None, sent)
      | Answered found =>
          let (results, sent') := bulk_loop items' in
          (match results with
           | Some results => Some ((JObject members, found) :: results)
           | None => None
           end,
           (sent ++ sent')%list)
      end
  | _ :: _ => (None, [])
  end.

(** [sum(1 for r in results if r['match'])] *)
Definition matched {I : Type} (results : list (I * option (CompanyRecord A)))
  : nat :=
  List.length (List.filter (fun r => match snd r with
                                     | Some _ => true
                                     | None => false
                                     end) results).

(** [bulk_match_companies] *)
Definition bulk_match_companies (data : json)
  : response A * list (es_query * nat) :=
  match data with
  | JArray items =>
      let (results, sent) := bulk_loop items in
      match results with
      | Some results =>
          (mkResponse 200
             (BulkReport (matched results) (List.length results) results),
           sent)
      | None => (mkResponse 500 ServerError, sent)
      end
  | _ =>
      (mkResponse 400 (Failure "Input must be a list of company data objects"),
       [])
  end.

(** [process_csv_api]; [None] stands for a request without a file part.
    The division by [len(results)] raises for an empty list, and the
    handler turns every exception into a 500. *)
Definition process_csv_api (file : option upload)
  : response A * list (es_query * nat) :=
  match file with
  | None => (mkResponse 400 (Failure "No file provided"), [])
  | Some file =>
      if String.eqb (filename file) "" then
        (mkResponse 400 (Failure "No file selected"), [])
      else if negb (endswith ".csv" (filename file)) then
        (mkResponse 400 (Failure "File must be a CSV"), [])
      else
        let (results, sent) := match_all (rows file) in
        match broken file with
        | Some e =>
            (mkResponse 500 (Failure ("Error processing CSV: " ++ e)), sent)
        | None =>
            match results with
            | [] =>
                (mkResponse 500
                   (Failure "Error processing CSV: division by zero"), sent)
            | _ :: _ =>
                (mkResponse 200
                   (CsvReport (format_rate (matched results)
                                           (List.length results))
                              (matched results) (List.length results)
                              results),
                 sent)
            end
        end
  end.

End Routes.

(** A request for the worked examples, and a stand-in for the case left
    open. *)
Definition phone_as_number : json :=
  JObject [("name", JString "Acme"); ("phone", JNumber true)].

Definition name_raises {A : arith}
           (name : json) (website phone facebook : option string)
  : ending A * list (es_query * nat) :=
  (Crashed, []).

End Api.

(** ** Loading the targets and analysing the rows ([web_scraper.py]) *)
Module Pipeline.
Import PyStr Scraper.

(** [s.lstrip()] *)
Fixpoint lstrip (s : string) : string :=
  match s with
  | EmptyString => EmptyString
  | String c s' => if is_space c then lstrip s' else s
  end.

(** [s.rstrip()] *)
Fixpoint rstrip (s : string) : string :=
  match s with
  | EmptyString => EmptyString
  | String c s' =>
      match rstrip s' with
      | EmptyString => if is_space c then EmptyString
                       else String c EmptyString
      | r => String c r
      end
  end.

(** [s.strip()] *)
Definition strip (s : string) : string := rstrip (lstrip s).

(** The body of the loop of [load_websites] for one row of the reader. *)
Definition website_of (row : list string) : list string :=
  match row with
  | [] => []
  | cell :: _ => if truthy (Some (strip cell)) then [strip cell] else []
  end.

(** [load_websites], on the rows that [csv.reader] yields: the first row
    is the header. *)
Definition load_websites (rows : list (list string)) : list string :=
  match rows with
  | [] => []
  | _header :: rest => flat_map website_of rest
  end.

(** [r.get(key)] on the link lists of a row. *)
Fixpoint links_of (key : string) (entries : list (string * list string))
  : list string :=
  match entries with
  | [] => []
  | (k, v) :: entries' => if String.eqb k key then v else links_of key entries'
  end.

Definition succeeded_row (r : ScrapedRow) : bool :=
  String.eqb (status r) "success".

Definition nonempty_list {A : Type} (l : list A) : bool :=
  match l with [] => false | _ :: _ => true end.

(** [sum(1 for r in results if test(r))] *)
Definition count (test : ScrapedRow -> bool) (results : list ScrapedRow)
  : nat :=
  List.length (List.filter test results).

Definition ratio (a b : nat) : Q :=
  (inject_Z (Z.of_nat a) / inject_Z (Z.of_nat b))%Q.

(** [(with_field / successful) * 100] *)
Definition fill_rate (has : ScrapedRow -> bool) (results : list ScrapedRow)
  : Q :=
  (ratio (count (fun r => succeeded_row r && has r) results)
         (count succeeded_row results) * 100)%Q.

Definition social_platforms : list string :=
  ["facebook_links"; "twitter_links"; "instagram_links"; "linkedin_links";
   "youtube_links"].

(** [max((r.get('retries', 0) for r in results), default=0)] *)
Definition max_of (values : list Z) : Z :=
  match values with
  | [] => 0%Z
  | v :: values' => fold_left Z.max values' v
  end.

Record analysis : Type := mkAnalysis {
  total_websites : nat;
  successful_scrapes : nat;
  coverage_percentage : Q;
  fill_rates : list (string * Q);
  retried : nat;
  avg_retries : Q;
  max_retries : Z
}.

(** [analyze_results] *)
Definition analyze_results (results : list ScrapedRow) : analysis :=
  let total := List.length results in
  let successful := count succeeded_row results in
  {| total_websites := total;
     successful_scrapes := successful;
     coverage_percentage :=
       if (0 <? total)%nat then (ratio successful total * 100)%Q else 0%Q;
     fill_rates :=
       if (0 <? successful)%nat then
         ([("phones", fill_rate (fun r => nonempty_list (phones r)) results)]
          ++ map (fun platform =>
                    (platform,
                     fill_rate (fun r => nonempty_list
                                           (links_of platform (social_links r)))
                               results))
                 social_platforms
          ++ [("addresses",
               fill_rate (fun r => nonempty_list (addresses r)) results)])%list
       else [];
     retried := count (fun r => (0 <? retries r)%Z) results;
     avg_retries :=
       if (0 <? total)%nat
       then (inject_Z (fold_left Z.add (map retries results) 0%Z)
             / inject_Z (Z.of_nat total))%Q
       else 0%Q;
     max_retries := max_of (map retries results) |}.

End Pipeline.

(** ** Storing the rows and building the documents *)
Module Storage.
Import PyStr.

(** The characters that [repr] of a string copies unchanged between single
    quotes: printable ASCII other than the single quote and the
    backslash. *)
Definition plain_char (c : ascii) : bool :=
  between 32 126 c && negb (Ascii.eqb c "'") && negb (Ascii.eqb c "\").

Definition plain (s : string) : bool := all_chars plain_char s.

(** [repr(s)] for a plain string [s] *)
Definition py_repr (s : string) : string := "'" ++ s ++ "'".

(** [str(x)] in [save_results] for a list [x] of plain strings *)
Definition py_str_list (items : list string) : string :=
  "[" ++ join ", " (map py_repr items) ++ "]".

End Storage.

Module Indexer.
Import PyStr Normalizers DatasetBuilder Pipeline.

(** [str(value)] of a cell: a missing value is the float NaN. *)
Definition str_cell (value : cell) : string :=
  match value with Missing => "nan" | Text s => s end.

(** [str(row_dict.get(key, default))]; [None] is a row without the key. *)
Definition get_str (value : option cell) (default : string) : string :=
  match value with None => default | Some v => str_cell v end.

Record names : Type := mkNames {
  doc_domain : string;
  doc_commercial_name : string;
  doc_legal_name : string;
  doc_all_names : string
}.

(** The name fields of a document in [generate_docs].  [pd.isna] of a
    [str] is false, so only the comparison with the empty string decides
    the fall-backs of the commercial and the legal name; the cell of all
    names is tested before it is converted. *)
Definition doc_names (domain commercial legal all_names : option cell)
  : names :=
  let domain := strip (lower (get_str domain "")) in
  let commercial := get_str commercial "" in
  let commercial :=
    if String.eqb commercial "" then domain else commercial in
  let legal := get_str legal "" in
  let legal := if String.eqb legal "" then commercial else legal in
  let all_names :=
    match all_names with
    | None => ""
    | Some Missing => commercial
    | Some (Text s) => s
    end in
  mkNames domain commercial legal all_names.

(** The loop that fills [doc["phones_normalized"]] from [doc["phones"]]. *)
Definition phones_normalized (phones : list string) : list string :=
  flat_map (fun phone =>
              let normalized := _normalize_phone (Some phone) in
              if truthy normalized then
                match normalized with Some n => [n] | None => [] end
              else [])
           phones.

(** The loop that fills [doc['facebook_links_normalized']]. *)
Definition facebook_links_normalized (links : list string) : list string :=
  flat_map (fun url =>
              let normalized := _normalize_facebook_url (Some url) in
              if truthy normalized then
                match normalized with Some n => [n] | None => [] end
              else [])
           links.

End Indexer.

(** ** Two companies whose totals differ by rounding only *)
Module Tie.
Import PyStr Numbers Matcher.

(** The edit distance of Levenshtein again, row by row of its table, for
    longer strings. *)
Fixpoint next_row (a : ascii) (t : string) (prev : list nat) (left : nat)
  : list nat :=
  match t, prev with
  | String b t', diag :: ((up :: _) as prev') =>
      let cell :=
        Demo.min3 (S left) (S up)
                  (diag + (if Ascii.eqb a b then 0 else 1)) in
      cell :: next_row a t' prev' cell
  | _, _ => []
  end.

Fixpoint rows (s t : string) (prev : list nat) (i : nat) : list nat :=
  match s with
  | EmptyString => prev
  | String a s' => rows s' t (S i :: next_row a t prev (S i)) (S i)
  end.

Definition levenshtein (s t : string) : nat :=
  last (rows s t (seq 0 (S (String.length t))) 0) 0%nat.

Section Arithmetic.
Context {A : arith}.

(** Found by its phone; its name is 7 edits away from the query. *)
Definition northwin : CompanyRecord A :=
  mkRecord "0" "https://northwin.example" "northwin.example"
           (Some "Northwin") None
           [("phones_normalized", ["4155550123"])] None.

(** Found by its facebook page; its name is 1 edit away from the query. *)
Definition trada : CompanyRecord A :=
  mkRecord "1" "https://trada.example" "trada.example"
           (Some "Northwind Trada") None
           [("facebook_links_normalized", ["northwind"])] None.

Definition search (q : es_query) (size : nat) : list (hit A) :=
  match q with
  | Match "phones_normalized" "4155550123" =>
      [mkHit northwin (num_of_nat A 1)]
  | Match "facebook_links_normalized" "northwind" =>
      [mkHit trada (num_of_nat A 1)]
  | BoolShould _ =>
      [mkHit northwin (num_of_nat A 1); mkHit trada (num_of_nat A 1)]
  | _ => []
  end.

Definition index : backend A :=
  mkBackend search levenshtein (fun _ => None) (fun _ => None).

(** The answer to the query by name, phone and facebook page. *)
Definition answer : option (CompanyRecord A) :=
  fst (match_company index (Some "Northwind Trade") None
                     (Some "+1 415 555 0123")
                     (Some "https://www.facebook.com/Northwind")).

Definition contenders : Selection.scored A :=
  Selection.candidates index (Some "Northwind Trade") None
                       (Some "+1 415 555 0123")
                       (Some "https://www.facebook.com/Northwind").

End Arithmetic.
End Tie.

(** ** The order of the doubles *)
Module FloatOrder.
Import SpecFloat.
Local Open Scope Z_scope.

(** The place of a float that is not NaN: its class (from minus infinity,
    -2, to plus infinity, 2), then exponent and mantissa, negated for the
    negative floats. *)
Definition rank (f : spec_float) : Z * (Z * Z) :=
  match f with
  | S754_nan => (0, (0, 0))
  | S754_infinity true => (-2, (0, 0))
  | S754_infinity false => (2, (0, 0))
  | S754_zero _ => (0, (0, 0))
  | S754_finite true m e => (-1, (- e, Zneg m))
  | S754_finite false m e => (1, (e, Zpos m))
  end.

Definition lex (p q : Z * (Z * Z)) : comparison :=
  match fst p ?= fst q with
  | Eq =>
      match fst (snd p) ?= fst (snd q) with
      | Eq => snd (snd p) ?= snd (snd q)
      | c => c
      end
  | c => c
  end.

Definition is_nan (f : spec_float) : bool :=
  match f with S754_nan => true | _ => false end.

End FloatOrder.

(** ** More material for worked examples *)
Module Demo2.

(** A page with two social links. *)
Definition page : string :=
  "<a href='https://www.facebook.com/AcmeCo'>us</a> twitter.com/acme".

End Demo2.

(* ===================================================================== *)
(** * Part II: properties *)
(* ===================================================================== *)

(** ** Strings *)
Module PyStrFacts.
Import PyStr.

Lemma filter_chars_filter (p q : ascii -> bool) (s : string) :
  filter_chars p (filter_chars q s) = filter_chars (fun c => p c && q c) s.
Proof.
  induction s as [|c s IH]; simpl; [reflexivity|].
  destruct (q c); simpl.
  - destruct (p c); simpl; rewrite IH; reflexivity.
  - rewrite andb_false_r. exact IH.
Qed.

Lemma filter_chars_ext (p q : ascii -> bool) (s : string) :
  (forall c, p c = q c) -> filter_chars p s = filter_chars q s.
Proof.
  intros E. induction s as [|c s IH]; simpl; [reflexivity|].
  rewrite E, IH. reflexivity.
Qed.

Lemma all_chars_cons (p : ascii -> bool) (c : ascii) (s : string) :
  all_chars p (String c s) = p c && all_chars p s.
Proof. reflexivity. Qed.

Lemma filter_chars_all (p : ascii -> bool) (s : string) :
  all_chars p s = true -> filter_chars p s = s.
Proof.
  induction s as [|c s IH]; simpl; [reflexivity|].
  rewrite all_chars_cons. intros H. apply andb_prop in H as [Hc Hs].
  rewrite Hc, (IH Hs). reflexivity.
Qed.

Lemma all_chars_filter (p : ascii -> bool) (s : string) :
  all_chars p (filter_chars p s) = true.
Proof.
  induction s as [|c s IH]; simpl; [reflexivity|].
  destruct (p c) eqn:E; [|exact IH].
  rewrite all_chars_cons, E, IH. reflexivity.
Qed.

Lemma all_chars_weaken (p q : ascii -> bool) (s : string) :
  (forall c, p c = true -> q c = true) ->
  all_chars p s = true -> all_chars q s = true.
Proof.
  intros W. induction s as [|c s IH]; [reflexivity|].
  rewrite !all_chars_cons. intros H. apply andb_prop in H as [Hc Hs].
  rewrite (W _ Hc), (IH Hs). reflexivity.
Qed.

Lemma all_chars_drop (p : ascii -> bool) (n : nat) (s : string) :
  all_chars p s = true -> all_chars p (drop n s) = true.
Proof.
  revert s. induction n as [|n IH]; intros s H; [exact H|].
  destruct s as [|c s]; [reflexivity|]. simpl.
  rewrite all_chars_cons in H. apply andb_prop in H as [_ Hs].
  apply IH, Hs.
Qed.

Lemma length_drop (n : nat) (s : string) :
  String.length (drop n s) = (String.length s - n)%nat.
Proof.
  revert s. induction n as [|n IH]; intros s.
  - simpl. lia.
  - destruct s as [|c s]; simpl; [reflexivity|]. apply IH.
Qed.

Lemma length_zero (s : string) : String.length s = 0%nat -> s = "".
Proof. destruct s; [reflexivity|discriminate]. Qed.

End PyStrFacts.

(** ** The matcher of regular expressions *)
Module ReFacts.
Import PyStr Re PyStrFacts.

(** A repetition hands to its continuation a suffix of its input. *)
Lemma rep_calls {R : Type} (p : ascii -> bool) (s : string) :
  forall (lo : nat) (hi : option nat) (k : string -> option R) (x : R),
    rep p lo hi s k = Some x ->
    exists s', (String.length s' <= String.length s)%nat /\ k s' = Some x.
Proof.
  induction s as [|c s IH]; intros lo hi k x H.
  - simpl in H. destruct (lo =? 0)%nat; [|discriminate].
    exists "". split; [lia|exact H].
  - simpl in H.
    assert (Stop : (if (lo =? 0)%nat then k (String c s) else None) = Some x ->
                   exists s', (String.length s' <= String.length (String c s))%nat
                              /\ k s' = Some x).
    { destruct (lo =? 0)%nat; [|discriminate].
      intros K. exists (String c s). split; [lia|exact K]. }
    destruct (p c && may_repeat hi); [|exact (Stop H)].
    destruct (rep p (Nat.pred lo) (option_map Nat.pred hi) s k) as [y|] eqn:E;
      [|exact (Stop H)].
    injection H as ->. destruct (IH _ _ _ _ E) as (s' & L & K).
    exists s'. split; [simpl; lia|exact K].
Qed.

(** So does every pattern. *)
Lemma run_calls {R : Type} (r : regex) :
  forall (s : string) (g : option string)
         (k : string -> option string -> option R) (x : R),
    run r s g k = Some x ->
    exists s' g', (String.length s' <= String.length s)%nat
                  /\ k s' g' = Some x.
Proof.
  induction r as [c|p|r1 IH1 r2 IH2|r1 IH1|p lo hi|r1 IH1];
    intros s g k x H; simpl in H.
  - destruct s as [|c' s]; [discriminate|].
    destruct (Ascii.eqb c c'); [|discriminate].
    exists s, g. split; [simpl; lia|exact H].
  - destruct s as [|c' s]; [discriminate|].
    destruct (p c'); [|discriminate].
    exists s, g. split; [simpl; lia|exact H].
  - apply IH1 in H as (s1 & g1 & L1 & H).
    apply IH2 in H as (s2 & g2 & L2 & H).
    exists s2, g2. split; [lia|exact H].
  - destruct (run r1 s g k) as [y|] eqn:E.
    + injection H as ->. apply IH1 in E as (s1 & g1 & L1 & E).
      exists s1, g1. split; [exact L1|exact E].
    + exists s, g. split; [lia|exact H].
  - apply rep_calls in H as (s' & L & H). exists s', g.
    split; [exact L|exact H].
  - apply IH1 in H as (s1 & g1 & L1 & H).
    eexists s1, _. split; [exact L1|exact H].
Qed.

Lemma length_take (n : nat) (s : string) :
  String.length (take n s) = Nat.min n (String.length s).
Proof.
  revert s. induction n as [|n IH]; intros s; [reflexivity|].
  destruct s as [|c s]; [reflexivity|]. simpl. rewrite IH. reflexivity.
Qed.

(** A match ends inside its input, and a non-empty match shortens it. *)
Lemma re_match_rest (r : regex) (s : string) (m : match_object) :
  re_match r s = Some m ->
  (String.length (rest m) <= String.length s)%nat
  /\ (whole m <> "" -> String.length (rest m) < String.length s)%nat.
Proof.
  unfold re_match. intros H.
  apply run_calls in H as (s' & g' & L & H). injection H as <-. simpl.
  split; [exact L|].
  intros N. destruct (Nat.eq_dec (String.length s') (String.length s)) as [E|E];
    [|lia].
  exfalso. apply N. apply length_zero. rewrite length_take, E. lia.
Qed.

(** [findall] has fuel to spare: more of it changes nothing. *)
Lemma findall_from_fuel (r : regex) (n : nat) :
  forall (s : string) (n' : nat),
    (String.length s < n)%nat -> (String.length s < n')%nat ->
    findall_from n r s = findall_from n' r s.
Proof.
  induction n as [|n IH]; intros s n' L L'; [lia|].
  destruct n' as [|n']; [lia|]. simpl.
  destruct (re_match r s) as [m|] eqn:M.
  - destruct (re_match_rest _ _ _ M) as (_ & Sh).
    destruct (whole m) as [|w ws] eqn:W.
    + destruct s as [|c s]; [reflexivity|].
      f_equal. apply IH; simpl in *; lia.
    + f_equal.
      assert (String.length (rest m) < String.length s)%nat
        by (apply Sh; discriminate).
      apply IH; lia.
  - destruct s as [|c s]; [reflexivity|]. apply IH; simpl in *; lia.
Qed.

Lemma findall_any_fuel (r : regex) (s : string) (n : nat) :
  (String.length s < n)%nat -> findall_from n r s = findall r s.
Proof. intros L. unfold findall. apply findall_from_fuel; lia. Qed.

Lemma length_append (a b : string) :
  String.length (a ++ b) = (String.length a + String.length b)%nat.
Proof. induction a as [|c a IH]; simpl; [reflexivity|]. rewrite IH. reflexivity. Qed.

Lemma take_append (a b : string) : take (String.length a) (a ++ b) = a.
Proof. induction a as [|c a IH]; simpl; [reflexivity|]. rewrite IH. reflexivity. Qed.

Lemma lower_append (a b : string) : lower (a ++ b) = lower a ++ lower b.
Proof. induction a as [|c a IH]; simpl; [reflexivity|]. rewrite IH. reflexivity. Qed.

(** A literal word consumes itself. *)
Lemma run_word {R : Type} (w : string) (r : regex) (s : string)
      (g : option string) (k : string -> option string -> option R) :
  run (word w r) (w ++ s) g k = run r s g k.
Proof.
  induction w as [|c w IH]; [reflexivity|].
  simpl. rewrite Ascii.eqb_refl. exact IH.
Qed.

(** A greedy repetition takes the whole run of its class when the
    continuation accepts what follows. *)
Lemma rep_greedy {R : Type} (p : ascii -> bool) (h : string) :
  forall (lo : nat) (tl : string) (k : string -> option R) (x : R),
    all_chars p h = true -> (lo <= String.length h)%nat ->
    stops p tl = true -> k tl = Some x ->
    rep p lo None (h ++ tl) k = Some x.
Proof.
  induction h as [|c h IH]; intros lo tl k x A L S K.
  - simpl in L. assert (lo = 0%nat) as -> by lia.
    destruct tl as [|c tl]; simpl; [exact K|].
    simpl in S. apply negb_true_iff in S. rewrite S. exact K.
  - rewrite all_chars_cons in A. apply andb_prop in A as [Ac Ah].
    simpl. rewrite Ac. simpl.
    rewrite (IH (Nat.pred lo) tl k x Ah); [reflexivity| |exact S|exact K].
    simpl in L. lia.
Qed.

(** A starred class never fails by itself. *)
Lemma rep_star_total {R : Type} (p : ascii -> bool) (P : R -> Prop)
      (k : string -> option R) (s : string) :
  (forall s', exists x, k s' = Some x /\ P x) ->
  exists x, rep p 0 None s k = Some x /\ P x.
Proof.
  intros K. induction s as [|c s IH]; simpl; [apply K|].
  destruct (p c && true); [|apply K].
  destruct IH as (x & -> & Px). exists x. split; [reflexivity|exact Px].
Qed.

Lemma tail_total (s : string) (g : option string) (s0 : string) :
  exists m,
    run Normalizers.tail s g
        (fun s' g' =>
           Some (MatchObject
                   (take (String.length s0 - String.length s') s0) g' s'))
    = Some m
    /\ group1 m = g.
Proof.
  unfold Normalizers.tail. cbn [run].
  set (k := fun s' : string =>
              Some (MatchObject
                      (take (String.length s0 - String.length s') s0) g s')).
  assert (K : forall s', exists x, k s' = Some x /\ group1 x = g)
    by (intros s'; eexists; split; reflexivity).
  assert (T : forall s1, exists m,
               rep dot 0 None s1 k = Some m /\ group1 m = g)
    by (intros s1; apply rep_star_total, K).
  destruct s as [|c s]; [exact (T "")|].
  destruct (Ascii.eqb "/" c) eqn:E; [|exact (T (String c s))].
  destruct (T s) as (m & M & G). exists m. split; [|exact G].
  change (match rep dot 0 None s k with
          | Some x => Some x
          | None => rep dot 0 None (String c s) k
          end = Some m).
  rewrite M. reflexivity.
Qed.

(** The page pattern captures the run of handle characters that follows
    the slash. *)
Lemma pat_facebook_captures (h tl : string) :
  h <> "" -> all_chars Normalizers.handle_char h = true ->
  stops Normalizers.handle_char tl = true ->
  exists m,
    re_match Normalizers.pat_facebook ("facebook.com/" ++ h ++ tl) = Some m
    /\ group1 m = Some h.
Proof.
  intros N A S. unfold re_match, Normalizers.pat_facebook.
  rewrite run_word. cbn [run]. unfold plus.
  destruct (tail_total tl (Some h) ("facebook.com/" ++ h ++ tl))
    as (m & T & G).
  exists m. split; [|exact G].
  apply rep_greedy; [exact A| |exact S|].
  - destruct h; [congruence|simpl; lia].
  - replace (String.length (h ++ tl) - String.length tl)%nat
      with (String.length h) by (rewrite length_append; lia).
    rewrite take_append. exact T.
Qed.

Lemma strip_scheme_www (s : string) :
  sub_at_start Normalizers.scheme_www ("https://www." ++ s) = s.
Proof. destruct s; reflexivity. Qed.

End ReFacts.

(** ** The phone normalizer *)
Module PhoneFacts.
Import PyStr Re Normalizers PyStrFacts.

Lemma kept_chars (s : string) : all_chars digit_or_plus (kept s) = true.
Proof.
  unfold kept, sub_class.
  rewrite (filter_chars_ext _ digit_or_plus).
  - apply all_chars_filter.
  - intros c. unfold not_digit_plus, digit_or_plus. apply negb_involutive.
Qed.

Lemma digits_kept (s : string) : digits (kept s) = digits s.
Proof.
  unfold digits, kept, sub_class. rewrite filter_chars_filter.
  apply filter_chars_ext. intros c. unfold not_digit_plus.
  destruct (is_digit c); reflexivity.
Qed.

Lemma kept_fixed (s : string) :
  all_chars digit_or_plus s = true -> kept s = s.
Proof.
  intros H. unfold kept, sub_class.
  rewrite (filter_chars_ext _ digit_or_plus).
  - apply filter_chars_all, H.
  - intros c. unfold not_digit_plus, digit_or_plus. apply negb_involutive.
Qed.

Lemma plus_is_no_digit (c : ascii) :
  Ascii.eqb c "+" = true -> is_digit c = false.
Proof. intros E. apply Ascii.eqb_eq in E. subst c. reflexivity. Qed.

Lemma startswith_plus (c : ascii) (s : string) :
  startswith "+" (String c s) = Ascii.eqb c "+".
Proof.
  change (startswith "+" (String c s)) with (Ascii.eqb "+" c && true).
  rewrite andb_true_r. apply Ascii.eqb_sym.
Qed.

Lemma normalize_phone_unfold (s : string) :
  s <> "" ->
  _normalize_phone (Some s) = Some (up_to_last 10 (without_plus (kept s))).
Proof.
  intros H. destruct s as [|c s]; [congruence|]. reflexivity.
Qed.

Lemma length_up_to_last (n : nat) (s : string) :
  (String.length (up_to_last n s) <= n)%nat.
Proof.
  unfold up_to_last. destruct (Nat.ltb_spec n (String.length s)).
  - unfold last_n. rewrite length_drop. lia.
  - lia.
Qed.

Lemma all_chars_up_to_last (p : ascii -> bool) (n : nat) (s : string) :
  all_chars p s = true -> all_chars p (up_to_last n s) = true.
Proof.
  intros H. unfold up_to_last.
  destruct (n <? String.length s)%nat; [|exact H].
  apply all_chars_drop, H.
Qed.

Lemma all_chars_without_plus (p : ascii -> bool) (s : string) :
  all_chars p s = true -> all_chars p (without_plus s) = true.
Proof.
  intros H. unfold without_plus.
  destruct (startswith "+" s); [|exact H]. apply all_chars_drop, H.
Qed.

Lemma up_to_last_nonempty (n : nat) (s : string) :
  (0 < n)%nat -> s <> "" -> up_to_last n s <> "".
Proof.
  intros Hn Hs E. apply (f_equal String.length) in E. revert E.
  unfold up_to_last. destruct (Nat.ltb_spec n (String.length s)).
  - unfold last_n. rewrite length_drop. simpl. lia.
  - destruct s; [congruence|]. discriminate.
Qed.

(** With no plus sign but a leading one, removing it leaves the digits. *)
Lemma without_plus_digits (s : string) :
  plus_only_leading s = true -> without_plus (kept s) = digits s.
Proof.
  unfold plus_only_leading. intros H. rewrite <- digits_kept.
  pose proof (kept_chars s) as K.
  destruct (kept s) as [|c k]; [reflexivity|].
  simpl in H. rewrite all_chars_cons in K. apply andb_prop in K as [Kc _].
  unfold without_plus. rewrite startswith_plus. unfold digits. simpl.
  destruct (Ascii.eqb c "+") eqn:E.
  - rewrite (plus_is_no_digit _ E). simpl.
    symmetry. apply filter_chars_all, H.
  - unfold digit_or_plus in Kc. rewrite E, orb_false_r in Kc.
    rewrite Kc. f_equal. symmetry. apply filter_chars_all, H.
Qed.

(** A non-empty string of at most ten digits is its own normal form. *)
Lemma normalize_phone_fixed (r : string) :
  all_chars is_digit r = true -> r <> "" -> (String.length r <= 10)%nat ->
  _normalize_phone (Some r) = Some r.
Proof.
  intros D N L. rewrite (normalize_phone_unfold _ N).
  rewrite kept_fixed.
  2:{ revert D. apply all_chars_weaken. intros c Hc.
      unfold digit_or_plus. rewrite Hc. reflexivity. }
  destruct r as [|c r]; [congruence|].
  rewrite all_chars_cons in D. apply andb_prop in D as [Dc _].
  unfold without_plus. rewrite startswith_plus.
  destruct (Ascii.eqb c "+") eqn:E.
  - rewrite (plus_is_no_digit _ E) in Dc. discriminate.
  - unfold up_to_last. destruct (Nat.ltb_spec 10 (String.length (String c r))).
    + lia.
    + reflexivity.
Qed.

(** What the normalizer answers is at most ten characters long. *)
Lemma normalize_phone_shape (s r : string) :
  _normalize_phone (Some s) = Some r ->
  (String.length r <= 10)%nat /\ all_chars digit_or_plus r = true.
Proof.
  intros H. destruct s as [|c s]; [discriminate|].
  rewrite normalize_phone_unfold in H; [|congruence].
  injection H as <-. split.
  - apply length_up_to_last.
  - apply all_chars_up_to_last, all_chars_without_plus, kept_chars.
Qed.

(** C4, as the code has it: the normalizer answers null for the empty
    input and for no other string, there being no minimum number of
    digits; and when the input has at most one plus sign and no digit
    before it, the answer is the digits of the input, the last ten when
    there are more. *)
Theorem normalize_phone_cases (s : string) :
  (_normalize_phone (Some s) = None <-> s = "")
  /\ (s <> "" -> plus_only_leading s = true ->
      _normalize_phone (Some s) = Some (up_to_last 10 (digits s))
      /\ all_chars is_digit (up_to_last 10 (digits s)) = true
      /\ (String.length (up_to_last 10 (digits s)) <= 10)%nat).
Proof.
  split.
  - split.
    + intros H. destruct s as [|c s]; [reflexivity|].
      rewrite normalize_phone_unfold in H; [discriminate|congruence].
    + intros ->. reflexivity.
  - intros N P. rewrite (normalize_phone_unfold _ N).
    rewrite (without_plus_digits _ P). split; [reflexivity|]. split.
    + apply all_chars_up_to_last. unfold digits. apply all_chars_filter.
    + apply length_up_to_last.
Qed.

(** C4 as stated fails: two digits are below any threshold, and the
    normalizer still answers them. *)
Lemma normalize_phone_no_threshold :
  (count_chars is_digit "12" < 8)%nat
  /\ _normalize_phone (Some "12") = Some "12"
  /\ _normalize_phone (Some "12") <> None.
Proof. split; [vm_compute; lia|]. split; [reflexivity|discriminate]. Qed.

(** C5, as the code has it: normalizing twice is normalizing once for the
    absent and the empty input, and for every input that has a digit, at
    most one plus sign, and no digit before that plus sign. *)
Theorem normalize_phone_idempotent (x : option string) :
  match x with
  | None => True
  | Some s => s = "" \/ (digits s <> "" /\ plus_only_leading s = true)
  end ->
  _normalize_phone (_normalize_phone x) = _normalize_phone x.
Proof.
  destruct x as [s|]; [|reflexivity].
  intros [->|[D P]]; [reflexivity|].
  assert (N : s <> "") by (intros ->; apply D; reflexivity).
  rewrite (normalize_phone_unfold _ N), (without_plus_digits _ P).
  apply normalize_phone_fixed.
  - apply all_chars_up_to_last. unfold digits. apply all_chars_filter.
  - apply up_to_last_nonempty; [lia|exact D].
  - apply length_up_to_last.
Qed.

(** Exactly when a second pass changes nothing: the first pass answered
    null, or a non-empty string that does not begin with a plus sign. *)
Lemma normalize_phone_twice (x : option string) :
  _normalize_phone (_normalize_phone x) = _normalize_phone x
  <-> (_normalize_phone x = None
       \/ exists r, _normalize_phone x = Some r
                    /\ r <> "" /\ startswith "+" r = false).
Proof.
  destruct (_normalize_phone x) as [r|] eqn:E;
    [|split; [left|]; reflexivity].
  assert (C : (String.length r <= 10)%nat /\ all_chars digit_or_plus r = true).
  { destruct x as [s|]; [|discriminate].
    apply (normalize_phone_shape s), E. }
  destruct C as (L & C).
  destruct r as [|c r].
  - split; [discriminate|]. intros [H|(r & H & N & _)]; [discriminate|].
    injection H as <-. congruence.
  - rewrite normalize_phone_unfold by discriminate.
    rewrite (kept_fixed _ C). unfold without_plus.
    destruct (startswith "+" (String c r)) eqn:P.
    + split.
      * intros H. injection H as H. apply (f_equal String.length) in H.
        revert H. unfold up_to_last, last_n.
        destruct (10 <? _)%nat; rewrite ?length_drop; simpl; rewrite ?length_drop; lia.
      * intros [H|(r' & H & _ & F)]; [discriminate|].
        injection H as <-. congruence.
    + split; [|intros _].
      * intros _. right. exists (String c r).
        split; [reflexivity|]. split; [discriminate|exact P].
      * unfold up_to_last. destruct (Nat.ltb_spec 10 (String.length (String c r)));
          [lia|reflexivity].
Qed.

Lemma normalize_phone_idempotent_witness :
  (digits "+1 (415) 555-0123" <> ""
   /\ plus_only_leading "+1 (415) 555-0123" = true)
  /\ _normalize_phone (_normalize_phone (Some "+1 (415) 555-0123"))
     = _normalize_phone (Some "+1 (415) 555-0123").
Proof.
  assert (H : digits "+1 (415) 555-0123" <> ""
              /\ plus_only_leading "+1 (415) 555-0123" = true)
    by (split; [discriminate|reflexivity]).
  split; [exact H|].
  apply (normalize_phone_idempotent (Some "+1 (415) 555-0123")).
  right. exact H.
Defined.

(** C5 as stated fails: an input without digits normalizes to the empty
    string, and the empty string normalizes to null. *)
Lemma normalize_phone_not_idempotent :
  _normalize_phone (Some "abc") = Some ""
  /\ _normalize_phone (Some "") = None
  /\ _normalize_phone (_normalize_phone (Some "abc"))
     <> _normalize_phone (Some "abc").
Proof. split; [reflexivity|]. split; [reflexivity|discriminate]. Qed.

(** A second plus sign survives the first pass and falls to the next. *)
Example normalize_phone_two_plus_signs :
  _normalize_phone (Some "++1") = Some "+1"
  /\ _normalize_phone (Some "+1") = Some "1".
Proof. split; reflexivity. Qed.

Example normalize_phone_national :
  _normalize_phone (Some "+1 (415) 555-0123") = Some "4155550123".
Proof. reflexivity. Qed.

End PhoneFacts.

(** ** The facebook normalizer *)
Module FacebookFacts.
Import PyStr Re Normalizers ReFacts.

Example normalize_facebook_page :
  _normalize_facebook_url (Some "https://www.facebook.com/AcmeCo/")
  = Some "acmeco".
Proof. reflexivity. Qed.

Example normalize_facebook_short_host :
  _normalize_facebook_url (Some "http://fb.com/Ac_me/about") = Some "ac_me".
Proof. reflexivity. Qed.

(** [www.] goes only when it follows a scheme. *)
Example normalize_facebook_bare_www :
  _normalize_facebook_url (Some "www.facebook.com/Acme")
  = Some "www.facebook.com/acme".
Proof. reflexivity. Qed.

Example normalize_facebook_other_site :
  _normalize_facebook_url (Some "https://www.Example.com/Acme")
  = Some "example.com/acme".
Proof. reflexivity. Qed.

(** The pattern for profile ids does match such a url when it is tried. *)
Example profile_pattern_alone :
  option_map captured
             (re_match pat_profile "facebook.com/profile.php?id=12345")
  = Some "12345".
Proof. reflexivity. Qed.

(** The url of a profile, whatever follows [id=], is taken for the page
    [profile.php]: the first pattern of the list matches it. *)
Lemma profile_url_shadowed (t : string) :
  _normalize_facebook_url
    (Some ("https://www.facebook.com/profile.php?id=" ++ t))
  = Some "profile.php".
Proof.
  unfold _normalize_facebook_url.
  change (truthy (Some ("https://www.facebook.com/profile.php?id=" ++ t)))
    with true. cbn [negb].
  change ("https://www.facebook.com/profile.php?id=" ++ t)
    with ("https://www." ++ "facebook.com/profile.php?id=" ++ t).
  rewrite lower_append, lower_append.
  change (lower "https://www.") with "https://www.".
  rewrite strip_scheme_www.
  change (lower "facebook.com/profile.php?id=" ++ lower t)
    with ("facebook.com/" ++ "profile.php" ++ "?id=" ++ lower t).
  destruct (pat_facebook_captures "profile.php" ("?id=" ++ lower t))
    as (m & M & G); [discriminate|reflexivity|reflexivity|].
  unfold facebook_patterns, first_match. rewrite M.
  unfold captured. rewrite G. reflexivity.
Qed.

(** C6 at its examples: the page name is found, lowercased; but for a
    profile url, with any id, the first pattern of the list already matches
    and captures [profile.php], so the pattern written for the id is never
    reached and the id is not returned. *)
Theorem normalize_facebook_examples :
  _normalize_facebook_url (Some "https://facebook.com/Acme") = Some "acme"
  /\ _normalize_facebook_url
       (Some "https://www.facebook.com/profile.php?id=12345")
     = Some "profile.php"
  /\ option_map captured
                (re_match pat_facebook "facebook.com/profile.php?id=12345")
     = Some "profile.php"
  /\ (forall t,
        _normalize_facebook_url
          (Some ("https://www.facebook.com/profile.php?id=" ++ t))
        = Some "profile.php").
Proof.
  split; [reflexivity|]. split; [reflexivity|]. split; [reflexivity|].
  exact profile_url_shadowed.
Qed.

End FacebookFacts.

(** ** The list parser of the dataset builder *)
Module DatasetFacts.
Import DatasetBuilder.

Section Parser.
Variable literal_eval : string -> evaluation.

Lemma clean_text (s : string) :
  s <> "[]" ->
  _clean_string_list literal_eval (Text s)
  = match literal_eval s with
    | inl v => inl v
    | inr ValueError => inl (VList [VStr s])
    | inr SyntaxError => inl (VList [VStr s])
    | inr e => inr e
    end.
Proof.
  intros N. unfold _clean_string_list. simpl.
  destruct (String.eqb_spec s "[]"); [congruence|reflexivity].
Qed.

(** What Python's evaluator does on the two texts the claim singles out. *)
Hypothesis eval_brackets : literal_eval "[]" = inl (VList []).
Hypothesis eval_empty : literal_eval "" = inr SyntaxError.

(** C7, as the code has it: a missing field and the text of two brackets
    give the empty list; a text that evaluates to a list gives that
    list; a text on which the evaluator raises [ValueError] or
    [SyntaxError] gives the one-element list of that text; and the empty
    text is such a text, so it gives the one-element list of the empty
    string. *)
Theorem clean_string_list_cases :
  _clean_string_list literal_eval Missing = inl (VList [])
  /\ _clean_string_list literal_eval (Text "[]") = inl (VList [])
  /\ (forall s l, literal_eval s = inl (VList l) ->
                  _clean_string_list literal_eval (Text s) = inl (VList l))
  /\ (forall s, literal_eval s = inr ValueError
                \/ literal_eval s = inr SyntaxError ->
                _clean_string_list literal_eval (Text s)
                = inl (VList [VStr s]))
  /\ _clean_string_list literal_eval (Text "") = inl (VList [VStr ""]).
Proof.
  split; [reflexivity|]. split; [reflexivity|].
  split; [|split].
  - intros s l E. destruct (String.eqb_spec s "[]") as [->|N].
    + rewrite eval_brackets in E. injection E as <-. reflexivity.
    + rewrite (clean_text _ N), E. reflexivity.
  - intros s E. destruct (String.eqb_spec s "[]") as [->|N].
    + rewrite eval_brackets in E. destruct E; discriminate.
    + rewrite (clean_text _ N). destruct E as [-> | ->]; reflexivity.
  - rewrite clean_text by discriminate. rewrite eval_empty. reflexivity.
Qed.
End Parser.

Lemma clean_string_list_cases_witness :
  (eval_string_list "[]" = inl (VList [])
   /\ eval_string_list "" = inr SyntaxError)
  /\ _clean_string_list eval_string_list (Text "['a', 'b']")
     = inl (VList [VStr "a"; VStr "b"])
  /\ _clean_string_list eval_string_list (Text "") = inl (VList [VStr ""]).
Proof.
  split; [split; reflexivity|].
  pose proof (clean_string_list_cases eval_string_list eq_refl eq_refl)
    as (_ & _ & L & _ & E).
  split; [|exact E].
  apply (L "['a', 'b']"). reflexivity.
Defined.

(** C7 as stated fails on the empty string: it is neither missing nor the
    two brackets, evaluating it raises, and it comes back wrapped. *)
Lemma clean_string_list_empty_text :
  isna (Text "") = false
  /\ eval_string_list "" = inr SyntaxError
  /\ _clean_string_list eval_string_list (Text "") = inl (VList [VStr ""])
  /\ _clean_string_list eval_string_list (Text "") <> inl (VList []).
Proof. repeat split; try reflexivity. discriminate. Qed.

Example clean_string_list_free_text :
  _clean_string_list eval_string_list (Text "+1 415 555 0123")
  = inl (VList [VStr "+1 415 555 0123"]).
Proof. reflexivity. Qed.

End DatasetFacts.

(** ** The phone extractor and the batch driver *)
Module ScraperFacts.
Import PyStr Re Scraper.
Import Demo (sample).

(** C8: on the sample text the pattern matches twice; the substitution
    keeps the digits and the leading plus sign; both cleaned matches have
    eight digits or more and are accepted; the set is the two numbers, the
    first with its plus sign, and after digit-only normalization it is
    exactly the set of the two digit strings. *)
Theorem extract_phones_sample :
  findall phone_pattern sample = ["+1 415-555-0123 "; " (628) 555-9999"]
  /\ map clean_phone (findall phone_pattern sample)
     = ["+14155550123"; "6285559999"]
  /\ map (count_chars is_digit) (cleaned_phones (findall phone_pattern sample))
     = [11%nat; 10%nat]
  /\ extract_phones sample = {[ "+14155550123"; "6285559999" ]}
  /\ digits_only (extract_phones sample)
     = {[ "14155550123"; "6285559999" ]}.
Proof.
  split; [reflexivity|]. split; [reflexivity|]. split; [reflexivity|].
  split; apply (bool_decide_unpack _); vm_compute; exact I.
Qed.

(** The length test counts the plus sign: seven digits pass with it. *)
Example extract_phones_seven_digits :
  extract_phones "fax +123 4567" = {[ "+1234567" ]}.
Proof. apply (bool_decide_unpack _). vm_compute. exact I. Qed.

Example extract_phones_duplicates :
  extract_phones "628 555 9999, (628) 555-9999" = {[ "6285559999" ]}.
Proof. apply (bool_decide_unpack _). vm_compute. exact I. Qed.

Section Batch.
Variable scrape_website : nat -> string -> outcome.
Variable as_completed : list future -> list future.

Lemma gather_rows (fs : list future) (acc : list ScrapedRow) :
  forallb (fun f => negb (escapes f)) fs = true ->
  gather fs acc = inl (acc ++ map row_of fs)%list.
Proof.
  revert acc. induction fs as [|f fs IH]; intros acc H; simpl.
  - rewrite app_nil_r. reflexivity.
  - simpl in H. apply andb_prop in H as [Hf H].
    unfold collect, escapes, row_of, row_for, failed_row in *.
    destruct (fut_outcome f); try discriminate Hf;
      rewrite IH by exact H; rewrite <- app_assoc; reflexivity.
Qed.

Lemma gather_escape (fs : list future) (acc : list ScrapedRow) :
  existsb escapes fs = true -> exists e, gather fs acc = inr e.
Proof.
  revert acc. induction fs as [|f fs IH]; intros acc H; simpl in *;
    [discriminate|].
  unfold collect, escapes in *.
  destruct (fut_outcome f) as [row|e|e]; simpl in H.
  - apply IH, H.
  - apply IH, H.
  - exists e. reflexivity.
Qed.

Lemma submit_all_numbered (i : nat) (urls : list string) :
  map row_of (submit_all scrape_website i urls)
  = map (fun iu => row_for scrape_website (fst iu) (snd iu))
        (numbered i urls).
Proof.
  revert i. induction urls as [|u urls IH]; intros i; simpl;
    [reflexivity|]. rewrite IH. reflexivity.
Qed.

Lemma submit_all_outcomes (i : nat) (urls : list string) (f : future) :
  In f (submit_all scrape_website i urls) ->
  exists k url, nth_error urls k = Some url
                /\ f = mkFuture (i + k) url (scrape_website (i + k) url).
Proof.
  revert i. induction urls as [|u urls IH]; intros i; simpl; [intros []|].
  intros [<-|I].
  - exists 0%nat, u. rewrite Nat.add_0_r. split; reflexivity.
  - destruct (IH _ I) as (k & url & N & ->). exists (S k), url.
    split; [exact N|]. replace (i + S k)%nat with (S i + k)%nat by lia.
    reflexivity.
Qed.

Lemma submit_all_nth (i k : nat) (urls : list string) (url : string) :
  nth_error urls k = Some url ->
  In (mkFuture (i + k) url (scrape_website (i + k) url))
     (submit_all scrape_website i urls).
Proof.
  revert i k. induction urls as [|u urls IH]; intros i k; destruct k;
    simpl; try discriminate.
  - intros E. injection E as ->. left. rewrite Nat.add_0_r. reflexivity.
  - intros E. right. replace (i + S k)%nat with (S i + k)%nat by lia.
    apply IH, E.
Qed.

Lemma numbered_nth (i k : nat) (urls : list string) (url : string) :
  nth_error urls k = Some url -> In ((i + k)%nat, url) (numbered i urls).
Proof.
  revert i k. induction urls as [|u urls IH]; intros i k; destruct k;
    simpl; try discriminate.
  - intros E. injection E as ->. left. rewrite Nat.add_0_r. reflexivity.
  - intros E. right. replace (i + S k)%nat with (S i + k)%nat by lia.
    apply IH, E.
Qed.

Lemma length_numbered (i : nat) (urls : list string) :
  List.length (numbered i urls) = List.length urls.
Proof.
  revert i. induction urls as [|u urls IH]; intros i; simpl;
    [reflexivity|]. rewrite IH. reflexivity.
Qed.

(** [as_completed] yields every future it is given, once. *)
Hypothesis completes : forall fs, Permutation (as_completed fs) fs.

Lemma forallb_permutation {T : Type} (p : T -> bool) (l l' : list T) :
  Permutation l l' -> forallb p l = forallb p l'.
Proof.
  induction 1; simpl; try congruence.
  - destruct (p x), (p y); reflexivity.
Qed.

(** C9, as the code has it.  When no task raises outside [Exception],
    [batch_scrape] returns, in some order, one row per submitted url: the
    row its task returned, or, when the task raised an exception with
    text [e], the row of that url with status [failed], error [e] and
    retries [-1]; so there are as many rows as urls.  When the task of
    some url raises outside [Exception], [batch_scrape] returns no rows:
    the exception leaves it. *)
Theorem batch_scrape_one_row_per_url (urls : list string) :
  ((forall i url e, nth_error urls i = Some url ->
                    scrape_website i url <> Escaped e) ->
   exists rows,
     batch_scrape scrape_website as_completed urls = inl rows
     /\ List.length rows = List.length urls
     /\ Permutation rows
                    (map (fun iu => row_for scrape_website (fst iu) (snd iu))
                         (numbered 0 urls))
     /\ (forall i url row,
           nth_error urls i = Some url ->
           scrape_website i url = Returned row -> In row rows)
     /\ (forall i url e,
           nth_error urls i = Some url ->
           scrape_website i url = Raised e ->
           In {| website := url; domain := None; status := "failed";
                 phones := []; addresses := []; social_links := [];
                 error := Some e; retries := (-1)%Z |} rows))
  /\ (forall i url e,
        nth_error urls i = Some url -> scrape_website i url = Escaped e ->
        exists e', batch_scrape scrape_website as_completed urls = inr e').
Proof.
  set (futures := submit_all scrape_website 0 urls).
  split.
  - intros Safe.
    assert (Ok : forallb (fun f => negb (escapes f)) futures = true).
    { apply forallb_forall. intros f I.
      apply submit_all_outcomes in I as (k & url & N & ->).
      unfold escapes. cbn [fut_outcome]. simpl.
      destruct (scrape_website k url) as [row|e|e] eqn:E;
        [reflexivity|reflexivity|].
      exfalso. exact (Safe k url e N E). }
    assert (Ok' : forallb (fun f => negb (escapes f)) (as_completed futures)
                  = true)
      by (rewrite (forallb_permutation _ _ _ (completes futures)); exact Ok).
    exists (map row_of (as_completed futures)).
    assert (P : Permutation (map row_of (as_completed futures))
                  (map (fun iu => row_for scrape_website (fst iu) (snd iu))
                       (numbered 0 urls))).
    { rewrite <- submit_all_numbered. apply Permutation_map, completes. }
    assert (In_row : forall i url,
               nth_error urls i = Some url ->
               In (row_for scrape_website i url)
                  (map row_of (as_completed futures))).
    { intros i url N. apply (Permutation_in _ (Permutation_sym P)).
      apply in_map_iff. exists (i, url). split; [reflexivity|].
      apply (numbered_nth 0 i), N. }
    split; [unfold batch_scrape; rewrite (gather_rows _ _ Ok'); reflexivity|].
    split.
    { rewrite (Permutation_length P), length_map. apply length_numbered. }
    split; [exact P|]. split.
    + intros i url row N E. pose proof (In_row i url N) as I.
      unfold row_for in I. rewrite E in I. exact I.
    + intros i url e N E. pose proof (In_row i url N) as I.
      unfold row_for in I. rewrite E in I. exact I.
  - intros i url e N E. unfold batch_scrape. apply gather_escape.
    apply existsb_exists.
    exists (mkFuture i url (scrape_website i url)). split.
    + apply (Permutation_in _ (Permutation_sym (completes futures))).
      apply (submit_all_nth 0 i), N.
    + unfold escapes. cbn [fut_outcome]. rewrite E. reflexivity.
Qed.
End Batch.

Lemma last_first_completes (fs : list future) :
  Permutation (Demo.last_first fs) fs.
Proof. apply Permutation_sym, Permutation_rev. Qed.

Lemma flaky_never_escapes (i : nat) (url e : string) :
  nth_error ["a.com"; "b.com"; "c.com"] i = Some url ->
  Demo.flaky i url <> Escaped e.
Proof. intros _. unfold Demo.flaky. destruct (i =? 1)%nat; discriminate. Qed.

Lemma batch_scrape_one_row_per_url_witness :
  (forall fs, Permutation (Demo.last_first fs) fs)
  /\ exists rows,
       batch_scrape Demo.flaky Demo.last_first ["a.com"; "b.com"; "c.com"]
       = inl rows
       /\ List.length rows = 3%nat
       /\ In {| website := "b.com"; domain := None; status := "failed";
                phones := []; addresses := []; social_links := [];
                error := Some "boom"; retries := (-1)%Z |} rows.
Proof.
  split; [exact last_first_completes|].
  destruct (batch_scrape_one_row_per_url Demo.flaky Demo.last_first
              last_first_completes ["a.com"; "b.com"; "c.com"])
    as (Rows & _).
  destruct (Rows flaky_never_escapes) as (rows & E & L & _ & _ & R).
  exists rows. split; [exact E|]. split; [exact L|].
  apply (R 1%nat "b.com" "boom"); reflexivity.
Defined.

(** C9 as stated fails for an exception outside [Exception]: the task of
    the second url exits, and [batch_scrape] returns no rows at all. *)
Lemma batch_scrape_exit_escapes :
  Demo.exiting 1 "b.com" = Escaped "1"
  /\ batch_scrape Demo.exiting Demo.last_first ["a.com"; "b.com"; "c.com"]
     = inr "1"
  /\ forall rows,
       batch_scrape Demo.exiting Demo.last_first ["a.com"; "b.com"; "c.com"]
       <> inl rows.
Proof. repeat split. discriminate. Qed.

End ScraperFacts.

(** ** The score dict *)
Module DictFacts.
Import Numbers Matcher Selection.

Section Arithmetic.
Context {A : arith}.

Lemma mem_in (id : string) (ids : list string) :
  mem id ids = true <-> In id ids.
Proof.
  unfold mem. rewrite existsb_exists. split.
  - intros (x & Hx & E). apply String.eqb_eq in E. subst x. exact Hx.
  - intros H. exists id. split; [exact H|apply String.eqb_refl].
Qed.

Lemma dict_index_set (d : dict A) (k k' : string) (v : num A) :
  dict_index (dict_set d k v) k'
  = if String.eqb k k' then Some v else dict_index d k'.
Proof.
  induction d as [|[k0 v0] d IH]; simpl.
  - reflexivity.
  - destruct (String.eqb_spec k0 k) as [->|N]; simpl.
    + destruct (String.eqb_spec k k'); reflexivity.
    + rewrite IH. destruct (String.eqb_spec k0 k') as [->|N'];
        [|reflexivity].
      destruct (String.eqb_spec k k'); [congruence|reflexivity].
Qed.

Lemma keys_set (d : dict A) (k : string) (v : num A) :
  keys (dict_set d k v)
  = if mem k (keys d) then keys d else (keys d ++ [k])%list.
Proof.
  induction d as [|[k0 v0] d IH]; simpl; [reflexivity|].
  unfold mem in *. simpl. rewrite (String.eqb_sym k k0).
  destruct (String.eqb k0 k); simpl; [reflexivity|].
  unfold keys in *. rewrite IH.
  destruct (existsb (String.eqb k) (map fst d)); reflexivity.
Qed.

Lemma dict_index_in (d : dict A) (k : string) (v : num A) :
  NoDup (keys d) -> In (k, v) d -> dict_index d k = Some v.
Proof.
  induction d as [|[k0 v0] d IH]; simpl; [intros _ []|].
  intros ND [E|I].
  - injection E as -> ->. rewrite String.eqb_refl. reflexivity.
  - destruct (String.eqb_spec k0 k) as [->|N].
    + exfalso. apply NoDup_cons_iff in ND as [ND _]. apply ND.
      change k with (fst (k, v)). apply in_map, I.
    + apply IH; [|exact I]. apply NoDup_cons_iff in ND as [_ ND]. exact ND.
Qed.

Lemma dict_get_absorb (cands : scored A) (d : dict A) (id : string) :
  dict_get (dict_absorb d cands) id (num_of_nat A 0)
  = total_from (dict_get d id (num_of_nat A 0)) cands id.
Proof.
  revert d. induction cands as [|[src c] cands IH]; intros d;
    [reflexivity|].
  unfold dict_absorb, total_from in *. simpl. rewrite IH. f_equal.
  unfold dict_get at 1. rewrite dict_index_set.
  destruct (String.eqb (company_id src) id) eqn:E; [|reflexivity].
  apply String.eqb_eq in E. subst id. reflexivity.
Qed.

Lemma keys_absorb (cands : scored A) (d : dict A) :
  keys (dict_absorb d cands) = (keys d ++ first_seen (keys d) cands)%list.
Proof.
  revert d. induction cands as [|[src c] cands IH]; intros d.
  - simpl. rewrite app_nil_r. reflexivity.
  - unfold dict_absorb in *. simpl. rewrite IH, keys_set.
    destruct (mem (company_id src) (keys d)); [reflexivity|].
    rewrite <- app_assoc. reflexivity.
Qed.

Lemma first_seen_fresh (cands : scored A) (seen : list string) (id : string) :
  In id (first_seen seen cands) -> ~ In id seen.
Proof.
  revert seen. induction cands as [|[src c] cands IH]; intros seen;
    simpl; [intros []|].
  destruct (mem (company_id src) seen) eqn:M.
  - apply IH.
  - intros [<-|I].
    + intros H. apply mem_in in H. congruence.
    + intros H. apply (IH _ I). apply in_or_app. left. exact H.
Qed.

Lemma first_seen_nodup (cands : scored A) (seen : list string) :
  NoDup (first_seen seen cands).
Proof.
  revert seen. induction cands as [|[src c] cands IH]; intros seen; simpl.
  - constructor.
  - destruct (mem (company_id src) seen); [apply IH|].
    constructor; [|apply IH].
    intros H. apply first_seen_fresh in H. apply H.
    apply in_or_app. right. left. reflexivity.
Qed.

Lemma first_seen_named (cands : scored A) (seen : list string) (id : string) :
  In id (first_seen seen cands) ->
  exists sc, In sc cands /\ company_id (fst sc) = id.
Proof.
  revert seen. induction cands as [|[src c] cands IH]; intros seen;
    simpl; [intros []|].
  destruct (mem (company_id src) seen).
  - intros H. destruct (IH _ H) as (sc & I & E). exists sc. auto.
  - intros [<-|H].
    + exists (src, c). auto.
    + destruct (IH _ H) as (sc & I & E). exists sc. auto.
Qed.

Lemma first_seen_covers (cands : scored A) (seen : list string) (sc : _) :
  In sc cands ->
  In (company_id (fst sc)) seen
  \/ In (company_id (fst sc)) (first_seen seen cands).
Proof.
  revert seen. induction cands as [|[src c] cands IH]; intros seen;
    simpl; [intros []|].
  intros [<-|I]; simpl.
  - destruct (mem (company_id src) seen) eqn:M.
    + left. apply mem_in, M.
    + right. left. reflexivity.
  - destruct (mem (company_id src) seen) eqn:M.
    + apply IH, I.
    + destruct (IH (seen ++ [company_id src])%list I) as [H|H].
      * apply in_app_or in H as [H|[<-|[]]]; [left; exact H|].
        right. left. reflexivity.
      * right. right. exact H.
Qed.

(** The dict built from the empty one: its keys are the candidate ids in
    order of first hit, and each holds the total of its company. *)
Lemma dict_of_candidates (cands : scored A) :
  keys (dict_absorb [] cands) = candidate_ids cands
  /\ NoDup (keys (dict_absorb [] cands))
  /\ (forall id v, In (id, v) (dict_absorb [] cands) -> v = total cands id).
Proof.
  assert (K : keys (dict_absorb [] cands) = candidate_ids cands)
    by (rewrite keys_absorb; reflexivity).
  assert (ND : NoDup (keys (dict_absorb [] cands)))
    by (rewrite K; apply first_seen_nodup).
  split; [exact K|]. split; [exact ND|].
  intros id v I. pose proof (dict_index_in _ _ _ ND I) as E.
  pose proof (dict_get_absorb cands [] id) as G.
  unfold dict_get at 1 in G. rewrite E in G. exact G.
Qed.

Lemma dict_absorb_empty (cands : scored A) :
  dict_absorb [] cands = [] <-> cands = [].
Proof.
  split; [|intros ->; reflexivity].
  destruct cands as [|[src c] cands]; [reflexivity|].
  intros E. apply (f_equal keys) in E. rewrite keys_absorb in E.
  simpl in E. discriminate.
Qed.

End Arithmetic.

End DictFacts.

(** ** Python's [max] *)
Module MaxFacts.
Import Numbers Matcher Selection.

Section Arithmetic.
Context {A : arith}.
Hypothesis law : ordered A.

Lemma max_by_value_scan (items seen : dict A) (best : string * num A) :
  (forall x, In x items -> comparable (snd x)) ->
  comparable (snd best) ->
  first_greatest seen best ->
  first_greatest (seen ++ items)%list (max_by_value best items).
Proof.
  revert seen best. induction items as [|item items IH];
    intros seen best C Cb H; simpl.
  - rewrite app_nil_r. exact H.
  - replace (seen ++ item :: items)%list
      with ((seen ++ [item]) ++ items)%list
      by (rewrite <- app_assoc; reflexivity).
    assert (Ci : comparable (snd item)) by (apply C; left; reflexivity).
    assert (C' : forall x, In x items -> comparable (snd x))
      by (intros x I; apply C; right; exact I).
    destruct H as (before & after & -> & Hb & Ha).
    destruct (num_ltb A (snd best) (snd item)) eqn:E.
    + apply IH; [exact C'|exact Ci|].
      exists (before ++ best :: after)%list, []. split; [reflexivity|].
      split; [|intros x []].
      intros x I. apply in_app_or in I as [I|[<-|I]].
      * apply (order_lt_trans A law) with (snd best); [apply Hb, I|exact E].
      * exact E.
      * apply (order_le_lt_trans A law) with (snd best);
          [apply Ha, I|exact E].
    + apply IH; [exact C'|exact Cb|].
      exists before, (after ++ [item])%list. split.
      * rewrite <- app_assoc. reflexivity.
      * split; [exact Hb|].
        intros x I. apply in_app_or in I as [I|[<-|[]]]; [apply Ha, I|].
        apply (order_total A law); assumption.
Qed.

Lemma max_by_value_first (first : string * num A) (others : dict A) :
  (forall x, In x (first :: others) -> comparable (snd x)) ->
  first_greatest (first :: others) (max_by_value first others).
Proof.
  intros C. apply (max_by_value_scan others [first] first).
  - intros x I. apply C. right. exact I.
  - apply C. left. reflexivity.
  - exists [], []. split; [reflexivity|]. split; intros x [].
Qed.

End Arithmetic.

Local Open Scope Q_scope.

Lemma Qlt_bool_iff (a b : Q) : Qlt_bool a b = true <-> a < b.
Proof.
  unfold Qlt_bool. rewrite negb_true_iff. split.
  - intros H. apply Qnot_le_lt. intros L. apply Qle_bool_iff in L. congruence.
  - intros H. destruct (Qle_bool b a) eqn:E; [|reflexivity].
    apply Qle_bool_iff in E. exfalso. exact (Qlt_not_le _ _ H E).
Qed.

Lemma Qlt_bool_false (a b : Q) : Qlt_bool a b = false <-> b <= a.
Proof.
  unfold Qlt_bool. rewrite negb_false_iff. apply Qle_bool_iff.
Qed.

(** Shows the operations of [exact] as those of the rationals. *)
Ltac rationals :=
  cbv [num num_of_nat num_add num_sub num_mul num_div num_ltb num_leb exact]
    in *;
  change (inject_Z (Z.of_nat 0)) with 0 in *;
  change (inject_Z (Z.of_nat 1)) with 1 in *;
  change (inject_Z (Z.of_nat 5)) with 5 in *;
  change (inject_Z (Z.of_nat 6)) with 6 in *;
  change (inject_Z (Z.of_nat 8)) with 8 in *;
  change (inject_Z (Z.of_nat 10)) with 10 in *.

(** The comparisons of the rationals are those of a total order. *)
Lemma exact_ordered : ordered exact.
Proof.
  split; cbn [num num_ltb num_leb exact].
  - intros x y _ _ H. apply Qle_bool_iff, Qlt_bool_false, H.
  - intros x y z H1 H2. apply Qlt_bool_iff in H1, H2. apply Qlt_bool_iff.
    apply Qlt_trans with y; assumption.
  - intros x y z H1 H2. apply Qle_bool_iff in H1. apply Qlt_bool_iff in H2.
    apply Qlt_bool_iff. apply Qle_lt_trans with y; assumption.
  - intros x y H. apply Qlt_bool_iff in H. apply Qle_bool_iff.
    apply Qlt_le_weak, H.
Qed.

Lemma exact_comparable (x : Q) : comparable (A:=exact) x.
Proof. apply Qle_bool_iff, Qle_refl. Qed.

Lemma py_max_bounds (a b lo hi : Q) :
  lo <= a <= hi -> b <= hi -> lo <= py_max (A:=exact) a b <= hi.
Proof.
  intros [L H] Hb. unfold py_max. cbn [num_ltb exact].
  destruct (Qlt_bool a b) eqn:E.
  - apply Qlt_bool_iff in E. split; [|exact Hb].
    apply Qle_trans with a; [exact L|apply Qlt_le_weak, E].
  - split; assumption.
Qed.

End MaxFacts.

(** ** From the loops of [match_company] to the list of candidates *)
Module GatherFacts.
Import PyStr Normalizers Numbers Matcher Selection DictFacts.

Section Arithmetic.
Context {A : arith}.

Lemma extends_refl (st : mstate A) : extends st st [] [].
Proof.
  unfold extends. simpl. rewrite !app_nil_r. repeat split; reflexivity.
Qed.

Lemma extends_trans (st1 st2 st3 : mstate A) (c12 c23 : scored A)
      (k12 k23 : list (es_query * nat)) :
  extends st1 st2 c12 k12 -> extends st2 st3 c23 k23 ->
  extends st1 st3 (c12 ++ c23)%list (k12 ++ k23)%list.
Proof.
  intros (M1 & R1 & I1) (M2 & R2 & I2). unfold extends.
  rewrite M2, M1, R2, R1, I2, I1. unfold dict_absorb.
  rewrite fold_left_app, map_app, !app_assoc. repeat split; reflexivity.
Qed.

Lemma absorb_extends (cands : scored A) (st : mstate A) :
  extends st (absorb cands st) cands [].
Proof.
  revert st. induction cands as [|[src c] cands IH]; intros st.
  - apply extends_refl.
  - change (absorb ((src, c) :: cands) st)
      with (absorb cands (add_hit st src c)).
    destruct (IH (add_hit st src c)) as (M & R & I).
    unfold extends. rewrite M, R, I. simpl.
    rewrite <- app_assoc. repeat split; reflexivity.
Qed.

Section Gather.
Variable B : backend A.

Lemma probe_absorb (q : es_query) (size : nat) (c : hit A -> num A)
      (st : mstate A) :
  probe B q size c st = absorb (hits_of B q size c) (logged q size st).
Proof.
  unfold probe, absorb, hits_of. fold (logged q size st).
  generalize (logged q size st).
  induction (es_search B q size) as [|h hs IH]; intros st0;
    [reflexivity|]. simpl. apply IH.
Qed.

Lemma probe_extends (q : es_query) (size : nat) (c : hit A -> num A)
      (st : mstate A) :
  extends st (probe B q size c st) (hits_of B q size c) [(q, size)].
Proof.
  rewrite probe_absorb.
  destruct (absorb_extends (hits_of B q size c) (logged q size st))
    as (M & R & I).
  unfold extends. rewrite M, R, I. simpl. rewrite app_nil_r.
  repeat split; reflexivity.
Qed.

(** A probe that does not run sends nothing and adds nothing. *)
Lemma hits_of_in (q : es_query) (size : nat) (c : hit A -> num A)
      (sc : CompanyRecord A * num A) :
  In sc (hits_of B q size c) ->
  exists h, In h (es_search B q size) /\ sc = (_source h, c h).
Proof.
  unfold hits_of. intros I. apply in_map_iff in I as (h & <- & I).
  exists h. split; [exact I|reflexivity].
Qed.

Ltac skipped := exists []; split; [apply extends_refl|reflexivity].
(** A probe that runs sends its one query, which is no multi-match. *)
Ltac ran := eexists; split; [apply probe_extends|reflexivity].

Lemma domain_probe_extends (website : option string) (st : mstate A) :
  exists calls,
    extends st (domain_probe B website st) (domain_candidates B website)
            calls
    /\ existsb is_multi_match calls = false.
Proof.
  unfold domain_probe, domain_candidates.
  destruct (truthy website); cbn [andb].
  - destruct (_extract_domain B website) as [d|]; [|skipped].
    destruct (truthy (Some d)); [ran|skipped].
  - destruct (_extract_domain B website); skipped.
Qed.

Lemma phone_probe_extends (phone : option string) (st : mstate A) :
  exists calls,
    extends st (phone_probe B phone st) (phone_candidates B phone) calls
    /\ existsb is_multi_match calls = false.
Proof.
  unfold phone_probe, phone_candidates.
  destruct (truthy phone); cbn [andb].
  - destruct (_normalize_phone phone) as [d|]; [|skipped].
    destruct (truthy (Some d)); [ran|skipped].
  - destruct (_normalize_phone phone); skipped.
Qed.

Lemma facebook_probe_extends (facebook : option string) (st : mstate A) :
  exists calls,
    extends st (facebook_probe B facebook st)
            (facebook_candidates B facebook) calls
    /\ existsb is_multi_match calls = false.
Proof.
  unfold facebook_probe, facebook_candidates.
  destruct (truthy facebook); cbn [andb].
  - destruct (_normalize_facebook_url facebook) as [d|]; [|skipped].
    destruct (truthy (Some d)); [ran|skipped].
  - destruct (_normalize_facebook_url facebook); skipped.
Qed.

Lemma name_probe_extends (name : option string) (st : mstate A) :
  exists calls,
    extends st (name_probe B name st) (name_candidates B name) calls
    /\ existsb is_multi_match calls = false.
Proof.
  unfold name_probe, name_candidates.
  destruct name as [n|]; [|destruct (truthy None); skipped].
  destruct (truthy (Some n)); [ran|skipped].
Qed.

(** After the four probes: the dict holds the primary candidates, and no
    multi-match query has been sent. *)
Lemma primary_extends (name website phone facebook : option string) :
  exists calls,
    extends initial (primary B name website phone facebook)
            (primary_candidates B name website phone facebook) calls
    /\ existsb is_multi_match calls = false.
Proof.
  unfold primary, primary_candidates.
  destruct (domain_probe_extends website initial) as (k1 & E1 & N1).
  destruct (phone_probe_extends phone (domain_probe B website initial))
    as (k2 & E2 & N2).
  destruct (facebook_probe_extends facebook
              (phone_probe B phone (domain_probe B website initial)))
    as (k3 & E3 & N3).
  destruct (name_probe_extends name
              (facebook_probe B facebook
                 (phone_probe B phone (domain_probe B website initial))))
    as (k4 & E4 & N4).
  exists (k1 ++ k2 ++ k3 ++ k4)%list. split.
  - eapply extends_trans; [exact E1|].
    eapply extends_trans; [exact E2|].
    eapply extends_trans; [exact E3|exact E4].
  - rewrite !existsb_app, N1, N2, N3, N4. reflexivity.
Qed.

Lemma primary_scores (name website phone facebook : option string) :
  match_scores (primary B name website phone facebook)
  = dict_absorb [] (primary_candidates B name website phone facebook).
Proof.
  destruct (primary_extends name website phone facebook)
    as (k & (M & _ & _) & _). exact M.
Qed.

Lemma primary_scores_empty (name website phone facebook : option string) :
  match_scores (primary B name website phone facebook) = []
  <-> primary_candidates B name website phone facebook = [].
Proof. rewrite primary_scores. apply dict_absorb_empty. Qed.

(** The guard [if fields and query_parts] holds exactly when some field
    of the query is present. *)
Lemma fallback_guard (name website phone facebook : option string) :
  nonempty (fallback_fields name website phone facebook)
  && nonempty (query_parts name website phone facebook)
  = some_field name website phone facebook.
Proof.
  unfold fallback_fields, query_parts, some_field, given.
  destruct name as [[|? ?]|], website as [[|? ?]|],
           phone as [[|? ?]|], facebook as [[|? ?]|]; reflexivity.
Qed.

Lemma fallback_cases (name website phone facebook : option string) :
  let st := primary B name website phone facebook in
  gathered B name website phone facebook
  = if negb (nonempty (match_scores st))
       && some_field name website phone facebook
    then probe B (fallback_query name website phone facebook) 10
               (fun h => num_div A (_score h) (num_of_nat A 10)) st
    else st.
Proof.
  simpl. unfold gathered, fallback. rewrite fallback_guard.
  destruct (negb (nonempty (match_scores
                              (primary B name website phone facebook))));
    reflexivity.
Qed.

Lemma nonempty_false {T : Type} (l : list T) :
  negb (nonempty l) = true <-> l = [].
Proof. destruct l; simpl; split; congruence. Qed.

(** When the selection starts, the dict and the result list are those of
    the candidates. *)
Lemma gathered_extends (name website phone facebook : option string) :
  match_scores (gathered B name website phone facebook)
  = dict_absorb [] (candidates B name website phone facebook)
  /\ results (gathered B name website phone facebook)
     = map fst (candidates B name website phone facebook).
Proof.
  rewrite fallback_cases.
  destruct (primary_extends name website phone facebook)
    as (k & (M & R & I) & _).
  unfold candidates.
  destruct (negb (nonempty (match_scores
                              (primary B name website phone facebook))))
    eqn:E; simpl.
  - apply nonempty_false in E.
    assert (P : primary_candidates B name website phone facebook = [])
      by (apply primary_scores_empty, E).
    rewrite P in *. unfold fallback_candidates.
    destruct (some_field name website phone facebook).
    + destruct (probe_extends
                  (fallback_query name website phone facebook) 10
                  (fun h => num_div A (_score h) (num_of_nat A 10))
                  (primary B name website phone facebook))
        as (M' & R' & _).
      rewrite M', R', M, R. split; reflexivity.
    + rewrite M, R. split; reflexivity.
  - destruct (primary_candidates B name website phone facebook)
      as [|c cs] eqn:P.
    + exfalso. apply negb_false_iff in E. rewrite M in E. discriminate.
    + rewrite M, R. split; reflexivity.
Qed.

(** The log after the fallback step. *)
Lemma gathered_issued (name website phone facebook : option string) :
  let st := primary B name website phone facebook in
  issued (gathered B name website phone facebook)
  = (issued st
     ++ if negb (nonempty (match_scores st))
           && some_field name website phone facebook
        then [(fallback_query name website phone facebook, 10%nat)]
        else [])%list.
Proof.
  simpl. rewrite fallback_cases.
  destruct (negb (nonempty (match_scores
                              (primary B name website phone facebook)))
            && some_field name website phone facebook).
  - destruct (probe_extends
                (fallback_query name website phone facebook) 10
                (fun h => num_div A (_score h) (num_of_nat A 10))
                (primary B name website phone facebook))
      as (_ & _ & I). exact I.
  - rewrite app_nil_r. reflexivity.
Qed.

End Gather.
End Arithmetic.

End GatherFacts.

(** ** The matcher *)
Module MatcherFacts.
Import PyStr Normalizers Numbers Matcher Selection DictFacts MaxFacts.
Import GatherFacts.

Section Arithmetic.
Context {A : arith}.

Lemma dict_index_some (d : dict A) (k : string) (v : num A) :
  dict_index d k = Some v -> In (k, v) d.
Proof.
  induction d as [|[k0 v0] d IH]; simpl; [discriminate|].
  destruct (String.eqb_spec k0 k) as [->|N].
  - intros E. injection E as ->. left. reflexivity.
  - intros E. right. apply IH, E.
Qed.

(** What [select] returns is a result with a score of the dict attached. *)
Lemma select_some (st : mstate A) (r : CompanyRecord A) :
  select st = Some r ->
  exists src id t,
    In (id, t) (match_scores st) /\ In src (results st)
    /\ r = with_score src t.
Proof.
  unfold select. destruct (match_scores st) as [|first others] eqn:D;
    [discriminate|].
  set (id := fst (max_by_value first others)).
  destruct (find _ (results st)) as [src|] eqn:F; [|discriminate].
  destruct (dict_index (first :: others) id) as [t|] eqn:E; [|discriminate].
  intros H. injection H as <-. exists src, id, t.
  split; [apply dict_index_some, E|]. split; [|reflexivity].
  apply find_some in F. apply F.
Qed.

Section Properties.
Variable B : backend A.

(** C1: in every arithmetic whose comparisons are those of an order
    (IEEE 754 doubles among them), and when no total is a NaN:
    when the probes produce no candidate, [match_company] returns absent;
    when they produce some, it returns the first candidate record of the
    company [best] whose total is the greatest, the earliest such company
    in order of first hit, and the record carries that total as its
    [match_score].  The totals are the sums the code computes, each
    contribution added in candidate order with the rounding of the
    arithmetic. *)
Theorem match_company_returns_best
        (name website phone facebook : option string) :
  ordered A ->
  let cands := candidates B name website phone facebook in
  (forall id, In id (candidate_ids cands) -> comparable (total cands id)) ->
  (cands = [] -> fst (match_company B name website phone facebook) = None)
  /\ (cands <> [] ->
      exists best src,
        is_best cands best
        /\ (forall sc, In sc cands ->
              num_leb A (total cands (company_id (fst sc)))
                      (total cands best) = true)
        /\ record_of cands best = Some src
        /\ company_id src = best
        /\ fst (match_company B name website phone facebook)
           = Some (with_score src (total cands best))
        /\ company_id (with_score src (total cands best)) = best
        /\ match_score (with_score src (total cands best))
           = Some (total cands best)).
Proof.
  intros law cands Cmp. unfold match_company. cbn [fst].
  destruct (gathered_extends B name website phone facebook) as (M & R).
  fold cands in M, R.
  destruct (dict_of_candidates cands) as (K & ND & V).
  split.
  - intros E. unfold select. rewrite M, E. reflexivity.
  - intros NE. unfold select. rewrite M.
    destruct (dict_absorb [] cands) as [|first others] eqn:D.
    { exfalso. apply NE, dict_absorb_empty, D. }
    assert (Cd : forall x, In x (first :: others) -> comparable (snd x)).
    { intros [id v] I. cbn [snd]. rewrite (V _ _ I). apply Cmp.
      rewrite <- K. unfold keys. change id with (fst (id, v)).
      apply in_map, I. }
    destruct (max_by_value_first law first others Cd)
      as (before & after & S & Hb & Ha).
    destruct (max_by_value first others) as [best v] eqn:Mx.
    cbn [fst snd] in Hb, Ha |- *.
    assert (Iv : In (best, v) (first :: others))
      by (rewrite S; apply in_or_app; right; left; reflexivity).
    assert (Ev : v = total cands best) by (apply V, Iv).
    assert (Ids : candidate_ids cands
                  = (keys before ++ best :: keys after)%list).
    { rewrite <- K, S. unfold keys. rewrite map_app. reflexivity. }
    assert (Best : is_best cands best).
    { exists (keys before), (keys after). split; [exact Ids|]. split.
      - intros id I. apply in_map_iff in I as ([id' v'] & <- & I).
        simpl. rewrite <- Ev.
        replace (total cands id') with v'.
        + apply (Hb _ I).
        + apply V. rewrite S. apply in_or_app. left. exact I.
      - intros id I. apply in_map_iff in I as ([id' v'] & <- & I).
        simpl. rewrite <- Ev.
        replace (total cands id') with v'.
        + apply (Ha _ I).
        + apply V. rewrite S. apply in_or_app. right. right. exact I. }
    assert (Top : forall sc, In sc cands ->
              num_leb A (total cands (company_id (fst sc)))
                      (total cands best) = true).
    { intros sc I. destruct Best as (b & a & E & Lb & La).
      destruct (first_seen_covers cands [] sc I) as [[]|H].
      fold (candidate_ids cands) in H. rewrite E in H.
      apply in_app_or in H as [H|[<-|H]].
      - apply (order_lt_le A law), Lb, H.
      - apply Cmp. rewrite E. apply in_or_app. right. left. reflexivity.
      - apply La, H. }
    rewrite R. fold (record_of cands best).
    destruct (record_of cands best) as [src|] eqn:F.
    + assert (Id : company_id src = best).
      { unfold record_of in F. apply find_some in F as [_ F].
        apply String.eqb_eq, F. }
      rewrite (dict_index_in _ _ _ ND Iv), Ev.
      exists best, src. repeat split; try assumption.
    + exfalso.
      assert (I : In best (candidate_ids cands))
        by (rewrite Ids; apply in_or_app; right; left; reflexivity).
      apply first_seen_named in I as (sc & I & E).
      unfold record_of in F.
      pose proof (find_none _ _ F (fst sc) (in_map fst _ _ I)) as N.
      simpl in N. rewrite E, String.eqb_refl in N. discriminate.
Qed.

Lemma primary_has_no_multi_match
      (name website phone facebook : option string) :
  existsb is_multi_match
          (issued (primary B name website phone facebook)) = false.
Proof.
  destruct (primary_extends B name website phone facebook)
    as (k & (_ & _ & I) & N).
  rewrite I. exact N.
Qed.

(** C2, as the code has it: the fallback query is sent exactly when the
    four probes left the score dict empty, which is when they yielded no
    candidate, and some field of the query is present; a hit of the name
    probe, whatever its contribution, keeps the fallback from running. *)
Theorem fallback_runs_iff (name website phone facebook : option string) :
  (fallback_ran B name website phone facebook = true
   <-> match_scores (primary B name website phone facebook) = []
       /\ some_field name website phone facebook = true)
  /\ (match_scores (primary B name website phone facebook) = []
      <-> primary_candidates B name website phone facebook = [])
  /\ (forall n, name = Some n -> n <> "" ->
                es_search B (name_query n) 10 <> [] ->
                fallback_ran B name website phone facebook = false).
Proof.
  assert (Ran : fallback_ran B name website phone facebook = true
                <-> match_scores (primary B name website phone facebook)
                    = []
                    /\ some_field name website phone facebook = true).
  { unfold fallback_ran, match_company. simpl.
    rewrite gathered_issued, existsb_app, primary_has_no_multi_match.
    cbn [orb].
    pose proof (nonempty_false
                  (match_scores (primary B name website phone facebook)))
      as NF.
    destruct (negb (nonempty (match_scores
                                (primary B name website phone facebook))));
      destruct (some_field name website phone facebook); cbn;
      intuition congruence. }
  split; [exact Ran|]. split; [apply primary_scores_empty|].
  intros n -> NE Hits.
  apply not_true_is_false. intros F. apply Ran in F as [F _].
  apply primary_scores_empty in F. unfold primary_candidates in F.
  apply app_eq_nil in F as [_ F]. apply app_eq_nil in F as [_ F].
  apply app_eq_nil in F as [_ F]. unfold name_candidates in F.
  destruct n as [|c n]; [congruence|]. simpl in F.
  unfold hits_of in F. apply map_eq_nil in F. exact (Hits F).
Qed.

(** C10: with the four fields absent no probe runs, the guard of the
    fallback is false, no query is sent and the answer is absent. *)
Theorem match_company_all_absent :
  match_company B None None None None = (None, [])
  /\ issued (primary B None None None None) = []
  /\ fallback_fields None None None None = []
  /\ query_parts None None None None = [].
Proof. repeat split; reflexivity. Qed.

(** The same for fields that are present but empty. *)
Lemma match_company_no_field (name website phone facebook : option string) :
  some_field name website phone facebook = false ->
  match_company B name website phone facebook = (None, []).
Proof.
  unfold some_field.
  destruct name as [[|? ?]|], website as [[|? ?]|],
           phone as [[|? ?]|], facebook as [[|? ?]|];
    try discriminate; reflexivity.
Qed.

End Properties.
End Arithmetic.

(** The scenarios of the specification on the small index. *)
Example scenario_website :
  match_company Demo.index None (Some "https://www.acme.com/about") None None
  = (Some (with_score Demo.acme 10%Q), [(Term "domain" "acme.com", 5%nat)]).
Proof. reflexivity. Qed.

(** Two companies share the number: the first hit wins the tie. *)
Example scenario_phone_tie :
  fst (match_company Demo.index None None (Some "+1 (415) 555-0123") None)
  = Some (with_score Demo.acme 8%Q)
  /\ candidate_ids
       (candidates Demo.index None None (Some "+1 (415) 555-0123") None)
     = ["0"; "1"].
Proof. split; reflexivity. Qed.

Example scenario_website_and_phone :
  fst (match_company Demo.index None (Some "acme.com") (Some "4155550123")
                     None)
  = Some (with_score Demo.acme 18%Q).
Proof. reflexivity. Qed.

Example scenario_no_match :
  match_company Demo.index (Some "Zzz") (Some "nobody.test") None None
  = (None,
     [(Term "domain" "nobody.test", 5%nat);
      (name_query "Zzz", 10%nat);
      (MultiMatch "Zzz nobody.test"
                  ["company_commercial_name^3"; "company_legal_name^2";
                   "company_all_names"; "website"], 10%nat)]).
Proof. reflexivity. Qed.

(** C2 as stated fails for the query without fields: the four probes yield
    nothing, and the fallback does not run either. *)
Lemma fallback_skipped_without_fields :
  match_scores (primary Demo.index None None None None) = []
  /\ primary_candidates Demo.index None None None None = []
  /\ fallback_ran Demo.index None None None None = false.
Proof. repeat split; reflexivity. Qed.

Lemma fallback_runs_iff_witness :
  (Some "ab" = Some "ab" /\ "ab" <> ""
   /\ es_search Demo.index (name_query "ab") 10 <> [])
  /\ fallback_ran Demo.index (Some "ab") None None None = false
  /\ option_map match_score
                (fst (match_company Demo.index (Some "ab") None None None))
     = Some (Some 0%Q).
Proof.
  assert (H : es_search Demo.index (name_query "ab") 10 <> [])
    by (vm_compute; discriminate).
  assert (N : "ab" <> "") by discriminate.
  split; [repeat split; assumption|]. split.
  - pose proof (fallback_runs_iff Demo.index (Some "ab") None None None)
      as (_ & _ & S).
    exact (S "ab" eq_refl N H).
  - reflexivity.
Defined.

End MatcherFacts.

(** ** Scores are sums of non-negative contributions *)
Module ScoreFacts.
Import PyStr Normalizers Numbers Matcher Selection DictFacts MaxFacts.
Import GatherFacts.
Import MatcherFacts.
Local Open Scope Q_scope.

Lemma inject_nat_nonneg (n : nat) : 0 <= inject_Z (Z.of_nat n).
Proof. change 0 with (inject_Z 0). rewrite <- Zle_Qle. lia. Qed.

Lemma total_from_nonneg (cands : scored exact) (start : Q) (id : string) :
  0 <= start -> (forall sc, In sc cands -> 0 <= snd sc) ->
  0 <= total_from start cands id.
Proof.
  revert start. induction cands as [|sc cands IH]; intros start S C;
    [exact S|].
  unfold total_from in *. simpl. apply IH.
  - destruct (String.eqb _ id); [|exact S].
    pose proof (C sc (or_introl eq_refl)). rationals. lra.
  - intros sc' I. apply C. right. exact I.
Qed.

Section Scores.
Variable B : backend exact.

Lemma similarity_le_1 (name field : string) : similarity B name field <= 1.
Proof.
  unfold similarity. rationals.
  assert (0 <= inject_Z (Z.of_nat (distance B (lower name) (lower field)))
               / inject_Z (Z.of_nat (Nat.max (String.length name)
                                             (String.length field)))).
  { unfold Qdiv. apply Qmult_le_0_compat; [apply inject_nat_nonneg|].
    apply Qinv_le_0_compat, inject_nat_nonneg. }
  lra.
Qed.

Lemma best_with_bounds (name : string) (best : Q) (field : option string) :
  0 <= best <= 1 -> 0 <= best_with B name best field <= 1.
Proof.
  intros H. unfold best_with. destruct (truthy field); [|exact H].
  destruct field as [f|]; [|exact H].
  apply py_max_bounds; [exact H|apply similarity_le_1].
Qed.

(** The contribution of a name hit lies between 0 and 5. *)
Lemma name_score_bounds (name : string) (h : hit exact) :
  0 <= name_score B name h <= 5.
Proof.
  unfold name_score. cbn [fold_left].
  assert (H : 0 <= best_with B name
                     (best_with B name 0
                                (company_commercial_name (_source h)))
                     (company_legal_name (_source h)) <= 1).
  { apply best_with_bounds, best_with_bounds. lra. }
  rationals. lra.
Qed.

Lemma domain_contribution (website : option string) sc :
  In sc (domain_candidates B website) -> snd sc == 10.
Proof.
  unfold domain_candidates.
  destruct (_extract_domain B website); [|intros []].
  destruct (_ && _); [|intros []].
  intros I. apply hits_of_in in I as (h & _ & ->). reflexivity.
Qed.

Lemma phone_contribution (phone : option string) sc :
  In sc (phone_candidates B phone) -> snd sc == 8.
Proof.
  unfold phone_candidates.
  destruct (_normalize_phone phone); [|intros []].
  destruct (_ && _); [|intros []].
  intros I. apply hits_of_in in I as (h & _ & ->). reflexivity.
Qed.

Lemma facebook_contribution (facebook : option string) sc :
  In sc (facebook_candidates B facebook) -> snd sc == 6.
Proof.
  unfold facebook_candidates.
  destruct (_normalize_facebook_url facebook); [|intros []].
  destruct (_ && _); [|intros []].
  intros I. apply hits_of_in in I as (h & _ & ->). reflexivity.
Qed.

Lemma name_contribution (name : option string) sc :
  In sc (name_candidates B name) -> 0 <= snd sc <= 5.
Proof.
  unfold name_candidates. destruct name as [n|]; [|intros []].
  destruct (truthy (Some n)); [|intros []].
  intros I. apply hits_of_in in I as (h & _ & ->).
  apply name_score_bounds.
Qed.

Lemma primary_contribution (name website phone facebook : option string)
      sc :
  In sc (primary_candidates B name website phone facebook) ->
  0 <= snd sc.
Proof.
  unfold primary_candidates. intros I.
  apply in_app_or in I as [I|I];
    [apply domain_contribution in I; lra|].
  apply in_app_or in I as [I|I];
    [apply phone_contribution in I; lra|].
  apply in_app_or in I as [I|I];
    [apply facebook_contribution in I; lra|].
  apply name_contribution in I. lra.
Qed.

(** The index store scores its hits from zero upwards. *)
Hypothesis store_scores :
  forall q size h, In h (es_search B q size) -> 0 <= _score h.

Lemma fallback_contribution (name website phone facebook : option string)
      sc :
  In sc (fallback_candidates B name website phone facebook) ->
  0 <= snd sc.
Proof.
  unfold fallback_candidates.
  destruct (some_field name website phone facebook); [|intros []].
  intros I. apply hits_of_in in I as (h & I & ->). cbn [snd].
  pose proof (store_scores _ _ _ I).
  rationals. unfold Qdiv. apply Qmult_le_0_compat; [assumption|].
  apply Qinv_le_0_compat. lra.
Qed.

Lemma candidate_contribution (name website phone facebook : option string)
      sc :
  In sc (candidates B name website phone facebook) -> 0 <= snd sc.
Proof.
  unfold candidates.
  destruct (primary_candidates B name website phone facebook)
    as [|c cs] eqn:P.
  - apply fallback_contribution.
  - rewrite <- P. apply primary_contribution.
Qed.

(** C3: a domain hit adds 10, a phone hit 8, a facebook hit 6, a name hit
    between 0 and 5, a fallback hit a tenth of its store score; so every
    contribution is at least 0, and so are the total of every company,
    every score in the dict and the [match_score] of the record that is
    returned. *)
Theorem scores_nonnegative (name website phone facebook : option string) :
  let cands := candidates B name website phone facebook in
  (forall sc, In sc (domain_candidates B website) -> snd sc == 10)
  /\ (forall sc, In sc (phone_candidates B phone) -> snd sc == 8)
  /\ (forall sc, In sc (facebook_candidates B facebook) -> snd sc == 6)
  /\ (forall n h, 0 <= name_score B n h <= 5)
  /\ (forall sc, In sc cands -> 0 <= snd sc)
  /\ (forall id, 0 <= total cands id)
  /\ (forall id v,
        In (id, v)
           (match_scores (gathered B name website phone facebook)) ->
        0 <= v)
  /\ (forall r, fst (match_company B name website phone facebook) = Some r ->
                exists t, match_score r = Some t /\ 0 <= t).
Proof.
  intros cands.
  assert (T : forall id, 0 <= total cands id).
  { intros id. apply total_from_nonneg; [rationals; lra|].
    apply candidate_contribution. }
  assert (D : forall id v,
             In (id, v)
                (match_scores (gathered B name website phone facebook)) ->
             0 <= v).
  { intros id v I.
    destruct (gathered_extends B name website phone facebook) as (M & _).
    rewrite M in I.
    destruct (dict_of_candidates (candidates B name website phone facebook))
      as (_ & _ & V).
    rewrite (V _ _ I). apply T. }
  split; [apply domain_contribution|].
  split; [apply phone_contribution|].
  split; [apply facebook_contribution|].
  split; [apply name_score_bounds|].
  split; [apply candidate_contribution|].
  split; [exact T|]. split; [exact D|].
  intros r E. unfold match_company in E. cbn [fst] in E.
  apply select_some in E as (src & id & t & I & _ & ->).
  exists t. split; [reflexivity|]. exact (D _ _ I).
Qed.

End Scores.

Lemma chatty_store_scores (q : es_query) (size : nat) (h : hit exact) :
  In h (es_search Demo.chatty q size) -> 0 <= _score h.
Proof. intros [<-|[<-|[]]]; simpl; lra. Qed.

Lemma scores_nonnegative_witness :
  (forall q size h, In h (es_search Demo.chatty q size) -> 0 <= _score h)
  /\ (exists t,
        option_map match_score
                   (fst (match_company Demo.chatty None None (Some "abc")
                                       None))
        = Some (Some t)
        /\ 0 <= t).
Proof.
  split; [exact chatty_store_scores|].
  pose proof (scores_nonnegative Demo.chatty chatty_store_scores
                                 None None (Some "abc") None)
    as (_ & _ & _ & _ & _ & _ & _ & R).
  destruct (R (with_score Demo.acme (35 / 10)) eq_refl) as (t & E & P).
  exists t. split; [|exact P].
  simpl in E |- *. injection E as <-. reflexivity.
Defined.

End ScoreFacts.

(** ** The comparisons of IEEE 754 doubles *)
Module FloatFacts.
Import Numbers FloatOrder.
Import SpecFloat FloatOps FloatAxioms.
Local Open Scope Z_scope.

Lemma SFcompare_rank (x y : spec_float) :
  is_nan x = false -> is_nan y = false ->
  SFcompare x y = Some (lex (rank x) (rank y)).
Proof.
  destruct x as [sx|sx| |sx mx ex], y as [sy|sy| |sy my ey];
    try discriminate; intros _ _;
    try (destruct sx; reflexivity);
    try (destruct sy; reflexivity);
    try (destruct sx, sy; reflexivity).
  destruct sx, sy; try reflexivity; unfold lex; cbn [SFcompare rank fst snd].
  rewrite Z.compare_opp, Z.compare_antisym.
  change (Z.neg mx ?= Z.neg my) with (CompOpp (mx ?= my)%positive).
  unfold Pos.compare.
  destruct (ey ?= ex); reflexivity.
Qed.

Lemma lex_lt (p q : Z * (Z * Z)) :
  lex p q = Lt
  <-> fst p < fst q
      \/ (fst p = fst q
          /\ (fst (snd p) < fst (snd q)
              \/ (fst (snd p) = fst (snd q) /\ snd (snd p) < snd (snd q)))).
Proof.
  unfold lex.
  destruct (Z.compare_spec (fst p) (fst q));
    destruct (Z.compare_spec (fst (snd p)) (fst (snd q)));
    destruct (Z.compare_spec (snd (snd p)) (snd (snd q)));
    split; intros G; try discriminate G; try reflexivity; lia.
Qed.

Lemma lex_gt (p q : Z * (Z * Z)) : lex p q = Gt <-> lex q p = Lt.
Proof.
  rewrite lex_lt. unfold lex.
  destruct (Z.compare_spec (fst p) (fst q));
    destruct (Z.compare_spec (fst (snd p)) (fst (snd q)));
    destruct (Z.compare_spec (snd (snd p)) (snd (snd q)));
    split; intros G; try discriminate G; try reflexivity; lia.
Qed.

Lemma SFleb_self (x : spec_float) : SFleb x x = true -> is_nan x = false.
Proof. destruct x; [reflexivity|reflexivity|discriminate|reflexivity]. Qed.

Lemma SFltb_not_nan (x y : spec_float) :
  SFltb x y = true -> is_nan x = false /\ is_nan y = false.
Proof.
  destruct x, y; try discriminate; split; reflexivity.
Qed.

Lemma SFleb_not_nan (x y : spec_float) :
  SFleb x y = true -> is_nan x = false /\ is_nan y = false.
Proof.
  destruct x, y; try discriminate; split; reflexivity.
Qed.

Lemma SFltb_lex (x y : spec_float) :
  is_nan x = false -> is_nan y = false ->
  SFltb x y = true <-> lex (rank x) (rank y) = Lt.
Proof.
  intros X Y. unfold SFltb. rewrite (SFcompare_rank x y X Y).
  destruct (lex (rank x) (rank y)); split; congruence.
Qed.

Lemma SFleb_lex (x y : spec_float) :
  is_nan x = false -> is_nan y = false ->
  SFleb x y = true <-> lex (rank x) (rank y) <> Gt.
Proof.
  intros X Y. unfold SFleb. rewrite (SFcompare_rank x y X Y).
  destruct (lex (rank x) (rank y)); split; congruence.
Qed.

(** The comparisons of binary64 are those of an order on the floats that
    are not NaN. *)
Lemma binary64_ordered : ordered binary64.
Proof.
  split; unfold comparable; cbn [num num_ltb num_leb binary64];
    intros x y; [|intros z|intros z|];
    rewrite ?ltb_spec, ?leb_spec;
    set (a := Prim2SF x); set (b := Prim2SF y).
  - intros X Y H.
    apply SFleb_self in X, Y.
    apply (SFleb_lex b a Y X). rewrite lex_gt. intros L.
    apply (SFltb_lex a b X Y) in L. congruence.
  - set (c := Prim2SF z). intros H1 H2.
    destruct (SFltb_not_nan _ _ H1) as (X & Y).
    destruct (SFltb_not_nan _ _ H2) as (_ & Z).
    apply (SFltb_lex a b X Y) in H1. apply (SFltb_lex b c Y Z) in H2.
    apply (SFltb_lex a c X Z). rewrite lex_lt in *. lia.
  - set (c := Prim2SF z). intros H1 H2.
    destruct (SFleb_not_nan _ _ H1) as (X & Y).
    destruct (SFltb_not_nan _ _ H2) as (_ & Z).
    apply (SFleb_lex a b X Y) in H1. apply (SFltb_lex b c Y Z) in H2.
    apply (SFltb_lex a c X Z). rewrite lex_gt in H1.
    rewrite lex_lt in *. lia.
  - intros H. destruct (SFltb_not_nan _ _ H) as (X & Y).
    apply (SFltb_lex a b X Y) in H. apply (SFleb_lex a b X Y).
    rewrite lex_gt. rewrite lex_lt in *. lia.
Qed.

End FloatFacts.

(** ** Totals that tie before rounding *)
Module RoundingFacts.
Import PyStr Numbers Matcher Selection.
Import MaxFacts MatcherFacts FloatFacts.

Example levenshtein_by_rows :
  Tie.levenshtein "kitten" "sitting" = Demo.levenshtein "kitten" "sitting"
  /\ Tie.levenshtein "northwind trade" "northwin" = 7%nat
  /\ Tie.levenshtein "northwind trade" "northwind trada" = 1%nat.
Proof. repeat split; vm_compute; reflexivity. Qed.

(** Without rounding the two companies have the same total, 32/3, and the
    one found first is returned. *)
Example tie_without_rounding :
  Qeq (total (A:=exact) Tie.contenders "0") (total (A:=exact) Tie.contenders "1")
  /\ option_map company_id (Tie.answer (A:=exact)) = Some "0".
Proof. split; vm_compute; reflexivity. Qed.

(** In doubles the first total is the smaller one, by one unit in the
    last place, and the company found second is returned. *)
Example tie_broken_by_rounding :
  num_ltb binary64 (total Tie.contenders "0") (total Tie.contenders "1")
  = true
  /\ option_map company_id (Tie.answer (A:=binary64)) = Some "1".
Proof. split; vm_compute; reflexivity. Qed.

Lemma tie_totals_comparable (id : string) :
  In id (candidate_ids (Tie.contenders (A:=binary64))) ->
  comparable (A:=binary64) (total Tie.contenders id).
Proof.
  intros I. vm_compute in I.
  destruct I as [<-|[<-|[]]]; vm_compute; reflexivity.
Qed.

Lemma match_company_returns_best_witness :
  ordered binary64
  /\ (forall id, In id (candidate_ids (Tie.contenders (A:=binary64))) ->
                 comparable (A:=binary64) (total Tie.contenders id))
  /\ exists best src,
       is_best (Tie.contenders (A:=binary64)) best
       /\ Tie.answer (A:=binary64)
          = Some (with_score src (total Tie.contenders best))
       /\ best = "1".
Proof.
  split; [exact binary64_ordered|]. split; [exact tie_totals_comparable|].
  destruct (match_company_returns_best
              Tie.index (Some "Northwind Trade") None
              (Some "+1 415 555 0123")
              (Some "https://www.facebook.com/Northwind")
              binary64_ordered tie_totals_comparable) as (_ & H).
  destruct H as (best & src & Best & _ & _ & Id & Res & _).
  { vm_compute. discriminate. }
  exists best, src. split; [exact Best|]. split; [exact Res|].
  assert (E : option_map company_id (Tie.answer (A:=binary64)) = Some "1")
    by (vm_compute; reflexivity).
  unfold Tie.answer in E. rewrite Res in E. cbn in E.
  injection E as E. rewrite <- Id. exact E.
Defined.

End RoundingFacts.

(** ** The log of queries and the origin of the answer *)
Module LogFacts.
Import PyStr Normalizers Numbers Matcher Selection QueryLog.
Import DictFacts MaxFacts GatherFacts MatcherFacts ScoreFacts.

Section Log.
Context {A : arith}.
Variable B : backend A.

Ltac idle := apply extends_refl.
Ltac sent := apply probe_extends.

Lemma domain_probe_log (website : option string) (st : mstate A) :
  extends st (domain_probe B website st) (domain_candidates B website)
          (domain_calls B website).
Proof.
  unfold domain_probe, domain_candidates, domain_calls.
  destruct (truthy website); cbn [andb].
  - destruct (_extract_domain B website) as [d|]; [|idle].
    destruct (truthy (Some d)); [sent|idle].
  - destruct (_extract_domain B website); idle.
Qed.

Lemma phone_probe_log (phone : option string) (st : mstate A) :
  extends st (phone_probe B phone st) (phone_candidates B phone)
          (phone_calls phone).
Proof.
  unfold phone_probe, phone_candidates, phone_calls.
  destruct (truthy phone); cbn [andb].
  - destruct (_normalize_phone phone) as [d|]; [|idle].
    destruct (truthy (Some d)); [sent|idle].
  - destruct (_normalize_phone phone); idle.
Qed.

Lemma facebook_probe_log (facebook : option string) (st : mstate A) :
  extends st (facebook_probe B facebook st) (facebook_candidates B facebook)
          (facebook_calls facebook).
Proof.
  unfold facebook_probe, facebook_candidates, facebook_calls.
  destruct (truthy facebook); cbn [andb].
  - destruct (_normalize_facebook_url facebook) as [d|]; [|idle].
    destruct (truthy (Some d)); [sent|idle].
  - destruct (_normalize_facebook_url facebook); idle.
Qed.

Lemma name_probe_log (name : option string) (st : mstate A) :
  extends st (name_probe B name st) (name_candidates B name)
          (name_calls name).
Proof.
  unfold name_probe, name_candidates, name_calls.
  destruct name as [n|]; [|destruct (truthy None); idle].
  destruct (truthy (Some n)); [sent|idle].
Qed.

Lemma primary_log (name website phone facebook : option string) :
  issued (primary B name website phone facebook)
  = (domain_calls B website ++ phone_calls phone
     ++ facebook_calls facebook ++ name_calls name)%list.
Proof.
  unfold primary.
  pose proof (domain_probe_log website initial) as E1.
  pose proof (phone_probe_log phone (domain_probe B website initial)) as E2.
  pose proof (facebook_probe_log facebook
                (phone_probe B phone (domain_probe B website initial)))
    as E3.
  pose proof (name_probe_log name
                (facebook_probe B facebook
                   (phone_probe B phone (domain_probe B website initial))))
    as E4.
  destruct (extends_trans _ _ _ _ _ _ _ E1
              (extends_trans _ _ _ _ _ _ _ E2
                 (extends_trans _ _ _ _ _ _ _ E3 E4))) as (_ & _ & I).
  exact I.
Qed.

Lemma length_at_most_one {T : Type} (b : bool) (x : T) :
  (List.length (if b then [x] else []) <= 1)%nat.
Proof. destruct b; simpl; lia. Qed.

Lemma query_log_expected (name website phone facebook : option string) :
  snd (match_company B name website phone facebook)
  = expected_calls B name website phone facebook.
Proof.
  unfold match_company. cbn [snd].
  rewrite gathered_issued, primary_log. unfold expected_calls.
  rewrite <- !app_assoc. do 4 f_equal. unfold fallback_calls.
  pose proof (primary_scores_empty B name website phone facebook) as PE.
  destruct (primary_candidates B name website phone facebook) as [|c cs].
  - rewrite (proj2 PE eq_refl). reflexivity.
  - destruct (match_scores (primary B name website phone facebook));
      [|reflexivity].
    destruct PE as [PE _]. specialize (PE eq_refl). discriminate.
Qed.

(** X1: the queries of one call are, in this order, at most one term query
    on the domain (top 5), one match on the normalized phone (top 5), one
    match on the normalized facebook handle (top 5), one fuzzy name query
    (top 10) and the multi-match fallback (top 10); so never more than
    five, the name query is sent exactly when a name is present, and a
    fallback query is the last of the log. *)
Theorem match_company_query_log
        (name website phone facebook : option string) :
  snd (match_company B name website phone facebook)
  = expected_calls B name website phone facebook
  /\ (List.length (snd (match_company B name website phone facebook)) <= 5)%nat
  /\ (In (name_calls name) [[]; match name with
                                 | Some n => [(name_query n, 10%nat)]
                                 | None => []
                                 end]
      /\ (name_calls name <> [] <-> truthy name = true))
  /\ (forall call, In call (snd (match_company B name website phone facebook)) ->
                   snd call = 5%nat \/ snd call = 10%nat).
Proof.
  pose proof (query_log_expected name website phone facebook) as E.
  split; [exact E|]. split; [|split].
  - rewrite E. unfold expected_calls. rewrite !length_app.
    assert (List.length (domain_calls B website) <= 1)%nat.
    { unfold domain_calls. destruct (_extract_domain B website);
        [apply length_at_most_one|simpl; lia]. }
    assert (List.length (phone_calls phone) <= 1)%nat.
    { unfold phone_calls. destruct (_normalize_phone phone);
        [apply length_at_most_one|simpl; lia]. }
    assert (List.length (facebook_calls facebook) <= 1)%nat.
    { unfold facebook_calls. destruct (_normalize_facebook_url facebook);
        [apply length_at_most_one|simpl; lia]. }
    assert (List.length (name_calls name) <= 1)%nat.
    { unfold name_calls. destruct name; [apply length_at_most_one|simpl; lia]. }
    assert (List.length (fallback_calls B name website phone facebook) <= 1)%nat.
    { unfold fallback_calls.
      destruct (primary_candidates B name website phone facebook);
        [apply length_at_most_one|simpl; lia]. }
    lia.
  - unfold name_calls. destruct name as [[|c n]|]; simpl.
    + split; [left; reflexivity|]. split; [congruence|discriminate].
    + split; [right; left; reflexivity|]. split; [reflexivity|discriminate].
    + split; [left; reflexivity|]. split; [congruence|discriminate].
  - intros call I. rewrite E in I. unfold expected_calls in I.
    repeat (apply in_app_or in I as [I|I]).
    + unfold domain_calls in I. destruct (_extract_domain B website); [|destruct I].
      destruct (_ && _); [|destruct I]. destruct I as [<-|[]]. left. reflexivity.
    + unfold phone_calls in I. destruct (_normalize_phone phone); [|destruct I].
      destruct (_ && _); [|destruct I]. destruct I as [<-|[]]. left. reflexivity.
    + unfold facebook_calls in I.
      destruct (_normalize_facebook_url facebook); [|destruct I].
      destruct (_ && _); [|destruct I]. destruct I as [<-|[]]. left. reflexivity.
    + unfold name_calls in I. destruct name; [|destruct I].
      destruct (truthy _); [|destruct I]. destruct I as [<-|[]]. right. reflexivity.
    + unfold fallback_calls in I.
      destruct (primary_candidates B name website phone facebook); [|destruct I].
      destruct (some_field _ _ _ _); [|destruct I].
      destruct I as [<-|[]]. right. reflexivity.
Qed.

End Log.
End LogFacts.

(** ** Where the answer comes from and how much it scores *)
Module AnswerFacts.
Import PyStr Normalizers Numbers Matcher Selection QueryLog.
Import DictFacts MaxFacts GatherFacts MatcherFacts ScoreFacts LogFacts.
Local Open Scope Q_scope.

Lemma total_from_app (start : Q) (a b : scored exact) (id : string) :
  total_from start (a ++ b)%list id = total_from (total_from start a id) b id.
Proof. unfold total_from. apply fold_left_app. Qed.

Lemma total_from_grows (cands : scored exact) (start : Q) (id : string) :
  (forall sc, In sc cands -> 0 <= snd sc) ->
  start <= total_from start cands id.
Proof.
  revert start. induction cands as [|sc cands IH]; intros start C.
  - apply Qle_refl.
  - unfold total_from in *. simpl.
    assert (C' : forall sc', In sc' cands -> 0 <= snd sc')
      by (intros sc' I; apply C; right; exact I).
    pose proof (C sc (or_introl eq_refl)) as C0.
    destruct (String.eqb _ id).
    + apply Qle_trans with (start + snd sc); [lra|apply IH, C'].
    + apply IH, C'.
Qed.

(** A total is at least what one hit of its company contributed. *)
Lemma total_from_member (cands : scored exact) (start : Q)
      (sc : CompanyRecord exact * num exact) :
  (forall sc', In sc' cands -> 0 <= snd sc') -> In sc cands ->
  start + snd sc <= total_from start cands (company_id (fst sc)).
Proof.
  revert start. induction cands as [|sc0 cands IH]; intros start C I;
    [destruct I|].
  assert (C' : forall sc', In sc' cands -> 0 <= snd sc')
    by (intros sc' I'; apply C; right; exact I').
  pose proof (C sc0 (or_introl eq_refl)) as C0.
  change (total_from start (sc0 :: cands) (company_id (fst sc)))
    with (total_from
            (if String.eqb (company_id (fst sc0)) (company_id (fst sc))
             then start + snd sc0 else start)
            cands (company_id (fst sc))).
  destruct I as [->|I].
  - rewrite String.eqb_refl. apply total_from_grows, C'.
  - destruct (String.eqb (company_id (fst sc0)) (company_id (fst sc))).
    + apply Qle_trans with (start + snd sc0 + snd sc); [lra|apply IH; assumption].
    + apply IH; assumption.
Qed.

Section Origin.
Context {A : arith}.
Variable B : backend A.

(** Every candidate is a hit of a query of the log. *)
Lemma candidate_origin (name website phone facebook : option string)
      (sc : CompanyRecord A * num A) :
  In sc (candidates B name website phone facebook) ->
  exists q size h,
    In (q, size) (expected_calls B name website phone facebook)
    /\ In h (es_search B q size) /\ fst sc = _source h.
Proof.
  unfold candidates, expected_calls, fallback_calls.
  destruct (primary_candidates B name website phone facebook) as [|c cs] eqn:P.
  - unfold fallback_candidates.
    destruct (some_field name website phone facebook); [|intros []].
    intros I. apply hits_of_in in I as (h & I & ->).
    exists (fallback_query name website phone facebook), 10%nat, h.
    split; [|split; [exact I|reflexivity]].
    do 4 (apply in_or_app; right). left. reflexivity.
  - rewrite <- P. unfold primary_candidates. intros I.
    apply in_app_or in I as [I|I].
    { unfold domain_candidates in I. unfold domain_calls.
      destruct (_extract_domain B website) as [d|]; [|destruct I].
      destruct (_ && _); [|destruct I].
      apply hits_of_in in I as (h & I & ->).
      exists (Term "domain" d), 5%nat, h.
      split; [|split; [exact I|reflexivity]].
      apply in_or_app. left. left. reflexivity. }
    apply in_app_or in I as [I|I].
    { unfold phone_candidates in I. unfold phone_calls.
      destruct (_normalize_phone phone) as [d|]; [|destruct I].
      destruct (_ && _); [|destruct I].
      apply hits_of_in in I as (h & I & ->).
      exists (Match "phones_normalized" d), 5%nat, h.
      split; [|split; [exact I|reflexivity]].
      apply in_or_app. right. apply in_or_app. left. left. reflexivity. }
    apply in_app_or in I as [I|I].
    { unfold facebook_candidates in I. unfold facebook_calls.
      destruct (_normalize_facebook_url facebook) as [d|]; [|destruct I].
      destruct (_ && _); [|destruct I].
      apply hits_of_in in I as (h & I & ->).
      exists (Match "facebook_links_normalized" d), 5%nat, h.
      split; [|split; [exact I|reflexivity]].
      do 2 (apply in_or_app; right). apply in_or_app. left. left.
      reflexivity. }
    unfold name_candidates in I. unfold name_calls.
    destruct name as [n|]; [|destruct I].
    destruct (truthy (Some n)); [|destruct I].
    apply hits_of_in in I as (h & I & ->).
    exists (name_query n), 10%nat, h.
    split; [|split; [exact I|reflexivity]].
    do 3 (apply in_or_app; right). apply in_or_app. left. left. reflexivity.
Qed.

(** X2: a record that [match_company] returns is the [_source] of a hit
    that the index gave to one of the queries of this call, with nothing
    changed but the [match_score] set on it. *)
Theorem match_company_returns_a_hit
        (name website phone facebook : option string) (r : CompanyRecord A) :
  fst (match_company B name website phone facebook) = Some r ->
  exists q size h t,
    In (q, size) (snd (match_company B name website phone facebook))
    /\ In h (es_search B q size)
    /\ r = with_score (_source h) t
    /\ company_id r = company_id (_source h)
    /\ Matcher.website r = Matcher.website (_source h)
    /\ Matcher.domain r = Matcher.domain (_source h)
    /\ company_commercial_name r = company_commercial_name (_source h)
    /\ company_legal_name r = company_legal_name (_source h)
    /\ other_fields r = other_fields (_source h)
    /\ match_score r = Some t.
Proof.
  intros E. unfold match_company in E. cbn [fst] in E.
  apply select_some in E as (src & id & t & _ & I & ->).
  destruct (gathered_extends B name website phone facebook) as (_ & R).
  rewrite R in I. apply in_map_iff in I as (sc & <- & I).
  apply candidate_origin in I as (q & size & h & L & H & S).
  exists q, size, h, t. rewrite query_log_expected, S.
  repeat split; assumption.
Qed.

End Origin.

Section Answer.
Variable B : backend exact.

(** With candidates, the answer is a candidate record, and its score is at
    least the total of every candidate company. *)
Lemma gathered_answer (name website phone facebook : option string) :
  candidates B name website phone facebook <> [] ->
  exists src t,
    fst (match_company B name website phone facebook)
    = Some (with_score src t)
    /\ forall sc, In sc (candidates B name website phone facebook) ->
                  total (candidates B name website phone facebook)
                        (company_id (fst sc)) <= t.
Proof.
  set (cands := candidates B name website phone facebook). intros NE.
  unfold match_company, select. cbn [fst].
  destruct (gathered_extends B name website phone facebook) as (M & R).
  fold cands in M, R. rewrite M, R.
  destruct (dict_of_candidates cands) as (K & ND & V).
  destruct (dict_absorb [] cands) as [|first others] eqn:D.
  { exfalso. apply NE, dict_absorb_empty, D. }
  destruct (max_by_value_first exact_ordered first others
                               (fun x _ => exact_comparable (snd x)))
    as (before & after & S & Hb & Ha).
  destruct (max_by_value first others) as [best v] eqn:Mx.
  cbn [fst snd] in *.
  assert (Iv : In (best, v) (first :: others))
    by (rewrite S; apply in_or_app; right; left; reflexivity).
  rewrite (dict_index_in _ _ _ ND Iv).
  assert (Ib : In best (candidate_ids cands)).
  { rewrite <- K. change best with (fst (best, v)). apply in_map, Iv. }
  destruct (find (fun result => String.eqb (company_id result) best)
                 (map fst cands)) as [src|] eqn:F.
  - exists src, v. split; [reflexivity|].
    intros sc I.
    destruct (first_seen_covers cands [] sc I) as [[]|J].
    fold (candidate_ids cands) in J. rewrite <- K in J.
    apply in_map_iff in J as ([id' v'] & E' & J). cbn [fst] in E'. subst id'.
    rewrite <- (V _ _ J). rewrite S in J.
    apply in_app_or in J as [J|[J|J]].
    + apply Qlt_le_weak, Qlt_bool_iff. exact (Hb _ J).
    + injection J as _ <-. apply Qle_refl.
    + apply Qle_bool_iff. exact (Ha _ J).
  - exfalso. apply first_seen_named in Ib as (sc & I & E).
    pose proof (find_none _ _ F (fst sc) (in_map fst _ _ I)) as N.
    cbn beta in N. rewrite E, String.eqb_refl in N. discriminate.
Qed.

(** X3: when one of the four field probes has a hit, a record is returned
    and its [match_score] is at least the contribution of that hit: at
    least 10 after a domain hit, 8 after a phone hit, 6 after a facebook
    hit, and at least 18 when a domain hit and a phone hit name the same
    company. *)
Theorem match_score_floor (name website phone facebook : option string)
        (sc : CompanyRecord exact * num exact) :
  In sc (primary_candidates B name website phone facebook) ->
  exists r t,
    fst (match_company B name website phone facebook) = Some r
    /\ match_score r = Some t
    /\ snd sc <= t
    /\ (In sc (domain_candidates B website) -> 10 <= t)
    /\ (In sc (phone_candidates B phone) -> 8 <= t)
    /\ (In sc (facebook_candidates B facebook) -> 6 <= t)
    /\ (forall sc', In sc (domain_candidates B website) ->
                    In sc' (phone_candidates B phone) ->
                    company_id (fst sc') = company_id (fst sc) ->
                    18 <= t).
Proof.
  intros I.
  assert (C : candidates B name website phone facebook
              = primary_candidates B name website phone facebook).
  { unfold candidates.
    destruct (primary_candidates B name website phone facebook);
      [destruct I|reflexivity]. }
  assert (NE : candidates B name website phone facebook <> [])
    by (rewrite C; intros E; rewrite E in I; destruct I).
  destruct (gathered_answer name website phone facebook NE) as (src & t & E & T).
  rewrite C in T.
  assert (P : forall sc', In sc' (primary_candidates B name website phone facebook)
                          -> 0 <= snd sc')
    by apply primary_contribution.
  assert (F : snd sc <= t).
  { apply Qle_trans with
      (total (primary_candidates B name website phone facebook)
             (company_id (fst sc))); [|apply T, I].
    pose proof (total_from_member _ 0 sc P I). unfold total.
    rationals. lra. }
  exists (with_score src t), t.
  split; [exact E|]. split; [reflexivity|]. split; [exact F|].
  split; [intros D; apply domain_contribution in D; rationals; lra|].
  split; [intros D; apply phone_contribution in D; rationals; lra|].
  split; [intros D; apply facebook_contribution in D; rationals; lra|].
  intros sc' D D' Same.
  apply Qle_trans with
    (total (primary_candidates B name website phone facebook)
           (company_id (fst sc))); [|apply T, I].
  unfold total, primary_candidates. rewrite !total_from_app.
  assert (Pd : forall x, In x (domain_candidates B website) -> 0 <= snd x)
    by (intros x Ix; apply domain_contribution in Ix; rationals; lra).
  assert (Pp : forall x, In x (phone_candidates B phone) -> 0 <= snd x)
    by (intros x Ix; apply phone_contribution in Ix; rationals; lra).
  assert (Pf : forall x, In x (facebook_candidates B facebook) -> 0 <= snd x)
    by (intros x Ix; apply facebook_contribution in Ix; rationals; lra).
  assert (Pn : forall x, In x (name_candidates B name) -> 0 <= snd x)
    by (intros x Ix; apply name_contribution in Ix; rationals; lra).
  pose proof (total_from_member _ 0 sc Pd D) as T1.
  pose proof (total_from_member
                _ (total_from 0 (domain_candidates B website)
                              (company_id (fst sc))) sc' Pp D') as T2.
  rewrite Same in T2.
  pose proof (total_from_grows
                (facebook_candidates B facebook)
                (total_from
                   (total_from 0 (domain_candidates B website)
                               (company_id (fst sc)))
                   (phone_candidates B phone) (company_id (fst sc)))
                (company_id (fst sc)) Pf) as T3.
  pose proof (total_from_grows
                (name_candidates B name)
                (total_from
                   (total_from
                      (total_from 0 (domain_candidates B website)
                                  (company_id (fst sc)))
                      (phone_candidates B phone) (company_id (fst sc)))
                   (facebook_candidates B facebook) (company_id (fst sc)))
                (company_id (fst sc)) Pn) as T4.
  apply domain_contribution in D. apply phone_contribution in D'.
  rationals. lra.
Qed.

End Answer.

Lemma match_company_returns_a_hit_witness :
  fst (match_company Demo.index None (Some "acme.com") None None)
  = Some (with_score Demo.acme 10%Q)
  /\ exists q size h t,
       In (q, size) (snd (match_company Demo.index None (Some "acme.com")
                                        None None))
       /\ In h (es_search Demo.index q size)
       /\ with_score Demo.acme 10%Q = with_score (_source h) t.
Proof.
  split; [reflexivity|].
  destruct (match_company_returns_a_hit
              Demo.index None (Some "acme.com") None None
              (with_score Demo.acme 10%Q) eq_refl)
    as (q & size & h & t & L & H & E & _).
  exists q, size, h, t. repeat split; assumption.
Defined.

Lemma match_score_floor_witness :
  In (Demo.acme, 10)
     (primary_candidates Demo.index None (Some "acme.com")
                         (Some "4155550123") None)
  /\ exists r t,
       fst (match_company Demo.index None (Some "acme.com")
                          (Some "4155550123") None) = Some r
       /\ match_score r = Some t /\ 18 <= t.
Proof.
  assert (I : In (Demo.acme, 10)
                 (primary_candidates Demo.index None (Some "acme.com")
                                     (Some "4155550123") None))
    by (left; reflexivity).
  split; [exact I|].
  destruct (match_score_floor Demo.index None (Some "acme.com")
                              (Some "4155550123") None (Demo.acme, 10) I)
    as (r & t & E & S & _ & _ & _ & _ & Both).
  exists r, t. split; [exact E|]. split; [exact S|].
  apply (Both (Demo.acme, 8)).
  - left. reflexivity.
  - left. reflexivity.
  - reflexivity.
Defined.

End AnswerFacts.

(** ** Lower case *)
Module LowerFacts.
Import PyStr Normalizers.

Lemma lower_char_idempotent (c : ascii) :
  lower_char (lower_char c) = lower_char c.
Proof. destruct c as [[] [] [] [] [] [] [] []]; reflexivity. Qed.

Lemma lower_idempotent (s : string) : lower (lower s) = lower s.
Proof.
  induction s as [|c s IH]; [reflexivity|].
  simpl. rewrite lower_char_idempotent, IH. reflexivity.
Qed.

Lemma handle_char_lower (c : ascii) :
  handle_char (lower_char c) = handle_char c.
Proof. destruct c as [[] [] [] [] [] [] [] []]; reflexivity. Qed.

Lemma all_handle_lower (s : string) :
  all_chars handle_char (lower s) = all_chars handle_char s.
Proof.
  induction s as [|c s IH]; [reflexivity|].
  simpl. rewrite !PyStrFacts.all_chars_cons, handle_char_lower, IH.
  reflexivity.
Qed.

Lemma stops_handle_lower (s : string) :
  Re.stops handle_char (lower s) = Re.stops handle_char s.
Proof. destruct s as [|c s]; [reflexivity|]. simpl. rewrite handle_char_lower. reflexivity. Qed.

Lemma truthy_lower (s : string) : truthy (Some (lower s)) = truthy (Some s).
Proof. destruct s; reflexivity. Qed.

Lemma lower_nonempty (s : string) : lower s = "" <-> s = "".
Proof. destruct s; simpl; split; congruence. Qed.

End LowerFacts.

(** ** More on the normalizers *)
Module NormalizerFacts.
Import PyStr Re Normalizers Numbers Matcher QueryLog.
Import PyStrFacts ReFacts LowerFacts.

(** X6: the facebook normalizer does not see case: an input and its lower
    case have the same normal form; the normal form is itself in lower
    case; and it is null for the absent and the empty input only. *)
Theorem normalize_facebook_ignores_case (url : string) :
  _normalize_facebook_url (Some (lower url))
  = _normalize_facebook_url (Some url)
  /\ (forall r, _normalize_facebook_url (Some url) = Some r -> lower r = r)
  /\ (_normalize_facebook_url (Some url) = None <-> url = "").
Proof.
  unfold _normalize_facebook_url. rewrite truthy_lower, lower_idempotent.
  split; [reflexivity|].
  destruct url as [|c url]; [split; [discriminate|split; reflexivity]|].
  change (truthy (Some (String c url))) with true. cbn [negb].
  set (stripped := sub_at_start scheme_www (lower (String c url))).
  split.
  - intros r. unfold facebook_patterns, first_match.
    repeat (match goal with
            | |- context [re_match ?p stripped] =>
                destruct (re_match p stripped)
            end;
            [intros E; injection E as <-; apply lower_idempotent|]).
    intros E. injection E as <-. apply lower_idempotent.
  - split; [|discriminate].
    destruct (first_match facebook_patterns stripped); discriminate.
Qed.

(** The short-host pattern captures like the page pattern. *)
Lemma pat_fb_captures (h tl : string) :
  h <> "" -> all_chars handle_char h = true -> stops handle_char tl = true ->
  exists m,
    re_match pat_fb ("fb.com/" ++ h ++ tl) = Some m /\ group1 m = Some h.
Proof.
  intros N A S. unfold re_match, pat_fb.
  rewrite run_word. cbn [run]. unfold plus.
  destruct (tail_total tl (Some h) ("fb.com/" ++ h ++ tl)) as (m & T & G).
  exists m. split; [|exact G].
  apply rep_greedy; [exact A| |exact S|].
  - destruct h; [congruence|simpl; lia].
  - replace (String.length (h ++ tl) - String.length tl)%nat
      with (String.length h) by (rewrite length_append; lia).
    rewrite take_append. exact T.
Qed.

(** The handle of a page url is its normal form. *)
Lemma handle_recovered
        (prefix host h tl : string) :
  In prefix [""; "http://"; "https://"; "http://www."; "https://www."] ->
  In host ["facebook.com/"; "fb.com/"] ->
  h <> "" -> all_chars handle_char h = true -> stops handle_char tl = true ->
  _normalize_facebook_url (Some (prefix ++ host ++ h ++ tl))
  = Some (lower h).
Proof.
  intros P H N A S.
  assert (N' : lower h <> "") by (rewrite lower_nonempty; exact N).
  assert (A' : all_chars handle_char (lower h) = true)
    by (rewrite all_handle_lower; exact A).
  assert (S' : stops handle_char (lower tl) = true)
    by (rewrite stops_handle_lower; exact S).
  unfold _normalize_facebook_url.
  assert (T : truthy (Some (prefix ++ host ++ h ++ tl)) = true).
  { destruct H as [<-|[<-|[]]];
      destruct P as [<-|[<-|[<-|[<-|[<-|[]]]]]]; reflexivity. }
  rewrite T. cbn [negb]. rewrite !lower_append.
  destruct H as [<-|[<-|[]]].
  - assert (St : sub_at_start scheme_www
                   (lower prefix ++ lower "facebook.com/" ++ lower h ++ lower tl)
                 = "facebook.com/" ++ lower h ++ lower tl)
      by (destruct P as [<-|[<-|[<-|[<-|[<-|[]]]]]]; reflexivity).
    rewrite St.
    destruct (pat_facebook_captures (lower h) (lower tl) N' A' S')
      as (m & M & G).
    unfold facebook_patterns, first_match. rewrite M.
    unfold captured. rewrite G, lower_idempotent. reflexivity.
  - assert (St : sub_at_start scheme_www
                   (lower prefix ++ lower "fb.com/" ++ lower h ++ lower tl)
                 = "fb.com/" ++ lower h ++ lower tl)
      by (destruct P as [<-|[<-|[<-|[<-|[<-|[]]]]]]; reflexivity).
    rewrite St.
    destruct (pat_fb_captures (lower h) (lower tl) N' A' S') as (m & M & G).
    unfold facebook_patterns, first_match.
    change (re_match pat_facebook ("fb.com/" ++ lower h ++ lower tl))
      with (@None match_object).
    rewrite M. unfold captured. rewrite G, lower_idempotent. reflexivity.
Qed.



Section Domain.
Context {A : arith}.
Variable B : backend A.


End Domain.
End NormalizerFacts.

(** ** The name score of an exact match *)
Module NameFacts.
Import PyStr Normalizers Numbers Matcher Selection.
Import MaxFacts ScoreFacts LowerFacts.
Local Open Scope Q_scope.

Lemma py_max_top (a b : Q) :
  0 <= a <= 1 -> b <= 1 -> a == 1 \/ b == 1 -> py_max (A:=exact) a b == 1.
Proof.
  intros [L H] Hb T. unfold py_max. cbn [num_ltb exact].
  destruct (Qlt_bool a b) eqn:E.
  - apply Qlt_bool_iff in E. lra.
  - apply Qlt_bool_false in E. lra.
Qed.

Section Name.
Variable B : backend exact.

Lemma similarity_same (name f : string) :
  lower f = lower name ->
  distance B (lower name) (lower name) = 0%nat ->
  similarity B name f == 1.
Proof.
  intros E D. unfold similarity. rewrite E, D. rationals.
  unfold Qdiv. rewrite Qmult_0_l. lra.
Qed.

Lemma best_with_top (name : string) (best : Q) (field : option string) :
  0 <= best <= 1 -> best == 1 -> best_with B name best field == 1.
Proof.
  intros H T. unfold best_with. destruct (truthy field); [|exact T].
  destruct field as [f|]; [|exact T].
  apply py_max_top; [exact H|apply similarity_le_1|left; exact T].
Qed.

Lemma best_with_same (name : string) (best : Q) (f : string) :
  0 <= best <= 1 -> f <> "" -> lower f = lower name ->
  distance B (lower name) (lower name) = 0%nat ->
  best_with B name best (Some f) == 1.
Proof.
  intros H N E D. unfold best_with.
  assert (T : truthy (Some f) = true) by (destruct f; [congruence|reflexivity]).
  rewrite T. apply py_max_top; [exact H|apply similarity_le_1|].
  right. apply similarity_same; assumption.
Qed.

(** X4: a hit whose commercial or legal name equals the queried name up
    to case contributes the full 5 to its company, provided the edit
    distance of a string to itself is 0. *)
Theorem exact_name_scores_five (name f : string) (h : hit exact) :
  name <> "" ->
  company_commercial_name (_source h) = Some f
  \/ company_legal_name (_source h) = Some f ->
  lower f = lower name ->
  distance B (lower name) (lower name) = 0%nat ->
  name_score B name h == 5.
Proof.
  intros N W E D.
  assert (Nf : f <> "").
  { intros F. rewrite F in E. simpl in E. symmetry in E.
    apply (proj1 (lower_nonempty name)) in E. exact (N E). }
  unfold name_score. cbn [fold_left].
  assert (Z : 0 <= 0 <= 1) by lra.
  pose proof (best_with_bounds B name 0
                               (company_commercial_name (_source h)) Z) as B1.
  assert (T : best_with B name
                (best_with B name 0 (company_commercial_name (_source h)))
                (company_legal_name (_source h)) == 1).
  { destruct W as [W|W]; rewrite W in *.
    - apply best_with_top; [exact B1|].
      apply best_with_same; assumption.
    - apply best_with_same; assumption. }
  rationals. rewrite T. reflexivity.
Qed.

End Name.

Lemma exact_name_scores_five_witness :
  ("ACME inc." <> ""
   /\ company_commercial_name Demo.acme = Some "Acme Inc."
   /\ lower "Acme Inc." = lower "ACME inc."
   /\ distance Demo.index (lower "ACME inc.") (lower "ACME inc.") = 0%nat)
  /\ name_score Demo.index "ACME inc." (mkHit Demo.acme 1%Q) == 5.
Proof.
  assert (N : "ACME inc." <> "") by discriminate.
  split; [repeat split; try reflexivity; exact N|].
  apply (exact_name_scores_five Demo.index "ACME inc." "Acme Inc."
                                (mkHit Demo.acme 1%Q) N);
    [left; reflexivity|reflexivity|reflexivity].
Defined.

End NameFacts.

(** ** What the phone pattern can match *)
Module PhonePatternFacts.
Import PyStr Re Normalizers Scraper.
Import PyStrFacts ReFacts PhoneFacts.

(** What a repetition consumed before it called its continuation. *)
Lemma rep_consumed {R : Type} (p : ascii -> bool) (s : string) :
  forall (lo : nat) (hi : option nat) (k : string -> option R) (x : R),
    rep p lo hi s k = Some x ->
    exists a s',
      s = a ++ s' /\ all_chars p a = true
      /\ (lo <= String.length a)%nat
      /\ (forall h, hi = Some h -> (String.length a <= h)%nat)
      /\ k s' = Some x.
Proof.
  induction s as [|c s IH]; intros lo hi k x H; simpl in H.
  - destruct (Nat.eqb_spec lo 0); [|discriminate].
    exists "", "". repeat split; [simpl; lia|simpl; lia|exact H].
  - assert (Stop : (if (lo =? 0)%nat then k (String c s) else None) = Some x ->
                   exists a s',
                     String c s = a ++ s' /\ all_chars p a = true
                     /\ (lo <= String.length a)%nat
                     /\ (forall h, hi = Some h -> (String.length a <= h)%nat)
                     /\ k s' = Some x).
    { destruct (Nat.eqb_spec lo 0); [|discriminate]. intros K.
      exists "", (String c s). repeat split; [simpl; lia|simpl; lia|exact K]. }
    destruct (p c && may_repeat hi) eqn:G; [|exact (Stop H)].
    destruct (rep p (Nat.pred lo) (option_map Nat.pred hi) s k) as [y|] eqn:E;
      [|exact (Stop H)].
    injection H as ->. apply andb_prop in G as [Pc May].
    destruct (IH _ _ _ _ E) as (a & s' & -> & A & L & U & K).
    exists (String c a), s'. split; [reflexivity|].
    split; [rewrite all_chars_cons, Pc, A; reflexivity|].
    split; [simpl; lia|]. split; [|exact K].
    intros h ->. simpl in May, U. apply Nat.ltb_lt in May.
    specialize (U (Nat.pred h) eq_refl). simpl. lia.
Qed.

Lemma take_consumed (a s' : string) :
  take (String.length (a ++ s') - String.length s') (a ++ s') = a.
Proof.
  replace (String.length (a ++ s') - String.length s')%nat
    with (String.length a) by (rewrite length_append; lia).
  apply take_append.
Qed.

(** A match of the phone pattern: an optional plus sign, then between 8
    and 20 digits, blanks, dashes and parentheses. *)
Lemma phone_match_shape (t : string) (m : match_object) :
  re_match phone_pattern t = Some m ->
  exists pre a,
    captured m = pre ++ a /\ (pre = "" \/ pre = "+")
    /\ all_chars phone_char a = true
    /\ (8 <= String.length a <= 20)%nat.
Proof.
  unfold re_match, phone_pattern. cbn [run]. intros H.
  assert (Direct :
            rep phone_char 8 (Some 20) t
                (fun s' => Some (MatchObject
                                   (take (String.length t - String.length s') t)
                                   (Some (take (String.length t
                                                - String.length s') t))
                                   s')) = Some m ->
            exists pre a,
              captured m = pre ++ a /\ (pre = "" \/ pre = "+")
              /\ all_chars phone_char a = true
              /\ (8 <= String.length a <= 20)%nat).
  { intros D. apply rep_consumed in D as (a & s' & -> & A & L & U & K).
    injection K as <-. exists "", a. unfold captured. cbn [group1].
    rewrite take_consumed. pose proof (U 20%nat eq_refl).
    repeat split; auto. }
  destruct t as [|c t]; [exact (Direct H)|].
  destruct (Ascii.eqb "+" c) eqn:E; [|exact (Direct H)].
  apply Ascii.eqb_eq in E. subst c.
  destruct (rep phone_char 8 (Some 20) t _) as [y|] eqn:D in H.
  - injection H as ->.
    apply rep_consumed in D as (a & s' & -> & A & L & U & K).
    injection K as <-. exists "+", a. unfold captured. cbn [group1].
    change (take (S (String.length (a ++ s')) - String.length s')
                 (String "+" (a ++ s')))
      with (take (String.length (("+" ++ a) ++ s') - String.length s')
                 (("+" ++ a) ++ s')).
    rewrite take_consumed. pose proof (U 20%nat eq_refl).
    repeat split; auto.
  - discriminate H.
Qed.

(** Every text of [findall] is the capture of a match somewhere in the
    input. *)
Lemma findall_from_match (r : regex) (n : nat) :
  forall (s x : string),
    In x (findall_from n r s) ->
    exists t m, re_match r t = Some m /\ x = captured m.
Proof.
  induction n as [|n IH]; intros s x I; [destruct I|].
  simpl in I. destruct (re_match r s) as [m|] eqn:M.
  - assert (Here : x = captured m -> exists t m', re_match r t = Some m'
                                                 /\ x = captured m')
      by (intros ->; exists s, m; split; [exact M|reflexivity]).
    destruct (whole m) as [|w ws]; destruct s as [|c s];
      destruct I as [E|I]; try (apply Here; symmetry; exact E);
      try (destruct I); eauto.
  - destruct s as [|c s]; [destruct I|]. eauto.
Qed.

Lemma filter_chars_append (p : ascii -> bool) (a b : string) :
  filter_chars p (a ++ b) = filter_chars p a ++ filter_chars p b.
Proof.
  induction a as [|c a IH]; simpl; [reflexivity|].
  destruct (p c); simpl; rewrite IH; reflexivity.
Qed.

Lemma filter_chars_on (q p1 p2 : ascii -> bool) (s : string) :
  all_chars q s = true -> (forall c, q c = true -> p1 c = p2 c) ->
  filter_chars p1 s = filter_chars p2 s.
Proof.
  intros A E. induction s as [|c s IH]; [reflexivity|].
  rewrite all_chars_cons in A. apply andb_prop in A as [Qc A].
  simpl. rewrite (E _ Qc), (IH A). reflexivity.
Qed.

Lemma length_filter (p : ascii -> bool) (s : string) :
  (String.length (filter_chars p s) <= String.length s)%nat.
Proof.
  induction s as [|c s IH]; simpl; [lia|]. destruct (p c); simpl; lia.
Qed.

Lemma phone_char_no_plus (c : ascii) :
  phone_char c = true -> negb (negb (is_digit c || Ascii.eqb c "+")) = is_digit c.
Proof.
  intros P. rewrite negb_involutive.
  destruct (Ascii.eqb_spec c "+") as [->|N]; [discriminate P|].
  apply orb_false_r.
Qed.

Lemma clean_phone_shape (pre a : string) :
  pre = "" \/ pre = "+" -> all_chars phone_char a = true ->
  clean_phone (pre ++ a) = pre ++ digits a.
Proof.
  intros P A. unfold clean_phone, sub_class. rewrite filter_chars_append.
  rewrite (filter_chars_on phone_char _ is_digit a A phone_char_no_plus).
  destruct P as [-> | ->]; reflexivity.
Qed.

(** A phone of the extractor: an optional plus sign, then 7 to 20 digits,
    8 characters at least in all. *)
Lemma extracted_phone_shape (text p : string) :
  p ∈ extract_phones text ->
  exists pre d,
    p = pre ++ d /\ (pre = "" \/ pre = "+")
    /\ all_chars is_digit d = true
    /\ (String.length d <= 20)%nat
    /\ (8 <= String.length p)%nat.
Proof.
  unfold extract_phones. destruct (negb (truthy (Some text))).
  - intros H. apply elem_of_empty in H. destruct H.
  - intros H. apply elem_of_list_to_set, list_elem_of_In in H.
    unfold cleaned_phones in H. apply filter_In in H as [H L].
    apply Nat.leb_le in L.
    apply in_map_iff in H as (x & <- & H).
    unfold findall in H. apply findall_from_match in H as (t & m & M & ->).
    apply phone_match_shape in M as (pre & a & C & P & A & La).
    rewrite C, (clean_phone_shape _ _ P A) in *.
    exists pre, (digits a). split; [reflexivity|]. split; [exact P|].
    split; [unfold digits; apply all_chars_filter|].
    split; [|exact L].
    unfold digits. pose proof (length_filter is_digit a). lia.
Qed.

End PhonePatternFacts.

(** ** Extracted phones and their normal forms *)
Module ExtractFacts.
Import PyStr Re Normalizers Scraper.
Import PyStrFacts ReFacts PhoneFacts PhonePatternFacts.

(** X8: every phone that [extract_phones] finds, in any text, is an
    optional plus sign followed by 7 to 20 digits and nothing else, 8 to
    21 characters in all. *)
Theorem extract_phones_shape (text p : string) :
  p ∈ extract_phones text ->
  exists pre d,
    p = pre ++ d /\ (pre = "" \/ pre = "+")
    /\ all_chars is_digit d = true
    /\ (7 <= String.length d <= 20)%nat
    /\ (8 <= String.length p <= 21)%nat.
Proof.
  intros H. apply extracted_phone_shape in H as (pre & d & -> & P & D & U & L).
  exists pre, d. rewrite length_append in *.
  assert (String.length pre <= 1)%nat by (destruct P as [-> | ->]; simpl; lia).
  repeat split; auto; lia.
Qed.

Lemma sample_has_phone : "6285559999" ∈ extract_phones Demo.sample.
Proof. apply (bool_decide_unpack _). vm_compute. exact I. Qed.

Lemma extract_phones_shape_witness :
  "6285559999" ∈ extract_phones Demo.sample
  /\ exists pre d,
       "6285559999" = pre ++ d /\ (pre = "" \/ pre = "+")
       /\ all_chars is_digit d = true.
Proof.
  split; [exact sample_has_phone|].
  destruct (extract_phones_shape Demo.sample "6285559999" sample_has_phone)
    as (pre & d & E & P & D & _).
  exists pre, d. repeat split; assumption.
Defined.

Lemma digits_are_kept (d : string) :
  all_chars is_digit d = true -> all_chars digit_or_plus d = true.
Proof.
  apply all_chars_weaken. intros c Hc. unfold digit_or_plus.
  rewrite Hc. reflexivity.
Qed.

Lemma without_plus_of_shape (pre d : string) :
  pre = "" \/ pre = "+" -> all_chars is_digit d = true ->
  without_plus (kept (pre ++ d)) = d.
Proof.
  intros P D.
  assert (K : kept (pre ++ d) = pre ++ d).
  { apply kept_fixed. destruct P as [-> | ->].
    - apply digits_are_kept, D.
    - change ("+" ++ d) with (String "+" d).
      rewrite all_chars_cons, (digits_are_kept _ D). reflexivity. }
  rewrite K. destruct P as [-> | ->]; [|reflexivity].
  destruct d as [|c d]; [reflexivity|].
  change ("" ++ String c d) with (String c d).
  unfold without_plus. rewrite startswith_plus.
  rewrite all_chars_cons in D. apply andb_prop in D as [Dc _].
  destruct (Ascii.eqb c "+") eqn:E; [|reflexivity].
  rewrite (plus_is_no_digit _ E) in Dc. discriminate.
Qed.

Lemma length_up_to_last_eq (n : nat) (s : string) :
  String.length (up_to_last n s) = Nat.min n (String.length s).
Proof.
  unfold up_to_last. destruct (Nat.ltb_spec n (String.length s)).
  - unfold last_n. rewrite length_drop. lia.
  - lia.
Qed.

(** X9: every phone that [extract_phones] finds has, under the matcher's
    [_normalize_phone], a normal form of 7 to 10 digits without any plus
    sign, and that normal form is its own normal form. *)
Theorem extracted_phone_normalizes (text p : string) :
  p ∈ extract_phones text ->
  exists n,
    _normalize_phone (Some p) = Some n
    /\ all_chars is_digit n = true
    /\ (7 <= String.length n <= 10)%nat
    /\ _normalize_phone (Some n) = Some n.
Proof.
  intros H. apply extracted_phone_shape in H as (pre & d & -> & P & D & U & L).
  assert (Ld : (7 <= String.length d)%nat).
  { rewrite length_append in L.
    destruct P as [-> | ->]; simpl in L; lia. }
  assert (N : pre ++ d <> "").
  { intros E. rewrite E in L. simpl in L. lia. }
  exists (up_to_last 10 d).
  rewrite (normalize_phone_unfold _ N), (without_plus_of_shape _ _ P D).
  assert (A : all_chars is_digit (up_to_last 10 d) = true)
    by (apply all_chars_up_to_last, D).
  assert (Ln : (7 <= String.length (up_to_last 10 d) <= 10)%nat)
    by (rewrite length_up_to_last_eq; lia).
  split; [reflexivity|]. split; [exact A|]. split; [exact Ln|].
  apply normalize_phone_fixed; [exact A| |lia].
  intros E. rewrite E in Ln. simpl in Ln. lia.
Qed.

Lemma sample_has_plus_phone : "+14155550123" ∈ extract_phones Demo.sample.
Proof. apply (bool_decide_unpack _). vm_compute. exact I. Qed.

Lemma extracted_phone_normalizes_witness :
  "+14155550123" ∈ extract_phones Demo.sample
  /\ exists n, _normalize_phone (Some "+14155550123") = Some n
               /\ _normalize_phone (Some n) = Some n.
Proof.
  split; [exact sample_has_plus_phone|].
  destruct (extracted_phone_normalizes Demo.sample "+14155550123"
                                       sample_has_plus_phone)
    as (n & E & _ & _ & F).
  exists n. split; assumption.
Defined.

End ExtractFacts.

Module ExtractorExamples.
Import PyStr Re ReAlt Extractors.

Example social_example :
  map fst (extract_social_media
             "<a href='https://www.facebook.com/AcmeCo'>f</a> linkedin.com/company/acme-co youtube.com/watch")
  = ["facebook"; "linkedin"].
Proof. vm_compute. reflexivity. Qed.

Example linkedin_example :
  xfindall linkedin_pattern "see linkedin.com/in/jane.doe and linkedin.com/school/x"
  = ["linkedin.com/in/jane.doe"].
Proof. vm_compute. reflexivity. Qed.

Example address_example :
  xfindall address_pattern "Visit 123 Main Street, Springfield, IL 62704 today"
  = ["123 Main Street, Springfield, IL 62704"].
Proof. vm_compute. reflexivity. Qed.

End ExtractorExamples.

(** ** The fetcher *)
Module FetcherFacts.
Import PyStr Scraper Extractors Fetcher.
Local Open Scope Z_scope.

Lemma slept_app (a b : list event) : slept (a ++ b) = slept a + slept b.
Proof.
  induction a as [|e a IH]; simpl; [reflexivity|].
  destruct e; rewrite ?IH; lia.
Qed.

Lemma requests_in_app (a b : list event) :
  requests_in (a ++ b) = (requests_in a + requests_in b)%nat.
Proof. unfold requests_in. rewrite filter_app, length_app. reflexivity. Qed.

Lemma chrome_in_app (a b : list event) :
  chrome_in (a ++ b) = (chrome_in a + chrome_in b)%nat.
Proof. unfold chrome_in. rewrite filter_app, length_app. reflexivity. Qed.

Lemma with_scheme_has_scheme (url : string) :
  has_scheme (with_scheme url) = true.
Proof.
  unfold with_scheme, has_scheme.
  destruct (startswith "http://" url || startswith "https://" url) eqn:E;
    [exact E|reflexivity].
Qed.

Lemma with_scheme_idempotent (url : string) :
  with_scheme (with_scheme url) = with_scheme url.
Proof.
  unfold with_scheme at 1. fold (has_scheme (with_scheme url)).
  rewrite with_scheme_has_scheme. reflexivity.
Qed.

Section Rounds.
Variable W : web.
Variable retry_count : Z.
Variable timeout : Z.

Lemma worst_pause_bounds :
  2 <= worst_pause retry_count /\ 2 * retry_count <= worst_pause retry_count.
Proof. unfold worst_pause. lia. Qed.

(** What one fetch starts: the plain request, and the browser after it
    or not. *)
Lemma settle_bound : settle timeout <= 2.
Proof. unfold settle. lia. Qed.

(** The browser tier pauses once at most, for 2 seconds at most. *)
Lemma chrome_pause (attempt : nat) (url : string) :
  let paused := snd (_chrome_strategy W timeout attempt url) in
  (paused = [] \/ paused = [Sleep (settle timeout)])
  /\ (paused = [Sleep (settle timeout)]
      <-> chrome_starts W attempt url = true /\ 0 <= settle timeout)
  /\ requests_in paused = 0%nat /\ chrome_in paused = 0%nat
  /\ 0 <= slept paused <= 2.
Proof.
  cbn zeta. pose proof settle_bound as S2. unfold _chrome_strategy.
  destruct (chrome_starts W attempt url).
  - destruct (Z.ltb_spec (settle timeout) 0) as [Neg|Pos].
    + cbn [snd]. split; [left; reflexivity|]. split.
      * split; [discriminate|]. intros [_ P]. lia.
      * repeat split; simpl; lia.
    + assert (E : snd (match chrome_source W attempt url with
                       | Some page_source =>
                           (if truthy (Some page_source)
                               && (1000 <? String.length page_source)%nat
                            then Some page_source else None,
                            [Sleep (settle timeout)])
                       | None => (None, [Sleep (settle timeout)])
                       end) = [Sleep (settle timeout)])
        by (destruct (chrome_source W attempt url); reflexivity).
      rewrite E. split; [right; reflexivity|]. split.
      * split; [intros _; split; [reflexivity|exact Pos]|reflexivity].
      * unfold requests_in, chrome_in. cbn. repeat split; lia.
  - cbn [snd]. split; [left; reflexivity|]. split.
    + split; [discriminate|]. intros [F _]. discriminate.
    + repeat split; simpl; lia.
Qed.

(** What one fetch starts: the plain request, and the browser after it
    or not, with its pause. *)
Lemma fetched_events (attempt : nat) (url : string) :
  let fetched := snd (get_page_content W timeout attempt url) in
  requests_in fetched = 1%nat /\ (chrome_in fetched <= 1)%nat
  /\ 0 <= slept fetched <= 2.
Proof.
  cbn zeta. unfold get_page_content.
  pose proof (chrome_pause attempt url) as (_ & _ & Pq & Pc & Ps).
  cbn zeta in Pq, Pc, Ps.
  destruct (_chrome_strategy W timeout attempt url) as [page paused].
  cbn [snd] in Pq, Pc, Ps.
  assert (B : requests_in
                ([Requests attempt url; Chrome attempt url] ++ paused) = 1%nat
              /\ (chrome_in
                    ([Requests attempt url; Chrome attempt url] ++ paused)
                  <= 1)%nat
              /\ 0 <= slept
                        ([Requests attempt url; Chrome attempt url] ++ paused)
                   <= 2).
  { rewrite requests_in_app, chrome_in_app, slept_app, Pq, Pc.
    assert (R : requests_in [Requests attempt url; Chrome attempt url]
                = 1%nat) by reflexivity.
    assert (C : chrome_in [Requests attempt url; Chrome attempt url]
                = 1%nat) by reflexivity.
    assert (S : slept [Requests attempt url; Chrome attempt url] = 0)
      by reflexivity.
    rewrite R, C, S. repeat split; lia. }
  destruct (requests_body W attempt url) as [body|]; [|exact B].
  destruct (_ && _); [|exact B].
  cbn [snd].
  assert (R : requests_in [Requests attempt url] = 1%nat) by reflexivity.
  assert (C : chrome_in [Requests attempt url] = 0%nat) by reflexivity.
  assert (S : slept [Requests attempt url] = 0) by reflexivity.
  rewrite R, C, S. repeat split; lia.
Qed.

Lemma backoff_events (retries : nat) :
  requests_in (backoff retry_count retries) = 0%nat
  /\ chrome_in (backoff retry_count retries) = 0%nat
  /\ 0 <= slept (backoff retry_count retries) <= worst_pause retry_count.
Proof.
  pose proof worst_pause_bounds. unfold backoff.
  destruct (Z.leb_spec (Z.of_nat retries) retry_count); simpl;
    repeat split; lia.
Qed.

(** A failed round followed by the rest of the loop. *)
Lemma round_then (url : string) (retries : nat)
      (last_error : option string) (e : string) (row : ScrapedRow)
      (ev extra : list event) :
  Z.of_nat retries <= retry_count ->
  (requests_in ev <= 1)%nat -> (chrome_in ev <= requests_in ev)%nat ->
  0 <= slept ev <= worst_pause retry_count + 2 ->
  succeeded W retry_count (with_scheme url) (S retries) row extra
  \/ exhausted retry_count (with_scheme url) (S retries) (Some e) row extra ->
  succeeded W retry_count url retries row (ev ++ extra)
  \/ exhausted retry_count url retries last_error row (ev ++ extra).
Proof.
  intros R Rq Ch Sl [S|X]; pose proof worst_pause_bounds as (W2 & _).
  - left. destruct S as (k & d & c & t & L & U & -> & Q & C & P).
    exists k, d, c, t. rewrite with_scheme_idempotent.
    rewrite requests_in_app, chrome_in_app, slept_app.
    repeat split; try lia.
    replace (Z.of_nat (k - retries))
      with (1 + Z.of_nat (k - S retries)) by lia.
    replace (Z.of_nat (k - retries + 1))
      with (1 + Z.of_nat (k - S retries + 1)) by lia. lia.
  - right. destruct X as (r & err & E & -> & Some_ & Late & Q & C & P).
    exists r, err. rewrite requests_in_app, chrome_in_app, slept_app.
    destruct (Z.leb_spec (Z.of_nat retries) retry_count); [|lia].
    split; [lia|]. split.
    { rewrite with_scheme_idempotent.
      destruct (Z.of_nat (S retries) <=? retry_count); reflexivity. }
    split.
    { intros _. destruct (Z.le_gt_cases (Z.of_nat (S retries)) retry_count)
        as [In|Out].
      - apply Some_, In.
      - destruct Late as [-> _]; [lia|discriminate]. }
    split; [intros; lia|]. split; [lia|]. split; [lia|].
    replace (Z.of_nat (r - retries))
      with (1 + Z.of_nat (r - S retries)) by lia. lia.
Qed.

Lemma exhausted_late (url : string) (retries : nat)
      (last_error : option string) :
  retry_count < Z.of_nat retries ->
  exhausted retry_count url retries last_error
            (gave_up url last_error retries) [].
Proof.
  intros L. exists retries, last_error.
  destruct (Z.leb_spec (Z.of_nat retries) retry_count); [lia|].
  split; [lia|]. split; [reflexivity|]. split; [intros; lia|].
  split; [intros _; split; reflexivity|].
  unfold requests_in, chrome_in. simpl. rewrite Nat.sub_diag.
  repeat split; simpl; lia.
Qed.

(** The loop, from any round on, with fuel for the rounds that are left. *)
Lemma attempts_spec (fuel : nat) :
  forall (url : string) (retries : nat) (last_error : option string)
         (log : list event),
    retry_count < Z.of_nat retries + Z.of_nat fuel ->
    exists extra,
      snd (attempts W retry_count timeout fuel url retries last_error log)
      = (log ++ extra)%list
      /\ (succeeded W retry_count url retries
                    (fst (attempts W retry_count timeout fuel url retries
                                   last_error log)) extra
          \/ exhausted retry_count url retries last_error
                       (fst (attempts W retry_count timeout fuel url retries
                                      last_error log)) extra).
Proof.
  induction fuel as [|fuel IH]; intros url retries last_error log F.
  - simpl. destruct (Z.leb_spec (Z.of_nat retries) retry_count); [lia|].
    exists []. rewrite app_nil_r. split; [reflexivity|]. right.
    apply exhausted_late. assumption.
  - cbn [attempts].
    destruct (Z.leb_spec (Z.of_nat retries) retry_count) as [In|Out].
    2:{ exists []. rewrite app_nil_r. split; [reflexivity|]. right.
        apply exhausted_late. assumption. }
    assert (F' : retry_count < Z.of_nat (S retries) + Z.of_nat fuel) by lia.
    destruct (netloc W (with_scheme url)) as [domain|e].
    + pose proof (fetched_events retries (with_scheme url)) as (Fq & Fc & Fs).
      destruct (get_page_content W timeout retries (with_scheme url))
        as [page_content fetched]. cbn [snd] in Fq, Fc, Fs. cbn zeta.
      assert (Again :
                exists extra,
                  snd (attempts W retry_count timeout fuel (with_scheme url)
                                (S retries)
                                (Some "Failed to retrieve page content"%string)
                                (log ++ fetched ++ [Sleep 2]))
                  = (log ++ extra)%list
                  /\ (succeeded W retry_count url retries
                         (fst (attempts W retry_count timeout fuel (with_scheme url)
                                 (S retries)
                                 (Some "Failed to retrieve page content"%string)
                                 (log ++ fetched ++ [Sleep 2]))) extra
                      \/ exhausted retry_count url retries last_error
                           (fst (attempts W retry_count timeout fuel (with_scheme url)
                                   (S retries)
                                   (Some "Failed to retrieve page content"%string)
                                   (log ++ fetched ++ [Sleep 2]))) extra)).
      { destruct (IH (with_scheme url) (S retries)
                     (Some "Failed to retrieve page content"%string)
                     (log ++ fetched ++ [Sleep 2])%list F')
          as (extra & E & O).
        exists ((fetched ++ [Sleep 2]) ++ extra)%list. split.
        - rewrite E, <- !app_assoc. reflexivity.
        - pose proof worst_pause_bounds as (W2 & _).
          assert (Pq : requests_in [Sleep 2] = 0%nat) by reflexivity.
          assert (Pc : chrome_in [Sleep 2] = 0%nat) by reflexivity.
          assert (Ps : slept [Sleep 2] = 2) by reflexivity.
          apply round_then with (e := "Failed to retrieve page content"%string);
            try assumption;
            rewrite ?requests_in_app, ?chrome_in_app, ?slept_app, ?Pq, ?Pc, ?Ps;
            lia. }
      destruct page_content as [content|]; [|exact Again].
      destruct (negb (truthy (Some content))); [exact Again|].
      destruct (get_text W content) as [text|e].
      * exists fetched. split; [reflexivity|]. left. cbn [fst].
        exists retries, domain, content, text.
        repeat split; try lia.
      * destruct (IH (with_scheme url) (S retries) (Some e)
                     (log ++ fetched ++ backoff retry_count (S retries))%list
                     F')
          as (extra & E & O).
        pose proof (backoff_events (S retries)) as (Bq & Bc & Bs).
        exists ((fetched ++ backoff retry_count (S retries)) ++ extra)%list.
        split; [rewrite E, <- !app_assoc; reflexivity|].
        apply round_then with (e := e); try assumption;
          rewrite ?requests_in_app, ?chrome_in_app, ?slept_app; lia.
    + destruct (IH (with_scheme url) (S retries) (Some e)
                   (log ++ backoff retry_count (S retries))%list F')
        as (extra & E & O).
      pose proof (backoff_events (S retries)) as (Bq & Bc & Bs).
      exists (backoff retry_count (S retries) ++ extra)%list.
      split; [rewrite E, <- !app_assoc; reflexivity|].
      apply round_then with (e := e); try assumption; lia.
Qed.

(** The loop as [scrape_website] starts it. *)
Lemma scrape_website_spec (url : string) :
  succeeded W retry_count url 0 (fst (scrape_website W retry_count timeout url))
            (snd (scrape_website W retry_count timeout url))
  \/ exhausted retry_count url 0 None (fst (scrape_website W retry_count timeout url))
               (snd (scrape_website W retry_count timeout url)).
Proof.
  unfold scrape_website.
  destruct (attempts_spec (S (Z.to_nat (retry_count + 1))) url 0 None [])
    as (extra & E & O); [lia|].
  simpl app in E. rewrite E. exact O.
Qed.

Lemma chrome_content (attempt : nat) (url body : string) :
  fst (_chrome_strategy W timeout attempt url) = Some body ->
  (1000 < String.length body)%nat
  /\ chrome_source W attempt url = Some body.
Proof.
  unfold _chrome_strategy.
  destruct (chrome_starts W attempt url); [|discriminate].
  destruct (settle timeout <? 0); [discriminate|].
  destruct (chrome_source W attempt url) as [ps|]; [|discriminate].
  cbn [fst]. destruct (truthy (Some ps)); [|discriminate]. cbn [andb].
  destruct (Nat.ltb_spec 1000 (String.length ps)); [|discriminate].
  intros E. injection E as <-. split; [assumption|reflexivity].
Qed.

(** X10: [get_page_content] always starts with the plain request and
    launches the browser exactly when that request gave nothing or a body
    of 700 characters or fewer; what it returns has more than 700
    characters, and more than 1000 when it comes from the browser; the
    browser tier pauses once, for [min(2, timeout // 5)] seconds, exactly
    when the browser starts and that length is not negative, so one fetch
    sleeps 2 seconds at most. *)
Theorem get_page_content_tiers (attempt : nat) (url : string) :
  let content := fst (get_page_content W timeout attempt url) in
  let fetched := snd (get_page_content W timeout attempt url) in
  (forall body, content = Some body -> (700 < String.length body)%nat)
  /\ (fetched = [Requests attempt url]
      \/ fetched = [Requests attempt url; Chrome attempt url]
      \/ fetched = [Requests attempt url; Chrome attempt url;
                    Sleep (settle timeout)])
  /\ (In (Chrome attempt url) fetched
      <-> forall body, requests_body W attempt url = Some body ->
                       (String.length body <= 700)%nat)
  /\ (In (Chrome attempt url) fetched ->
      forall body, content = Some body ->
                   (1000 < String.length body)%nat
                   /\ chrome_source W attempt url = Some body)
  /\ (In (Sleep (settle timeout)) fetched
      <-> In (Chrome attempt url) fetched
          /\ chrome_starts W attempt url = true /\ 0 <= settle timeout)
  /\ 0 <= slept fetched <= 2.
Proof.
  cbn zeta.
  pose proof (fetched_events attempt url) as (_ & _ & Slept).
  cbn zeta in Slept. revert Slept. unfold get_page_content.
  pose proof (chrome_content attempt url) as C.
  pose proof (chrome_pause attempt url) as (Shape & Paused & _).
  cbn zeta in Shape, Paused.
  destruct (_chrome_strategy W timeout attempt url) as [page paused].
  cbn [fst snd] in C, Shape, Paused.
  assert (No : ~ In (Chrome attempt url) [Requests attempt url])
    by (intros [E|[]]; discriminate).
  assert (NoSleep : ~ In (Sleep (settle timeout)) [Requests attempt url])
    by (intros [E|[]]; discriminate).
  assert (Yes : In (Chrome attempt url)
                   ([Requests attempt url; Chrome attempt url] ++ paused)%list)
    by (right; left; reflexivity).
  assert (Browser :
            (([Requests attempt url; Chrome attempt url] ++ paused)%list
             = [Requests attempt url; Chrome attempt url]
             \/ ([Requests attempt url; Chrome attempt url] ++ paused)%list
                = [Requests attempt url; Chrome attempt url;
                   Sleep (settle timeout)])
            /\ (In (Sleep (settle timeout))
                   ([Requests attempt url; Chrome attempt url] ++ paused)%list
                <-> In (Chrome attempt url)
                       ([Requests attempt url; Chrome attempt url] ++ paused)%list
                    /\ chrome_starts W attempt url = true
                    /\ 0 <= settle timeout)).
  { destruct Shape as [-> | ->].
    - split; [left; reflexivity|]. split.
      + intros [E|[E|[]]]; discriminate.
      + intros (_ & St). apply Paused in St. discriminate.
    - split; [right; reflexivity|]. split.
      + intros _. split; [exact Yes|]. apply Paused. reflexivity.
      + intros _. right. right. left. reflexivity. }
  destruct Browser as (Bshape & Bsleep).
  destruct (requests_body W attempt url) as [body|] eqn:Rq.
  - destruct (Nat.ltb_spec 700 (String.length body)) as [Long|Short].
    + assert (T : truthy (Some body) = true)
        by (destruct body; [simpl in Long; lia|reflexivity]).
      rewrite T. cbn [andb fst snd]. intros Slept.
      split; [intros b E; injection E as <-; exact Long|].
      split; [left; reflexivity|]. split.
      * split; [intros I; destruct (No I)|].
        intros H. specialize (H body eq_refl). lia.
      * split; [intros I; destruct (No I)|]. split; [|exact Slept].
        split; [intros I; destruct (NoSleep I)|].
        intros (I & _). destruct (No I).
    + rewrite andb_false_r. cbn [fst snd]. intros Slept.
      split; [intros b E; apply C in E as [E _]; lia|].
      split; [right; exact Bshape|]. split.
      * split; [|intros _; exact Yes].
        intros _ b E. injection E as <-. exact Short.
      * split; [intros _; exact C|]. split; [exact Bsleep|exact Slept].
  - cbn [fst snd]. intros Slept.
    split; [intros b E; apply C in E as [E _]; lia|].
    split; [right; exact Bshape|]. split.
    + split; [intros _ b E; discriminate|intros _; exact Yes].
    + split; [intros _; exact C|]. split; [exact Bsleep|exact Slept].
Qed.

(** X11: with a retry count of 0 or more, the row of [scrape_website] has a
    website that starts with a scheme and is either a success (no error, a
    domain, between 0 and [retry_count] retries) or a failure (an error
    text, exactly [retry_count] retries, no domain and no signal); with a
    negative retry count nothing is fetched and the row is a failure
    without error text, with -1 retries and the url as given. *)
Theorem scrape_website_outcome (url : string) :
  let row := fst (scrape_website W retry_count timeout url) in
  (0 <= retry_count ->
   has_scheme (website row) = true
   /\ ((status row = "success"%string /\ error row = None
        /\ domain row <> None /\ 0 <= retries row <= retry_count)
       \/ (status row = "failed"%string /\ error row <> None
           /\ retries row = retry_count /\ domain row = None
           /\ phones row = [] /\ addresses row = []
           /\ social_links row = [])))
  /\ (retry_count < 0 ->
      scrape_website W retry_count timeout url = (gave_up url None 0, [])).
Proof.
  cbn zeta. destruct (scrape_website_spec url) as [S|X].
  - destruct S as (k & d & c & t & L & U & E & _).
    split; [|intros N; lia].
    intros _. rewrite E. cbn [website status error domain retries success_row].
    split; [apply with_scheme_has_scheme|]. left.
    repeat split; try lia. discriminate.
  - destruct X as (r & err & E & Row & Some_ & Late & _). split.
    + intros P. rewrite Row.
      destruct (Z.leb_spec (Z.of_nat 0) retry_count); [|simpl in *; lia].
      cbn [website status error domain retries phones addresses social_links
           gave_up].
      split; [apply with_scheme_has_scheme|]. right.
      repeat split; try reflexivity; [apply Some_; simpl; lia|lia].
    + intros N. destruct Late as [-> Nil]; [simpl; lia|].
      rewrite (surjective_pairing (scrape_website W retry_count timeout url)).
      rewrite Row, Nil.
      destruct (Z.leb_spec (Z.of_nat 0) retry_count); [simpl in *; lia|].
      replace r with 0%nat by lia. reflexivity.
Qed.

(** X12: one scrape calls the request tier at most [retry_count + 1]
    times, the browser tier never more often than the request tier, and
    sleeps at most [retry_count + 1] times the longest pause between
    attempts (2 seconds, or twice the retry count when that is more) plus
    the 2 seconds of the browser tier; a success after [k] retries has
    cost at most [k + 1] calls of the request tier, [k] pauses between
    attempts and [k + 1] pauses of the browser tier. *)
Theorem scrape_website_budget (url : string) :
  let row := fst (scrape_website W retry_count timeout url) in
  let log := snd (scrape_website W retry_count timeout url) in
  (requests_in log <= Z.to_nat (retry_count + 1))%nat
  /\ (chrome_in log <= requests_in log)%nat
  /\ 0 <= slept log
     <= Z.of_nat (Z.to_nat (retry_count + 1))
        * (worst_pause retry_count + 2)
  /\ (status row = "success"%string ->
      Z.of_nat (requests_in log) <= retries row + 1
      /\ slept log
         <= retries row * worst_pause retry_count + (retries row + 1) * 2).
Proof.
  cbn zeta. pose proof worst_pause_bounds as (W2 & _).
  destruct (scrape_website_spec url) as [S|X].
  - destruct S as (k & d & c & t & L & U & E & Q & C & P).
    rewrite E. cbn [status retries success_row].
    rewrite Nat.sub_0_r in *.
    split; [lia|]. split; [exact C|]. split; [nia|].
    intros _. split; lia.
  - destruct X as (r & err & E & Row & _ & _ & Q & C & P).
    rewrite Row. cbn [status gave_up]. rewrite Nat.sub_0_r in *.
    assert (R : r = Z.to_nat (retry_count + 1)) by (simpl in E; lia).
    rewrite <- R. split; [exact Q|]. split; [exact C|]. split; [exact P|].
    discriminate.
Qed.

End Rounds.

Example scrape_third_time_lucky :
  let result := scrape_website slow_site 2 10 "acme.com" in
  (website (fst result), domain (fst result), status (fst result),
   phones (fst result), retries (fst result))
  = ("http://acme.com"%string, Some "acme.com"%string, "success"%string,
     ["6285559999"%string], 2)
  /\ snd result
     = [Requests 0 "http://acme.com"; Chrome 0 "http://acme.com"; Sleep 2;
        Sleep 2;
        Requests 1 "http://acme.com"; Chrome 1 "http://acme.com"; Sleep 2;
        Sleep 2;
        Requests 2 "http://acme.com"].
Proof. vm_compute. split; reflexivity. Qed.

(** Without retries a dead site costs the pause of the browser and the
    pause after the attempt: 4 seconds. *)
Example scrape_gives_up :
  scrape_website slow_site 0 10 "acme.com"
  = (gave_up "http://acme.com" (Some "Failed to retrieve page content"%string)
             1,
     [Requests 0 "http://acme.com"; Chrome 0 "http://acme.com"; Sleep 2;
      Sleep 2])
  /\ slept (snd (scrape_website slow_site 0 10 "acme.com")) = 4.
Proof. vm_compute. split; reflexivity. Qed.

End FetcherFacts.

(** ** Social links *)
Module SocialFacts.
Import PyStr Re ReAlt Normalizers Extractors.
Import PyStrFacts ReFacts LowerFacts PhonePatternFacts NormalizerFacts.

(** A literal word matches only itself. *)
Lemma run_word_inv {R : Type} (w : string) (r : regex) :
  forall (s : string) (g : option string)
         (k : string -> option string -> option R) (x : R),
    run (word w r) s g k = Some x ->
    exists s1, s = w ++ s1 /\ run r s1 g k = Some x.
Proof.
  induction w as [|c w IH]; intros s g k x H.
  - exists s. split; [reflexivity|exact H].
  - simpl in H. destruct s as [|c' s]; [discriminate|].
    destruct (Ascii.eqb_spec c c') as [<-|N]; [|discriminate].
    apply IH in H as (s1 & -> & H). exists s1. split; [reflexivity|exact H].
Qed.

Lemma append_empty_r (s : string) : s ++ "" = s.
Proof.
  induction s as [|c s IH]; [reflexivity|].
  change (String c s ++ "") with (String c (s ++ "")). f_equal. exact IH.
Qed.

(** A match of the facebook pattern of the scraper: the host, a slash and
    a non-empty run of link characters. *)
Lemma facebook_match_shape (t : string) (m : match_object) :
  xmatch facebook_pattern t = Some m ->
  exists a,
    captured m = "facebook.com/" ++ a /\ a <> ""
    /\ all_chars link_char a = true.
Proof.
  unfold xmatch, facebook_pattern. cbn [xrun]. intros H.
  apply run_word_inv in H as (s1 & -> & H).
  unfold plus in H. cbn [run] in H.
  apply rep_consumed in H as (a & s' & -> & A & L & _ & K).
  injection K as <-. exists a.
  assert (T : take (String.length (("facebook.com/" ++ a) ++ s')
                    - String.length s') (("facebook.com/" ++ a) ++ s')
              = "facebook.com/" ++ a) by apply take_consumed.
  split; [exact T|]. split; [|exact A].
  intros ->. simpl in L. lia.
Qed.

Lemma xfindall_from_match (r : xregex) (n : nat) :
  forall (s x : string),
    In x (xfindall_from n r s) ->
    exists t m, xmatch r t = Some m /\ x = captured m.
Proof.
  induction n as [|n IH]; intros s x I; [destruct I|].
  simpl in I. destruct (xmatch r s) as [m|] eqn:M.
  - assert (Here : x = captured m -> exists t m', xmatch r t = Some m'
                                                 /\ x = captured m')
      by (intros ->; exists s, m; split; [exact M|reflexivity]).
    destruct (whole m) as [|w ws]; destruct s as [|c s];
      destruct I as [E|I]; try (apply Here; symmetry; exact E);
      try (destruct I); eauto.
  - destruct s as [|c s]; [destruct I|]. eauto.
Qed.

(** An entry of the loop: a pattern of the table that matched. *)
Lemma social_entry (patterns : list (string * xregex)) (text platform : string)
      (links : gset string) :
  In (platform, links) (social_entries patterns text) ->
  exists pattern,
    In (platform, pattern) patterns
    /\ links = list_to_set (xfindall pattern text)
    /\ xfindall pattern text <> [].
Proof.
  induction patterns as [|[p pat] patterns IH]; simpl; [intros []|].
  destruct (xfindall pat text) as [|x xs] eqn:F.
  - intros I. destruct (IH I) as (pattern & I' & E & N).
    exists pattern. split; [right; exact I'|]. split; assumption.
  - intros [E|I].
    + injection E as <- <-. exists pat. split; [left; reflexivity|].
      rewrite F. split; [reflexivity|discriminate].
    + destruct (IH I) as (pattern & I' & E & N).
      exists pattern. split; [right; exact I'|]. split; assumption.
Qed.

Lemma social_platforms (patterns : list (string * xregex)) (text : string) :
  sublist (map fst (social_entries patterns text)) (map fst patterns).
Proof.
  induction patterns as [|[p pat] patterns IH]; simpl; [constructor|].
  destruct (xfindall pat text); simpl.
  - apply sublist_cons, IH.
  - apply sublist_skip, IH.
Qed.

Lemma facebook_links_shape (text : string) (links : gset string) (l : string) :
  In ("facebook", links) (extract_social_media text) -> l ∈ links ->
  exists a, l = "facebook.com/" ++ a /\ a <> ""
            /\ all_chars link_char a = true.
Proof.
  unfold extract_social_media.
  destruct (negb (truthy (Some text))); [intros []|].
  intros I L. apply social_entry in I as (pattern & I & -> & _).
  assert (P : pattern = facebook_pattern).
  { simpl in I.
    destruct I as [E|[E|[E|[E|[E|[]]]]]]; try discriminate E.
    injection E as <-. reflexivity. }
  subst pattern. apply elem_of_list_to_set, list_elem_of_In in L.
  unfold xfindall in L. apply xfindall_from_match in L as (t & m & M & ->).
  exact (facebook_match_shape t m M).
Qed.

(** X13: [extract_social_media] lists platforms among facebook, twitter,
    instagram, linkedin and youtube, each at most once and in that order;
    a listed platform has at least one link; and every facebook link is
    [facebook.com/] followed by a non-empty run of letters, digits, dots,
    dashes and underscores. *)
Theorem extract_social_media_shape (text : string) :
  sublist (map fst (extract_social_media text))
          ["facebook"; "twitter"; "instagram"; "linkedin"; "youtube"]
  /\ NoDup (map fst (extract_social_media text))
  /\ (forall platform links,
        In (platform, links) (extract_social_media text) -> links <> ∅)
  /\ (forall links l,
        In ("facebook", links) (extract_social_media text) -> l ∈ links ->
        exists a, l = "facebook.com/" ++ a /\ a <> ""
                  /\ all_chars link_char a = true).
Proof.
  assert (S : sublist (map fst (extract_social_media text))
                      ["facebook"; "twitter"; "instagram"; "linkedin";
                       "youtube"]).
  { unfold extract_social_media.
    destruct (negb (truthy (Some text))); [apply sublist_nil_l|].
    apply (social_platforms social_media_patterns text). }
  split; [exact S|]. split; [|split].
  - apply (proj1 (NoDup_ListNoDup _)).
    eapply sublist_NoDup; [|exact S].
    apply (bool_decide_unpack _). vm_compute. exact I.
  - intros platform links I. unfold extract_social_media in I.
    destruct (negb (truthy (Some text))); [destruct I|].
    apply social_entry in I as (pattern & _ & -> & N).
    destruct (xfindall pattern text) as [|x xs]; [congruence|].
    intros E. assert (X : x ∈ (list_to_set (x :: xs) : gset string))
      by (apply elem_of_list_to_set; left).
    rewrite E in X. apply elem_of_empty in X. exact X.
  - intros links l. apply facebook_links_shape.
Qed.

(** X14: every facebook link that [extract_social_media] finds is
    normalized by the matcher's [_normalize_facebook_url] to its handle in
    lower case, which is not empty. *)
Theorem extracted_facebook_link_normalizes
        (text : string) (links : gset string) (l : string) :
  In ("facebook", links) (extract_social_media text) -> l ∈ links ->
  exists a,
    l = "facebook.com/" ++ a
    /\ _normalize_facebook_url (Some l) = Some (lower a)
    /\ lower a <> "".
Proof.
  intros I L. destruct (facebook_links_shape text links l I L)
    as (a & -> & N & A).
  exists a. split; [reflexivity|]. split.
  - pose proof (handle_recovered "" "facebook.com/" a ""
                                 (or_introl eq_refl) (or_introl eq_refl)
                                 N A eq_refl) as H.
    rewrite append_empty_r in H. exact H.
  - rewrite lower_nonempty. exact N.
Qed.

Lemma page_has_facebook :
  In ("facebook"%string,
      (list_to_set ["facebook.com/AcmeCo"%string] : gset string))
     (extract_social_media Demo2.page)
  /\ "facebook.com/AcmeCo"
     ∈ (list_to_set ["facebook.com/AcmeCo"%string] : gset string).
Proof.
  split.
  - assert (F : xfindall facebook_pattern Demo2.page
                = ["facebook.com/AcmeCo"%string]) by (vm_compute; reflexivity).
    unfold extract_social_media.
    change (negb (truthy (Some Demo2.page))) with false. cbv iota.
    unfold social_media_patterns. cbn [social_entries]. rewrite F.
    left. reflexivity.
  - apply elem_of_list_to_set. left.
Qed.

Lemma extracted_facebook_link_normalizes_witness :
  (In ("facebook"%string,
       (list_to_set ["facebook.com/AcmeCo"%string] : gset string))
      (extract_social_media Demo2.page)
   /\ "facebook.com/AcmeCo"
      ∈ (list_to_set ["facebook.com/AcmeCo"%string] : gset string))
  /\ exists a, "facebook.com/AcmeCo" = "facebook.com/" ++ a
               /\ _normalize_facebook_url (Some "facebook.com/AcmeCo")
                  = Some (lower a).
Proof.
  split; [exact page_has_facebook|].
  destruct page_has_facebook as (I & L).
  destruct (extracted_facebook_link_normalizes Demo2.page _ _ I L)
    as (a & E & N & _).
  exists a. split; assumption.
Defined.

End SocialFacts.

(** ** The routes of the service *)
Module ApiFacts.
Import PyStr Numbers Normalizers Matcher Selection QueryLog Api.
Import GatherFacts MatcherFacts LogFacts.

Section Routes.
Context {A : arith}.
Variable B : backend A.
Variable format_rate : nat -> nat -> string.
Variable untyped_name :
  json -> option string -> option string -> option string ->
  ending A * list (es_query * nat).

Lemma any_field_some (q : fields) :
  any_field q = some_field (f_name q) (f_website q) (f_phone q) (f_facebook q).
Proof. reflexivity. Qed.

Lemma single_call_no_multi (b : bool) (q : es_query) (size : nat) :
  is_multi_match (q, size) = false ->
  existsb is_multi_match (if b then [(q, size)] else []) = false.
Proof. intros H. destruct b; simpl; [rewrite H|]; reflexivity. Qed.

(** The fallback ran exactly when the probes found nothing and a field
    was there. *)
Lemma fallback_in_log (name website phone facebook : option string) :
  existsb is_multi_match (snd (match_company B name website phone facebook))
  = true
  <-> primary_candidates B name website phone facebook = []
      /\ some_field name website phone facebook = true.
Proof.
  rewrite query_log_expected. unfold expected_calls.
  rewrite !existsb_app.
  assert (D : existsb is_multi_match (domain_calls B website) = false).
  { unfold domain_calls. destruct (_extract_domain B website);
      [apply single_call_no_multi|]; reflexivity. }
  assert (P : existsb is_multi_match (phone_calls phone) = false).
  { unfold phone_calls. destruct (_normalize_phone phone);
      [apply single_call_no_multi|]; reflexivity. }
  assert (F : existsb is_multi_match (facebook_calls facebook) = false).
  { unfold facebook_calls. destruct (_normalize_facebook_url facebook);
      [apply single_call_no_multi|]; reflexivity. }
  assert (N : existsb is_multi_match (name_calls name) = false).
  { unfold name_calls. destruct name;
      [apply single_call_no_multi|]; reflexivity. }
  rewrite D, P, F, N. cbn [orb]. unfold fallback_calls.
  destruct (primary_candidates B name website phone facebook).
  - destruct (some_field name website phone facebook); simpl;
      intuition congruence.
  - simpl. intuition congruence.
Qed.

Lemma as_text_truthy (v : json) (text : option string) :
  as_text v = Some text -> json_truthy v = truthy text.
Proof.
  destruct v as [|b|nz|s|items|members]; simpl;
    try (destruct b); try (destruct nz); try (destruct items);
    try (destruct members); intros E; try discriminate E;
    injection E as <-; reflexivity.
Qed.

Lemma odd_truthy (v : json) : odd v = true -> json_truthy v = true.
Proof.
  unfold odd, as_text.
  destruct v as [|b|nz|s|items|members]; simpl;
    try (destruct b); try (destruct nz); try (destruct items);
    try (destruct members); intros E; try discriminate E; reflexivity.
Qed.

Lemma request_fields_values (members : list (string * json)) (q : fields) :
  request_fields members = Some q ->
  as_text (json_get members "name") = Some (f_name q)
  /\ as_text (json_get members "website") = Some (f_website q)
  /\ as_text (json_get members "phone") = Some (f_phone q)
  /\ as_text (json_get members "facebook") = Some (f_facebook q).
Proof.
  unfold request_fields.
  destruct (as_text (json_get members "name")) as [n|]; [|discriminate].
  destruct (as_text (json_get members "website")) as [w|]; [|discriminate].
  destruct (as_text (json_get members "phone")) as [p|]; [|discriminate].
  destruct (as_text (json_get members "facebook")) as [f|]; [|discriminate].
  intros E. injection E as <-. repeat split; reflexivity.
Qed.

Lemma request_fields_any (members : list (string * json)) (q : fields) :
  request_fields members = Some q -> any_truthy members = any_field q.
Proof.
  intros E. apply request_fields_values in E as (N & W & P & F).
  unfold any_truthy, any_field.
  rewrite (as_text_truthy _ _ N), (as_text_truthy _ _ W),
    (as_text_truthy _ _ P), (as_text_truthy _ _ F). reflexivity.
Qed.

(** On values that are strings or falsy the call is the one of the
    embedding. *)
Lemma match_company_json_typed (members : list (string * json))
      (q : fields) :
  request_fields members = Some q ->
  match_company_json B untyped_name
                     (json_get members "name") (json_get members "website")
                     (json_get members "phone")
                     (json_get members "facebook")
  = (Answered (fst (ask B q)), snd (ask B q)).
Proof.
  intros E. apply request_fields_values in E as (N & W & P & F).
  unfold match_company_json, ask. rewrite N, W, P, F.
  destruct (match_company B (f_name q) (f_website q) (f_phone q)
                          (f_facebook q)); reflexivity.
Qed.

(** A truthy website, phone or facebook value that is not a string ends
    the call with an exception. *)
Lemma match_company_json_crashes (name website phone facebook : json) :
  odd website || odd phone || odd facebook = true ->
  fst (match_company_json B untyped_name name website phone facebook)
  = Crashed.
Proof.
  unfold odd, match_company_json.
  destruct (as_text website); [|reflexivity].
  destruct (as_text phone); [|reflexivity].
  destruct (as_text facebook); [discriminate|reflexivity].
Qed.

(** X15: the route [/api/match] answers 400 exactly when the body is an
    object none of whose four values is truthy, and then no query is
    sent; it answers 500, the exception leaving the view, when the body
    is not an object, and when the website, the phone or the facebook
    value is truthy without being a string; when the four values are
    strings or falsy it answers 200 with the record of [match_company]
    or 404 when there is none, and then the fallback query is sent
    exactly when the four field probes found no candidate. *)
Theorem match_route (data : json) :
  let resp := fst (match_company_api B untyped_name data) in
  let sent := snd (match_company_api B untyped_name data) in
  (code resp = 400%nat
   <-> exists members, data = JObject members /\ any_truthy members = false)
  /\ (code resp = 400%nat -> sent = [])
  /\ ((forall members, data <> JObject members) ->
      resp = mkResponse 500 ServerError /\ sent = [])
  /\ (forall members key,
        data = JObject members ->
        In key ["website"; "phone"; "facebook"] ->
        odd (json_get members key) = true ->
        resp = mkResponse 500 ServerError)
  /\ (forall members q,
        data = JObject members -> request_fields members = Some q ->
        (code resp = 400%nat <-> any_field q = false)
        /\ (code resp = 404%nat
            <-> any_field q = true /\ fst (ask B q) = None)
        /\ (forall r, resp = mkResponse 200 (Found r)
                      <-> any_field q = true /\ fst (ask B q) = Some r)
        /\ (code resp = 200%nat \/ code resp = 400%nat
            \/ code resp = 404%nat)
        /\ (any_field q = true ->
            sent = snd (ask B q)
            /\ (existsb is_multi_match sent = true
                <-> primary_candidates B (f_name q) (f_website q)
                                       (f_phone q) (f_facebook q) = [])))
  /\ (code resp = 200%nat \/ code resp = 400%nat \/ code resp = 404%nat
      \/ code resp = 500%nat).
Proof.
  cbn zeta. unfold match_company_api.
  destruct data as [|b|nz|s|items|members];
    try (cbn [fst snd code];
         split; [split; [discriminate|intros (m & E & _); discriminate]|];
         split; [discriminate|];
         split; [intros _; split; reflexivity|];
         split; [intros m k E; discriminate|];
         split; [intros m q E; discriminate|];
         right; right; right; reflexivity).
  destruct (any_truthy members) eqn:Any; cbn [negb].
  2:{ cbn [fst snd code].
      split; [split; [intros _; exists members; split; [reflexivity|exact Any]
                     |reflexivity]|].
      split; [reflexivity|].
      split; [intros N; destruct (N members eq_refl)|].
      split.
      { intros m k E I O. injection E as <-. apply odd_truthy in O.
        unfold any_truthy in Any.
        apply orb_false_elim in Any as [Any Ff].
        apply orb_false_elim in Any as [Any Fp].
        apply orb_false_elim in Any as [Fn Fw].
        destruct I as [<-|[<-|[<-|[]]]]; congruence. }
      split.
      { intros m q E R. injection E as <-.
        rewrite (request_fields_any _ _ R) in Any.
        split; [split; [intros _; exact Any|reflexivity]|].
        split; [split; [discriminate|intros [T _]; congruence]|].
        split; [intros r; split; [discriminate|intros [T _]; congruence]|].
        split; [right; left; reflexivity|intros T; congruence]. }
      right. left. reflexivity. }
  assert (Not400 :
            forall r : response A * list (es_query * nat),
              code (fst r) <> 400%nat ->
              (code (fst r) = 400%nat
               <-> exists m, JObject members = JObject m
                             /\ any_truthy m = false)
              /\ (code (fst r) = 400%nat -> snd r = [])).
  { intros r N. split; [split; [intros E; destruct (N E)|]|].
    - intros (m & E & F). injection E as <-. congruence.
    - intros E. destruct (N E). }
  split; [|split]; [| |split; [intros N; destruct (N members eq_refl)|]].
  1,2: destruct (match_company_json B untyped_name _ _ _ _) as [[[r|]|] sent];
       cbn [fst snd code]; try discriminate;
       (split; [discriminate|intros (m & E & F); injection E as <-; congruence]).
  split.
  { intros m k E I O. injection E as <-.
    pose proof (match_company_json_crashes
                  (json_get members "name") (json_get members "website")
                  (json_get members "phone") (json_get members "facebook"))
      as C.
    destruct (match_company_json B untyped_name _ _ _ _) as [ended sent].
    cbn [fst] in C. rewrite C; [reflexivity|].
    destruct I as [<-|[<-|[<-|[]]]]; rewrite O;
      rewrite ?orb_true_r; reflexivity. }
  split.
  { intros m q E R. injection E as <-.
    rewrite (match_company_json_typed _ _ R).
    rewrite (request_fields_any _ _ R) in Any.
    pose proof (fallback_in_log (f_name q) (f_website q)
                                (f_phone q) (f_facebook q)) as FL.
    rewrite <- any_field_some in FL. fold (ask B q) in FL.
    destruct (ask B q) as [found sent] eqn:Q. cbn [fst snd] in *.
    assert (Last : any_field q = true ->
                   sent = sent
                   /\ (existsb is_multi_match sent = true
                       <-> primary_candidates B (f_name q) (f_website q)
                             (f_phone q) (f_facebook q) = [])).
    { intros _. split; [reflexivity|]. split.
      - intros H. apply FL in H as [H _]. exact H.
      - intros H. apply FL. split; [exact H|exact Any]. }
    destruct found as [record|]; cbn [fst snd code payload].
    + split; [split; [discriminate|congruence]|].
      split; [split; [discriminate|intros [_ E]; discriminate]|].
      split.
      { intros r. split.
        - intros E. injection E as <-. split; [exact Any|reflexivity].
        - intros [_ E]. injection E as <-. reflexivity. }
      split; [left; reflexivity|exact Last].
    + split; [split; [discriminate|congruence]|].
      split; [split; [intros _; split; [exact Any|reflexivity]|reflexivity]|].
      split; [intros r; split; [discriminate|intros [_ E]; discriminate]|].
      split; [right; right; reflexivity|exact Last]. }
  destruct (match_company_json B untyped_name _ _ _ _) as [[[r|]|] sent];
    cbn [fst code]; auto.
Qed.

Lemma match_all_results (items : list fields) :
  fst (match_all B items) = map (fun q => (q, fst (ask B q))) items
  /\ snd (match_all B items) = List.concat (map (fun q => snd (ask B q)) items).
Proof.
  induction items as [|q items [IH1 IH2]]; [split; reflexivity|].
  simpl. destruct (ask B q) as [found sent].
  destruct (match_all B items) as [results sent']. cbn [fst snd] in *.
  rewrite IH1, IH2. split; reflexivity.
Qed.

Lemma matched_bound {I : Type}
      (results : list (I * option (CompanyRecord A))) :
  (matched results <= List.length results)%nat.
Proof. unfold matched. apply filter_length_le. Qed.

(** The loop on items that are objects of strings or falsy values. *)
Lemma bulk_loop_typed (items : list json) (qs : list fields) :
  typed_items items = Some qs ->
  bulk_loop B untyped_name items
  = (Some (combine items (map (fun q => fst (ask B q)) qs)),
     List.concat (map (fun q => snd (ask B q)) qs))
  /\ List.length qs = List.length items.
Proof.
  revert qs. induction items as [|item items IH]; intros qs T.
  - injection T as <-. split; reflexivity.
  - cbn [typed_items] in T.
    destruct item as [|b|nz|s|its|members]; try discriminate T.
    destruct (request_fields members) as [q|] eqn:R; [|discriminate].
    destruct (typed_items items) as [qs'|]; [|discriminate].
    injection T as <-. destruct (IH qs' eq_refl) as (L & N).
    cbn [bulk_loop]. rewrite (match_company_json_typed _ _ R), L.
    cbn [fst snd map combine List.concat List.length]. rewrite N.
    split; reflexivity.
Qed.

(** The loop on a list with an item that ends in an exception. *)
Lemma bulk_loop_crashes (items : list json) (item : json) :
  In item items -> crashes item = true ->
  fst (bulk_loop B untyped_name items) = None.
Proof.
  induction items as [|first items IH]; [intros []|].
  intros I C. cbn [bulk_loop].
  destruct first as [|b|nz|s|its|members]; try reflexivity.
  destruct (match_company_json B untyped_name _ _ _ _) as [ended sent] eqn:M.
  destruct ended as [found|]; [|reflexivity].
  destruct I as [<-|I].
  - exfalso. cbn [crashes] in C.
    pose proof (match_company_json_crashes
                  (json_get members "name") (json_get members "website")
                  (json_get members "phone") (json_get members "facebook") C)
      as K.
    rewrite M in K. discriminate.
  - specialize (IH I C).
    destruct (bulk_loop B untyped_name items) as [results sent'].
    cbn [fst] in IH. rewrite IH. reflexivity.
Qed.

(** X16: the bulk route answers 400 for a body that is not a list,
    without any query; for a list of objects whose four values are
    strings or falsy it answers 200 with one result per item, in the
    order of the items, each the answer of [match_company] for that
    item; [total_count] is the number of items and [match_count], never
    more, the number of items with a record; an item without fields is
    not refused: its match is null and it sends no query; and for a list
    with an item that is not an object, or whose website, phone or
    facebook value is truthy without being a string, it answers 500. *)
Theorem bulk_route (data : json) :
  ((forall items, data <> JArray items) ->
   bulk_match_companies B untyped_name data
   = (mkResponse 400 (Failure "Input must be a list of company data objects"),
      []))
  /\ (forall items qs,
        data = JArray items -> typed_items items = Some qs ->
        exists results,
          bulk_match_companies B untyped_name data
          = (mkResponse 200
               (BulkReport (matched results) (List.length items) results),
             List.concat (map (fun q => snd (ask B q)) qs))
          /\ results = combine items (map (fun q => fst (ask B q)) qs)
          /\ List.length results = List.length items
          /\ (matched results <= List.length items)%nat
          /\ (forall q, In q qs -> any_field q = false ->
                        ask B q = (None, [])))
  /\ (forall items item,
        data = JArray items -> In item items -> crashes item = true ->
        fst (bulk_match_companies B untyped_name data)
        = mkResponse 500 ServerError).
Proof.
  split; [|split].
  - intros N. destruct data as [|b|nz|s|items|members]; try reflexivity.
    destruct (N items eq_refl).
  - intros items qs -> T. unfold bulk_match_companies.
    destruct (bulk_loop_typed items qs T) as (L & N). rewrite L.
    set (results := combine items (map (fun q => fst (ask B q)) qs)).
    assert (Len : List.length results = List.length items).
    { unfold results. rewrite length_combine, length_map, N.
      apply Nat.min_id. }
    exists results.
    split; [rewrite <- Len; reflexivity|]. split; [reflexivity|].
    split; [exact Len|]. split.
    + rewrite <- Len. apply matched_bound.
    + intros q _ NoField. unfold ask. apply match_company_no_field.
      rewrite <- any_field_some. exact NoField.
  - intros items item -> I C. unfold bulk_match_companies.
    pose proof (bulk_loop_crashes items item I C) as K.
    destruct (bulk_loop B untyped_name items) as [results sent].
    cbn [fst] in K. rewrite K. reflexivity.
Qed.

(** X17: the csv route answers 400, without any query, when there is no
    file, no file name, or a name that does not end in [.csv]; it answers
    500 when reading the file raises and also when the file has no data
    row, the match rate being a division by the number of rows; otherwise
    it answers 200 with one result per row, [total_count] rows and
    [matched_count], never more, rows with a record. *)
Theorem csv_route (file : option upload) :
  let resp := fst (process_csv_api B format_rate file) in
  let sent := snd (process_csv_api B format_rate file) in
  (code resp = 400%nat
   <-> (file = None
        \/ exists f, file = Some f
                     /\ (filename f = "" \/ endswith ".csv" (filename f) = false)))
  /\ (code resp = 400%nat -> sent = [])
  /\ (forall f, file = Some f -> filename f <> "" ->
                endswith ".csv" (filename f) = true ->
                (code resp = 500%nat <-> broken f <> None \/ rows f = [])
                /\ (code resp = 200%nat <-> broken f = None /\ rows f <> [])
                /\ (code resp = 200%nat ->
                    exists results,
                      results = map (fun q => (q, fst (ask B q))) (rows f)
                      /\ payload resp
                         = CsvReport (format_rate (matched results)
                                                  (List.length (rows f)))
                                     (matched results)
                                     (List.length (rows f)) results
                      /\ (matched results <= List.length (rows f))%nat)).
Proof.
  cbn zeta. unfold process_csv_api.
  destruct file as [f|].
  2:{ split; [split; [intros _; left; reflexivity|reflexivity]|].
      split; [reflexivity|]. intros f E. discriminate. }
  destruct (String.eqb_spec (filename f) "") as [Empty|Named].
  { split; [split; [|reflexivity]|].
    - intros _. right. exists f. split; [reflexivity|left; exact Empty].
    - split; [reflexivity|]. intros f' E N. injection E as <-. congruence. }
  destruct (endswith ".csv" (filename f)) eqn:Csv; cbn [negb].
  2:{ split; [split; [|reflexivity]|].
      - intros _. right. exists f. split; [reflexivity|right; exact Csv].
      - split; [reflexivity|]. intros f' E _ C. injection E as <-. congruence. }
  destruct (match_all_results (rows f)) as (R & S).
  destruct (match_all B (rows f)) as [results sent]. cbn [fst snd] in R, S.
  assert (L : List.length results = List.length (rows f))
    by (rewrite R; apply length_map).
  split.
  { split.
    - destruct (broken f); [discriminate|].
      destruct results; discriminate.
    - intros [E|(f' & E & [N|C])]; [discriminate| |];
        injection E as <-; congruence. }
  split.
  { destruct (broken f); [discriminate|]. destruct results; discriminate. }
  intros f' E _ _. injection E as <-.
  destruct (broken f) as [e|]; cbn [fst snd code payload].
  { split; [split; [intros _; left; discriminate|reflexivity]|].
    split; [split; [discriminate|intros [? _]; discriminate]|discriminate]. }
  destruct results as [|r results]; cbn [fst snd code payload].
  - assert (Z : rows f = []) by (destruct (rows f); [reflexivity|discriminate]).
    split; [split; [intros _; right; exact Z|reflexivity]|].
    split; [split; [discriminate|intros [_ N]; congruence]|discriminate].
  - assert (NZ : rows f <> []) by (intros Z; rewrite Z in L; discriminate).
    split; [split; [discriminate|intros [N|Z]; congruence]|].
    split; [split; [intros _; split; [reflexivity|exact NZ]|reflexivity]|].
    intros _. exists (r :: results). split; [exact R|].
    rewrite L. split; [reflexivity|].
    rewrite <- L. apply matched_bound.
Qed.

End Routes.

(** A phone given as a number: the name probe never runs, the view ends
    with the exception of [re.sub]. *)
Example match_route_phone_number :
  match_company_api Demo.index name_raises phone_as_number
  = (mkResponse 500 ServerError, []).
Proof. reflexivity. Qed.

Example bulk_route_string_item :
  bulk_match_companies Demo.index name_raises (JArray [JString "acme"])
  = (mkResponse 500 ServerError, []).
Proof. reflexivity. Qed.

Example match_route_falsy_values :
  fst (match_company_api Demo.index name_raises
         (JObject [("name", JNumber false); ("website", JArray [])]))
  = mkResponse 400
      (Failure "At least one of name, website, phone, or facebook must be provided").
Proof. reflexivity. Qed.

End ApiFacts.

(** ** Loading and analysing *)
Module PipelineFacts.
Import PyStr Scraper Pipeline.

Lemma rstrip_idempotent (s : string) : rstrip (rstrip s) = rstrip s.
Proof.
  induction s as [|c s IH]; [reflexivity|].
  simpl. destruct (rstrip s) as [|d r] eqn:E.
  - destruct (is_space c) eqn:Sp; [reflexivity|].
    simpl. rewrite Sp. reflexivity.
  - change (rstrip (String c (String d r)))
      with (match rstrip (String d r) with
            | EmptyString => if is_space c then EmptyString
                             else String c EmptyString
            | r0 => String c r0
            end).
    rewrite IH. reflexivity.
Qed.

Lemma rstrip_keeps_head (c : ascii) (t : string) :
  is_space c = false -> exists r, rstrip (String c t) = String c r.
Proof.
  intros Sp. simpl. destruct (rstrip t) as [|d r].
  - rewrite Sp. exists "". reflexivity.
  - exists (String d r). reflexivity.
Qed.

Lemma lstrip_head (s : string) :
  lstrip s = "" \/ exists c t, lstrip s = String c t /\ is_space c = false.
Proof.
  induction s as [|c s IH]; [left; reflexivity|].
  simpl. destruct (is_space c) eqn:Sp; [exact IH|].
  right. exists c, s. split; [reflexivity|exact Sp].
Qed.

(** Stripping twice is stripping once. *)
Lemma strip_idempotent (s : string) : strip (strip s) = strip s.
Proof.
  unfold strip. destruct (lstrip_head s) as [E|(c & t & E & Sp)]; rewrite E.
  - reflexivity.
  - destruct (rstrip_keeps_head c t Sp) as (r & R). rewrite R.
    assert (L : lstrip (String c r) = String c r) by (simpl; rewrite Sp; reflexivity).
    rewrite L, <- R. apply rstrip_idempotent.
Qed.

Lemma website_of_clean (row : list string) (w : string) :
  In w (website_of row) ->
  w <> "" /\ strip w = w /\ exists cell rest, row = cell :: rest /\ w = strip cell.
Proof.
  unfold website_of. destruct row as [|cell rest]; [intros []|].
  destruct (strip cell) as [|c s] eqn:E; [intros []|].
  intros [<-|[]]. split; [discriminate|]. split.
  - rewrite <- E. apply strip_idempotent.
  - exists cell, rest. split; [reflexivity|]. symmetry. exact E.
Qed.

(** X18: every website that [load_websites] loads is the first cell of a
    row after the header, stripped of the white space around it, and is not
    empty; the header row is never loaded, and rows that are empty or
    whose first cell is blank are skipped, so at most one website per row
    after the first is loaded. *)
Theorem load_websites_clean (rows : list (list string)) :
  (forall w, In w (load_websites rows) ->
             w <> "" /\ strip w = w
             /\ exists cell rest, In (cell :: rest) (tl rows)
                                  /\ w = strip cell)
  /\ (List.length (load_websites rows) <= List.length rows - 1)%nat
  /\ (forall header, load_websites [header] = []).
Proof.
  split; [|split].
  - intros w I. destruct rows as [|header rest]; [destruct I|].
    simpl in I. apply in_flat_map in I as (row & Ir & I).
    apply website_of_clean in I as (N & S & cell & more & -> & E).
    split; [exact N|]. split; [exact S|].
    exists cell, more. split; [exact Ir|exact E].
  - destruct rows as [|header rest]; [simpl; lia|]. simpl.
    rewrite Nat.sub_0_r. induction rest as [|row rest IH]; [simpl; lia|].
    simpl. rewrite length_app.
    assert (List.length (website_of row) <= 1)%nat.
    { unfold website_of. destruct row; [simpl; lia|].
      destruct (truthy _); simpl; lia. }
    lia.
  - reflexivity.
Qed.

Example load_websites_sample :
  load_websites [["domain"]; ["  acme.com "]; []; ["   "]; ["apex.io"; "x"]]
  = ["acme.com"; "apex.io"].
Proof. reflexivity. Qed.

Local Open Scope Q_scope.

Lemma ratio_percent (a b : nat) :
  (a <= b)%nat -> (0 < b)%nat -> 0 <= ratio a b * 100 <= 100.
Proof.
  intros L P. unfold ratio.
  assert (Pb : 0 < inject_Z (Z.of_nat b)).
  { change 0 with (inject_Z 0). rewrite <- Zlt_Qlt. lia. }
  assert (La : inject_Z (Z.of_nat a) <= inject_Z (Z.of_nat b))
    by (rewrite <- Zle_Qle; lia).
  assert (Na : 0 <= inject_Z (Z.of_nat a)).
  { change 0 with (inject_Z 0). rewrite <- Zle_Qle. lia. }
  assert (D0 : 0 <= inject_Z (Z.of_nat a) / inject_Z (Z.of_nat b)).
  { apply Qle_shift_div_l; [exact Pb|]. lra. }
  assert (D1 : inject_Z (Z.of_nat a) / inject_Z (Z.of_nat b) <= 1).
  { apply Qle_shift_div_r; [exact Pb|]. lra. }
  lra.
Qed.

Lemma count_le_length (test : ScrapedRow -> bool) (results : list ScrapedRow) :
  (count test results <= List.length results)%nat.
Proof. unfold count. apply filter_length_le. Qed.

Lemma count_narrower (f g : ScrapedRow -> bool) (results : list ScrapedRow) :
  (count (fun r => g r && f r) results <= count g results)%nat.
Proof.
  unfold count. induction results as [|r results IH]; [simpl; lia|].
  simpl. destruct (g r); simpl; [destruct (f r); simpl; lia|exact IH].
Qed.

Lemma fill_rate_percent (has : ScrapedRow -> bool)
      (results : list ScrapedRow) :
  (0 < count succeeded_row results)%nat ->
  0 <= fill_rate has results <= 100.
Proof.
  intros P. unfold fill_rate. apply ratio_percent; [|exact P].
  apply count_narrower.
Qed.

Lemma fold_max_ge (values : list Z) (start : Z) :
  (start <= fold_left Z.max values start)%Z
  /\ forall v, In v values -> (v <= fold_left Z.max values start)%Z.
Proof.
  revert start. induction values as [|x values IH]; intros start; simpl.
  - split; [lia|intros v []].
  - destruct (IH (Z.max start x)) as (S & A). split; [lia|].
    intros v [<-|I]; [lia|apply A, I].
Qed.

Lemma max_of_ge (values : list Z) (v : Z) :
  In v values -> (v <= max_of values)%Z.
Proof.
  destruct values as [|x values]; [intros []|]. simpl.
  destruct (fold_max_ge values x) as (S & A).
  intros [<-|I]; [exact S|apply A, I].
Qed.

(** X19: in the analysis of any list of rows, the successful scrapes and
    the retried sites are at most the total; the coverage and every fill
    rate lie between 0 and 100; fill rates are reported for the seven
    fields when at least one scrape succeeded and not at all otherwise;
    the maximum is at least the retries of every row; and for no rows at
    all the coverage, the average and the maximum are 0, without any
    division. *)
Theorem analyze_results_bounds (results : list ScrapedRow) :
  let a := analyze_results results in
  (successful_scrapes a <= total_websites a)%nat
  /\ (retried a <= total_websites a)%nat
  /\ total_websites a = List.length results
  /\ 0 <= coverage_percentage a <= 100
  /\ (forall field rate, In (field, rate) (fill_rates a) -> 0 <= rate <= 100)
  /\ ((0 < successful_scrapes a)%nat ->
      map fst (fill_rates a)
      = ["phones"; "facebook_links"; "twitter_links"; "instagram_links";
         "linkedin_links"; "youtube_links"; "addresses"]%string)
  /\ (successful_scrapes a = 0%nat -> fill_rates a = [])
  /\ (forall r, In r results -> (retries r <= max_retries a)%Z)
  /\ (results = [] ->
      coverage_percentage a = 0 /\ avg_retries a = 0
      /\ max_retries a = 0%Z /\ fill_rates a = []).
Proof.
  cbn zeta. unfold analyze_results.
  cbn [total_websites successful_scrapes coverage_percentage fill_rates
       retried avg_retries max_retries].
  pose proof (count_le_length succeeded_row results) as S.
  split; [exact S|]. split; [apply count_le_length|].
  split; [reflexivity|]. split.
  { destruct (Nat.ltb_spec 0 (List.length results)); [|lra].
    apply ratio_percent; assumption. }
  split.
  { intros field rate.
    destruct (Nat.ltb_spec 0 (count succeeded_row results)) as [P|Z];
      [|intros []].
    intros I. apply in_app_or in I as [[E|[]]|I].
    - injection E as _ <-. apply fill_rate_percent, P.
    - apply in_app_or in I as [I|[E|[]]].
      + apply in_map_iff in I as (platform & E & _).
        injection E as _ <-. apply fill_rate_percent, P.
      + injection E as _ <-. apply fill_rate_percent, P. }
  split.
  { intros P. apply Nat.ltb_lt in P. rewrite P. reflexivity. }
  split.
  { intros Z. rewrite Z. reflexivity. }
  split.
  { intros r I. apply max_of_ge, in_map, I. }
  intros ->. repeat split; reflexivity.
Qed.

End PipelineFacts.

(** ** Lists of strings written by the scraper and read by the matcher *)
Module StorageFacts.
Import PyStr DatasetBuilder Storage.
Import PyStrFacts.

Lemma append_assoc (a b c : string) : (a ++ b) ++ c = a ++ (b ++ c).
Proof.
  induction a as [|x a IH]; [reflexivity|].
  change (String x ((a ++ b) ++ c) = String x (a ++ b ++ c)).
  f_equal. exact IH.
Qed.

Lemma append_empty (a : string) : a ++ "" = a.
Proof.
  induction a as [|x a IH]; [reflexivity|].
  change (String x (a ++ "") = String x a). f_equal. exact IH.
Qed.

Lemma prun_app (st : pstate) (a b : string) :
  prun st (a ++ b) = prun (prun st a) b.
Proof.
  revert st. induction a as [|x a IH]; intros st; [reflexivity|].
  change (prun (pstep st x) (a ++ b) = prun (prun (pstep st x) a) b).
  apply IH.
Qed.

Lemma plain_char_step (c : ascii) :
  plain_char c = true ->
  Ascii.eqb c "'" = false
  /\ (Ascii.eqb c "\" || (nat_of_ascii c =? 10)%nat) = false.
Proof.
  unfold plain_char, between. intros H.
  apply andb_true_iff in H as (H & B). apply andb_true_iff in H as (R & Q).
  apply andb_true_iff in R as (Lo & _). apply Nat.leb_le in Lo.
  apply negb_true_iff in B. apply negb_true_iff in Q.
  split; [exact Q|]. rewrite B. simpl. apply Nat.eqb_neq. lia.
Qed.

(** Inside a literal, plain characters are collected as they come. *)
Lemma prun_quoted (s cur : string) (acc : list string) :
  plain s = true ->
  prun (Quoted "'" cur acc) s = Quoted "'" (cur ++ s) acc.
Proof.
  revert cur. induction s as [|c s IH]; intros cur P.
  - simpl. rewrite append_empty. reflexivity.
  - unfold plain, all_chars in P. simpl in P.
    apply andb_true_iff in P as (Pc & Ps).
    destruct (plain_char_step c Pc) as (Q & E).
    change (prun (Quoted "'" cur acc) (String c s))
      with (prun (pstep (Quoted "'" cur acc) c) s).
    cbn [pstep]. rewrite Q, E. rewrite (IH _ Ps).
    rewrite append_assoc. reflexivity.
Qed.

Lemma prun_repr (first : bool) (acc : list string) (s : string) :
  plain s = true ->
  prun (Item first acc) (py_repr s) = After (acc ++ [s])%list.
Proof.
  intros P. unfold py_repr.
  change ("'" ++ s ++ "'") with (String "'" (s ++ "'")).
  change (prun (Item first acc) (String "'" (s ++ "'")))
    with (prun (Quoted "'" "" acc) (s ++ "'")).
  rewrite prun_app, (prun_quoted s "" acc P). reflexivity.
Qed.

Lemma prun_items (items : list string) (first : bool) (acc : list string)
      (rest : string) :
  Forall (fun s => plain s = true) items -> items <> [] ->
  prun (Item first acc) (join ", " (map py_repr items) ++ rest)
  = prun (After (acc ++ items)%list) rest.
Proof.
  intros P. revert first acc.
  induction P as [|x items Px P IH]; intros first acc N; [contradiction|].
  destruct items as [|y items].
  - cbn [map join]. rewrite prun_app, (prun_repr _ _ _ Px). reflexivity.
  - change (join ", " (map py_repr (x :: y :: items)))
      with (py_repr x ++ ", " ++ join ", " (map py_repr (y :: items))).
    rewrite !append_assoc, prun_app, (prun_repr _ _ _ Px).
    change (prun (After (acc ++ [x])%list)
                 (", " ++ join ", " (map py_repr (y :: items)) ++ rest))
      with (prun (Item false (acc ++ [x])%list)
                 (join ", " (map py_repr (y :: items)) ++ rest)).
    rewrite IH by discriminate. rewrite <- app_assoc. reflexivity.
Qed.

Lemma eval_str_list (items : list string) :
  Forall (fun s => plain s = true) items ->
  eval_string_list (py_str_list items) = inl (VList (map VStr items)).
Proof.
  intros P. destruct items as [|x items]; [reflexivity|].
  unfold eval_string_list, py_str_list.
  change (prun Start ("[" ++ join ", " (map py_repr (x :: items)) ++ "]"))
    with (prun (Item true [])
               (join ", " (map py_repr (x :: items)) ++ "]")).
  rewrite (prun_items _ _ _ _ P) by discriminate. reflexivity.
Qed.

Lemma read_back (items : list string) :
  Forall (fun s => plain s = true) items ->
  _clean_string_list eval_string_list (Text (py_str_list items))
  = inl (VList (map VStr items)).
Proof.
  intros P. destruct items as [|x items]; [reflexivity|].
  unfold _clean_string_list.
  assert (E : isna (Text (py_str_list (x :: items)))
              || is_brackets (Text (py_str_list (x :: items))) = false).
  { unfold py_str_list. destruct items; reflexivity. }
  rewrite E, (eval_str_list _ P). reflexivity.
Qed.

(** X20: a list of plain strings (printable ASCII without the single
    quote and the backslash) that [save_results] stores as [str(list)] is
    read back by [_clean_string_list] as the same list, in the same order;
    the empty list too. *)
Theorem saved_list_read_back (items : list string) :
  Forall (fun s => plain s = true) items ->
  _clean_string_list eval_string_list (Text (py_str_list items))
  = inl (VList (map VStr items)).
Proof. exact (read_back items). Qed.

Lemma saved_list_read_back_witness :
  Forall (fun s => plain s = true) ["+14155550123"; "6285559999"]
  /\ _clean_string_list eval_string_list
       (Text "['+14155550123', '6285559999']")
     = inl (VList [VStr "+14155550123"; VStr "6285559999"]).
Proof.
  assert (P : Forall (fun s => plain s = true)
                     ["+14155550123"; "6285559999"])
    by (repeat constructor).
  split; [exact P|].
  exact (saved_list_read_back ["+14155550123"; "6285559999"] P).
Defined.

Lemma all_chars_append (p : ascii -> bool) (a b : string) :
  all_chars p (a ++ b) = all_chars p a && all_chars p b.
Proof.
  induction a as [|x a IH]; [reflexivity|].
  change (all_chars p (String x (a ++ b))
          = all_chars p (String x a) && all_chars p b).
  rewrite !all_chars_cons, IH, andb_assoc. reflexivity.
Qed.

Lemma digit_is_plain (c : ascii) : is_digit c = true -> plain_char c = true.
Proof.
  destruct c as [[] [] [] [] [] [] [] []]; intros H;
    try discriminate H; reflexivity.
Qed.

Lemma extracted_phone_plain (text p : string) :
  p ∈ Scraper.extract_phones text -> plain p = true.
Proof.
  intros H.
  apply PhonePatternFacts.extracted_phone_shape in H
    as (pre & d & -> & P & D & _).
  unfold plain. rewrite all_chars_append.
  apply andb_true_iff. split.
  - destruct P as [-> | ->]; reflexivity.
  - revert D. apply all_chars_weaken, digit_is_plain.
Qed.

(** X21: the phones that [extract_phones] finds in any text, put in a
    list in any order and with any repetition, stored by [save_results]
    and read by [_clean_string_list], come back as the same list: no
    phone is lost, split or altered between the scraper and the
    matcher. *)
Theorem scraped_phones_read_back (text : string) (phones : list string) :
  (forall p, In p phones -> p ∈ Scraper.extract_phones text) ->
  _clean_string_list eval_string_list (Text (py_str_list phones))
  = inl (VList (map VStr phones)).
Proof.
  intros H. apply read_back. apply Forall_forall.
  intros p I. apply (extracted_phone_plain text), H, I.
Qed.

Lemma scraped_phones_read_back_witness :
  (forall p, In p ["+14155550123"; "6285559999"] ->
             p ∈ Scraper.extract_phones Demo.sample)
  /\ _clean_string_list eval_string_list
       (Text "['+14155550123', '6285559999']")
     = inl (VList [VStr "+14155550123"; VStr "6285559999"]).
Proof.
  assert (H : forall p, In p ["+14155550123"; "6285559999"] ->
                        p ∈ Scraper.extract_phones Demo.sample).
  { intros p [<-|[<-|[]]].
    - exact ExtractFacts.sample_has_plus_phone.
    - exact ExtractFacts.sample_has_phone. }
  split; [exact H|].
  exact (scraped_phones_read_back Demo.sample
           ["+14155550123"; "6285559999"] H).
Defined.

End StorageFacts.

(** ** The documents of the index and the terms the matcher looks up *)
Module IndexerFacts.
Import PyStr Numbers Normalizers DatasetBuilder Matcher Selection Pipeline Indexer.
Import GatherFacts.

Lemma truthy_some (n : string) : n <> "" -> truthy (Some n) = true.
Proof. destruct n; [contradiction|reflexivity]. Qed.

Lemma truthy_nonempty (n : string) : truthy (Some n) = true -> n <> "".
Proof. destruct n; [discriminate|discriminate]. Qed.

Lemma phones_normalized_spec (phones : list string) (n : string) :
  In n (phones_normalized phones)
  <-> n <> "" /\ exists p, In p phones /\ _normalize_phone (Some p) = Some n.
Proof.
  unfold phones_normalized. rewrite in_flat_map. split.
  - intros (p & I & H). destruct (_normalize_phone (Some p)) as [m|] eqn:E.
    + destruct (truthy (Some m)) eqn:T; [|destruct H].
      destruct H as [<-|[]]. split; [apply truthy_nonempty, T|].
      exists p. split; [exact I|exact E].
    + destruct (truthy None); destruct H.
  - intros (N & p & I & E). exists p. split; [exact I|].
    rewrite E, (truthy_some n N). left. reflexivity.
Qed.

Lemma facebook_links_normalized_spec (links : list string) (n : string) :
  In n (facebook_links_normalized links)
  <-> n <> ""
      /\ exists u, In u links /\ _normalize_facebook_url (Some u) = Some n.
Proof.
  unfold facebook_links_normalized. rewrite in_flat_map. split.
  - intros (p & I & H).
    destruct (_normalize_facebook_url (Some p)) as [m|] eqn:E.
    + destruct (truthy (Some m)) eqn:T; [|destruct H].
      destruct H as [<-|[]]. split; [apply truthy_nonempty, T|].
      exists p. split; [exact I|exact E].
    + destruct (truthy None); destruct H.
  - intros (N & p & I & E). exists p. split; [exact I|].
    rewrite E, (truthy_some n N). left. reflexivity.
Qed.

Lemma normalized_phone_truthy (p n : string) :
  _normalize_phone (Some p) = Some n -> truthy (Some p) = true.
Proof.
  unfold _normalize_phone. destruct (truthy (Some p)); [reflexivity|].
  discriminate.
Qed.

Lemma normalized_facebook_truthy (u n : string) :
  _normalize_facebook_url (Some u) = Some n -> truthy (Some u) = true.
Proof.
  unfold _normalize_facebook_url. destruct (truthy (Some u)); [reflexivity|].
  discriminate.
Qed.

Section Lookup.
Context {A : arith}.
Variable B : backend A.

(** X22: the index and the matcher agree on phones.  When a company's
    row lists a phone and [match_company] is asked about a phone with the
    same non-empty normal form, however either is written, that normal
    form is an entry of the document's [phones_normalized] and it is the
    value of the one query the phone probe sends, on that field. *)
Theorem indexed_phone_is_looked_up
        (phones : list string) (stored asked n : string) (st : mstate A) :
  In stored phones ->
  _normalize_phone (Some stored) = Some n ->
  _normalize_phone (Some asked) = Some n ->
  n <> "" ->
  In n (phones_normalized phones)
  /\ issued (phone_probe B (Some asked) st)
     = (issued st ++ [(Match "phones_normalized" n, 5%nat)])%list.
Proof.
  intros I S Q N. split.
  - apply phones_normalized_spec. split; [exact N|].
    exists stored. split; [exact I|exact S].
  - unfold phone_probe.
    rewrite (normalized_phone_truthy _ _ Q), Q, (truthy_some n N).
    apply (probe_extends B).
Qed.

(** X23: the same for Facebook links: a link of the row and a link asked
    about that have the same non-empty normal form meet in
    [facebook_links_normalized], the field of the one query the Facebook
    probe sends. *)
Theorem indexed_facebook_is_looked_up
        (links : list string) (stored asked n : string) (st : mstate A) :
  In stored links ->
  _normalize_facebook_url (Some stored) = Some n ->
  _normalize_facebook_url (Some asked) = Some n ->
  n <> "" ->
  In n (facebook_links_normalized links)
  /\ issued (facebook_probe B (Some asked) st)
     = (issued st ++ [(Match "facebook_links_normalized" n, 5%nat)])%list.
Proof.
  intros I S Q N. split.
  - apply facebook_links_normalized_spec. split; [exact N|].
    exists stored. split; [exact I|exact S].
  - unfold facebook_probe.
    rewrite (normalized_facebook_truthy _ _ Q), Q, (truthy_some n N).
    apply (probe_extends B).
Qed.

End Lookup.

Lemma indexed_phone_is_looked_up_witness :
  In "+1 415-555-0123" ["+1 415-555-0123"; "n/a"]
  /\ In "4155550123" (phones_normalized ["+1 415-555-0123"; "n/a"])
  /\ issued (phone_probe Demo.index (Some "(415) 555 0123") initial)
     = [(Match "phones_normalized" "4155550123", 5%nat)].
Proof.
  assert (I : In "+1 415-555-0123" ["+1 415-555-0123"; "n/a"])
    by (left; reflexivity).
  split; [exact I|].
  assert (N : "4155550123" <> "") by discriminate.
  exact (indexed_phone_is_looked_up Demo.index
           ["+1 415-555-0123"; "n/a"] "+1 415-555-0123" "(415) 555 0123"
           "4155550123" initial I eq_refl eq_refl N).
Defined.

Lemma indexed_facebook_is_looked_up_witness :
  In "https://www.facebook.com/AcmeCo" ["https://www.facebook.com/AcmeCo"]
  /\ In "acmeco"
        (facebook_links_normalized ["https://www.facebook.com/AcmeCo"])
  /\ issued (facebook_probe Demo.index (Some "fb.com/acmeco") initial)
     = [(Match "facebook_links_normalized" "acmeco", 5%nat)].
Proof.
  assert (I : In "https://www.facebook.com/AcmeCo"
                 ["https://www.facebook.com/AcmeCo"])
    by (left; reflexivity).
  split; [exact I|].
  assert (N : "acmeco" <> "") by discriminate.
  exact (indexed_facebook_is_looked_up Demo.index
           ["https://www.facebook.com/AcmeCo"]
           "https://www.facebook.com/AcmeCo" "fb.com/acmeco"
           "acmeco" initial I eq_refl eq_refl N).
Defined.

(** X24: the name fields of a document.  Whenever the document's domain
    is not empty, neither the commercial nor the legal name is, and nor
    is the field of all names when its cell is missing; a commercial name
    that is absent or empty becomes the domain, a legal name that is
    absent or empty becomes the commercial name; but a commercial name
    whose cell is missing (NaN) is indexed as the text [nan], since the
    test for missing values is made on its string. *)
Theorem doc_names_filled (domain commercial legal all_names : option cell) :
  let d := doc_names domain commercial legal all_names in
  (doc_domain d <> "" ->
   doc_commercial_name d <> "" /\ doc_legal_name d <> ""
   /\ (all_names = Some Missing -> doc_all_names d <> ""))
  /\ (commercial = None \/ commercial = Some (Text "") ->
      doc_commercial_name d = doc_domain d)
  /\ (legal = None \/ legal = Some (Text "") ->
      doc_legal_name d = doc_commercial_name d)
  /\ (commercial = Some Missing -> doc_commercial_name d = "nan")
  /\ doc_domain d = strip (doc_domain d).
Proof.
  cbn zeta. unfold doc_names.
  cbn [doc_domain doc_commercial_name doc_legal_name doc_all_names].
  set (dom := strip (lower (get_str domain ""))).
  assert (C : dom <> "" ->
              (if String.eqb (get_str commercial "") "" then dom
               else get_str commercial "") <> "").
  { intros D. destruct (String.eqb_spec (get_str commercial "") "");
      assumption. }
  split; [|split; [|split; [|split]]].
  - intros D. specialize (C D). split; [exact C|]. split.
    + destruct (String.eqb_spec (get_str legal "") ""); assumption.
    + intros ->. exact C.
  - intros [-> | ->]; reflexivity.
  - intros [-> | ->]; reflexivity.
  - intros ->. reflexivity.
  - unfold dom. symmetry. apply PipelineFacts.strip_idempotent.
Qed.

End IndexerFacts.
